(** * Telegram File Sender MCP server: a shallow embedding of
      [file_sender_server.py] and the properties of its dispatch flow.

    The Python module keeps one global ([bot]), reads the process
    environment and the file system, and talks to the Telegram Bot API.
    All of that is gathered in a [World] that every operation threads
    through; a raised exception is a [Raise] result, so that "returns"
    and "raises" are two different outcomes that theorems can tell apart.
    Every [except] clause of the module is [except Exception] (or a
    subclass of it): an exception that derives from [BaseException] only,
    such as the [asyncio.CancelledError] of a cancelled [await], is not
    caught by any of them. *)

From stdpp Require Import gmap strings list pretty.
From Stdlib Require Import ZArith Lia Ascii.

Open Scope string_scope.
Open Scope Z_scope.

(** ** Python values

    The values of the [arguments] dict arrive from JSON.  The program only
    ever observes three things of such a value: its truth value ([not v]),
    its text ([f"{v}"]) and whether [os.path] and [open] accept it as a path.
    Strings, integers, booleans and [None] are modelled as they are; a float,
    list or dict is a [POther] that records its type name, its truth value
    and its [str()]. *)

Inductive pyval : Type :=
  | PNone
  | PBool (b : bool)
  | PInt (n : Z)
  | PStr (s : string)
  | POther (type_name : string) (truth : bool) (text : string).

(** [bool(v)], as used by [if not v]. *)
Definition py_truthy (v : pyval) : bool :=
  match v with
  | PNone => false
  | PBool b => b
  | PInt n => negb (n =? 0)
  | PStr s => negb (String.eqb s "")
  | POther _ t _ => t
  end.

(** [str(n)] for a Python int: the decimal numeral. *)
Definition str_of_int (n : Z) : string := pretty n.

(** [str(v)], which is what an f-string field [{v}] inserts. *)
Definition py_str (v : pyval) : string :=
  match v with
  | PNone => "None"
  | PBool true => "True"
  | PBool false => "False"
  | PInt n => str_of_int n
  | PStr s => s
  | POther _ _ t => t
  end.

(** [type(v).__name__], which the TypeError messages of [os.path] quote. *)
Definition py_type_name (v : pyval) : string :=
  match v with
  | PNone => "NoneType"
  | PBool _ => "bool"
  | PInt _ => "int"
  | PStr _ => "str"
  | POther t _ _ => t
  end.

(** ** Exceptions

    [send_document] and [send_photo] distinguish [TelegramError] (and its
    subclasses) from every other [Exception]; [str(e)] is the message.
    The last two classes do not derive from [Exception]:
    [asyncio.CancelledError], which an [await] raises when the task is
    cancelled, and the rest of [BaseException] ([KeyboardInterrupt],
    [SystemExit], [GeneratorExit]). *)

Inductive exn_class : Type :=
  | ValueError
  | TypeError
  | OverflowError
  | OSError
  | TelegramError
  | OtherException
  | CancelledError
  | OtherBaseException.

Record exn : Type := Exn { exn_kind : exn_class; exn_str : string }.

(** [isinstance(e, Exception)]: what [except Exception] catches. *)
Definition is_Exception (e : exn) : bool :=
  match exn_kind e with
  | CancelledError | OtherBaseException => false
  | _ => true
  end.

Definition is_TelegramError (e : exn) : bool :=
  match exn_kind e with
  | TelegramError => true
  | _ => false
  end.

Inductive result (A : Type) : Type :=
  | Ok (a : A)
  | Raise (e : exn).
Arguments Ok {A} a.
Arguments Raise {A} e.

(** ** Telegram objects *)

Record Message : Type := { chat_id : Z; message_id : Z }.

Record Update : Type := { update_id : Z; message : option Message }.

(** A [Bot] instance: the token it was built from and the identity of the
    object (the rank of its construction in the process). *)
Record Bot : Type := { token : string; instance : nat }.

(** The binary file object handed to the upload call. *)
Record FileObj : Type := { file_name : pyval; file_data : list Byte.byte }.

Record TextContent : Type := { type : string; text : string }.

(** The Bot API as this module calls it.  Each awaited method either
    returns or raises, a [TelegramError], any other [Exception], or the
    [CancelledError] of a cancelled task; what it answers is not this
    program's business, so it is a field of the world. *)
Record Remote : Type := {
  get_updates : Bot -> Z -> result (list Update);
  bot_send_document : Bot -> pyval -> FileObj -> pyval -> result Message;
  bot_send_photo : Bot -> pyval -> FileObj -> pyval -> result Message
}.

(** ** The file system *)

Inductive fnode : Type :=
  | Regular (content : list Byte.byte) (readable : bool)
  | Directory (st_size : Z).

(** ** Observable events, in the order they happen *)

Inductive event : Type :=
  | EvNewBot (t : string)
  | EvExists (path : pyval)
  | EvGetUpdates (limit : Z)
  | EvOpen (path : pyval)
  | EvClose (path : pyval)
  | EvSendDocument (chat : pyval) (doc : FileObj) (caption : pyval)
  | EvSendPhoto (chat : pyval) (photo : FileObj) (caption : pyval)
  | EvLog (line : string).

(** ** The world *)

Record World : Type := {
  environ : gmap string string;      (* os.environ *)
  bot : option Bot;                  (* the module global [bot] *)
  constructed : nat;                 (* how many [Bot(...)] were built *)
  fs : gmap string fnode;            (* paths that exist *)
  fds : gmap Z (list Byte.byte);     (* open file descriptors *)
  strerror : pyval -> string;        (* text of the OSError [open] raises *)
  remote : Remote;
  trace : list event
}.

Definition set_bot (b : Bot) (w : World) : World :=
  {| environ := environ w; bot := Some b; constructed := S (constructed w);
     fs := fs w; fds := fds w; strerror := strerror w; remote := remote w;
     trace := trace w ++ [EvNewBot (token b)] |}.

Definition record (ev : event) (w : World) : World :=
  {| environ := environ w; bot := bot w; constructed := constructed w;
     fs := fs w; fds := fds w; strerror := strerror w; remote := remote w;
     trace := trace w ++ [ev] |}.

(** ** The monad of the program: state plus exceptions *)

Definition M (A : Type) : Type := World -> result A * World.

Definition ret {A : Type} (a : A) : M A := fun w => (Ok a, w).

Definition raise {A : Type} (e : exn) : M A := fun w => (Raise e, w).

Definition bind {A B : Type} (m : M A) (k : A -> M B) : M B :=
  fun w =>
    match m w with
    | (Ok a, w') => k a w'
    | (Raise e, w') => (Raise e, w')
    end.

Notation "x <- m ;; k" := (bind m (fun x => k))
  (at level 100, m at next level, right associativity).
Notation "m ;;; k" := (bind m (fun _ => k))
  (at level 100, right associativity).

(** What an [except Exception as e: h e] clause does with a raised [e]:
    the handler runs when [e] is an [Exception], and [e] goes on to the
    caller when it is not. *)
Definition caught {A : Type} (h : exn -> M A) (e : exn) : M A :=
  if is_Exception e then h e else raise e.

(** [try: m  except Exception as e: h e] *)
Definition try_except {A : Type} (m : M A) (h : exn -> M A) : M A :=
  fun w =>
    match m w with
    | (Ok a, w') => (Ok a, w')
    | (Raise e, w') => caught h e w'
    end.

(** [try: m  finally: c], for a clean-up [c] that does not raise. *)
Definition finally {A : Type} (m : M A) (c : World -> World) : M A :=
  fun w => let (r, w') := m w in (r, c w').

Definition emit (ev : event) : M unit := fun w => (Ok tt, record ev w).

Definition lift {A : Type} (f : World -> result A) : M A := fun w => (f w, w).

(** ** Library calls the module makes *)

(** The line feed that ["\n"] denotes in the Python source. *)
Definition nl : string := String (Ascii.ascii_of_nat 10) "".

(** A file descriptor must fit a C [int]; [os.stat] raises OverflowError
    for an integer that does not. *)
Definition fd_in_range (n : Z) : bool := (- 2 ^ 31 <=? n) && (n <? 2 ^ 31).

Definition fd_overflow (n : Z) : exn :=
  Exn OverflowError
    (if n <? 0 then "fd is less than minimum" else "fd is greater than maximum").

(** What [os.stat], [open] and [os.path.getsize] do with an integer. *)
Definition fd_exists (n : Z) (w : World) : result bool :=
  if fd_in_range n then Ok (bool_decide (is_Some (fds w !! n)))
  else Raise (fd_overflow n).

Definition fd_read (path : pyval) (n : Z) (w : World) : result (list Byte.byte) :=
  if fd_in_range n then
    match fds w !! n with
    | Some content => Ok content
    | None => Raise (Exn OSError (strerror w path))
    end
  else Raise (fd_overflow n).

Definition result_map {A B : Type} (f : A -> B) (r : result A) : result B :=
  match r with
  | Ok a => Ok (f a)
  | Raise e => Raise e
  end.

(** [os.path.exists(path)]: [os.stat] inside a [try] that turns OSError
    and ValueError into [False].  A string is looked up in the file system,
    an integer is taken as a file descriptor; any other value makes
    [os.stat] raise TypeError, which [exists] does not catch. *)
Definition stat_exists (path : pyval) (w : World) : result bool :=
  match path with
  | PStr p => Ok (bool_decide (is_Some (fs w !! p)))
  | PInt n => fd_exists n w
  | PBool b => fd_exists (Z.b2z b) w
  | PNone | POther _ _ _ =>
      Raise (Exn TypeError
        ("stat: path should be string, bytes, os.PathLike or integer, not "
           +:+ py_type_name path))
  end.

Definition os_path_exists (path : pyval) : M bool :=
  emit (EvExists path) ;;; lift (stat_exists path).

(** [os.path.basename(p)] on POSIX: what follows the last slash. *)
Fixpoint has_slash (p : string) : bool :=
  match p with
  | EmptyString => false
  | String c r => Ascii.eqb c "/"%char || has_slash r
  end.

Fixpoint basename (p : string) : string :=
  match p with
  | EmptyString => EmptyString
  | String c r =>
      if has_slash r then basename r
      else if Ascii.eqb c "/"%char then r else p
  end.

Definition os_path_basename (path : pyval) : M string :=
  match path with
  | PStr p => ret (basename p)
  | _ =>
      raise (Exn TypeError
        ("expected str, bytes or os.PathLike object, not "
           +:+ py_type_name path))
  end.

(** [os.path.getsize(path)]: [os.stat(path).st_size]. *)
Definition stat_size (path : pyval) (w : World) : result Z :=
  match path with
  | PStr p =>
      match fs w !! p with
      | Some (Regular content _) => Ok (Z.of_nat (length content))
      | Some (Directory sz) => Ok sz
      | None => Raise (Exn OSError (strerror w path))
      end
  | PInt n => result_map (fun c => Z.of_nat (length c)) (fd_read path n w)
  | PBool b =>
      result_map (fun c => Z.of_nat (length c)) (fd_read path (Z.b2z b) w)
  | PNone | POther _ _ _ =>
      Raise (Exn TypeError
        ("stat: path should be string, bytes, os.PathLike or integer, not "
           +:+ py_type_name path))
  end.

Definition os_path_getsize (path : pyval) : M Z := lift (stat_size path).

(** [open(path, 'rb')]: a readable regular file (or an open descriptor)
    yields its bytes; a directory, an unreadable or a missing file raises
    OSError. *)
Definition open_rb (path : pyval) (w : World) : result FileObj :=
  match path with
  | PStr p =>
      match fs w !! p with
      | Some (Regular content true) =>
          Ok {| file_name := path; file_data := content |}
      | _ => Raise (Exn OSError (strerror w path))
      end
  | PInt n =>
      result_map (fun c => {| file_name := path; file_data := c |})
        (fd_read path n w)
  | PBool b =>
      result_map (fun c => {| file_name := path; file_data := c |})
        (fd_read path (Z.b2z b) w)
  | PNone | POther _ _ _ =>
      Raise (Exn TypeError
        ("expected str, bytes or os.PathLike object, not "
           +:+ py_type_name path))
  end.

(** [with open(path, 'rb') as file: body]: the file is closed on every way
    out of the body. *)
Definition with_open {A : Type} (path : pyval) (body : FileObj -> M A) : M A :=
  emit (EvOpen path) ;;;
  file <- lift (open_rb path) ;;
  finally (body file) (record (EvClose path)).

(** [logger.error(line)] *)
Definition logger_error (line : string) : M unit := emit (EvLog line).

(** The three awaited Bot methods. *)
Definition await_get_updates (b : Bot) (limit : Z) : M (list Update) :=
  emit (EvGetUpdates limit) ;;;
  lift (fun w => get_updates (remote w) b limit).

Definition await_send_document (b : Bot) (chat : pyval) (doc : FileObj)
    (caption : pyval) : M Message :=
  emit (EvSendDocument chat doc caption) ;;;
  lift (fun w => bot_send_document (remote w) b chat doc caption).

Definition await_send_photo (b : Bot) (chat : pyval) (photo : FileObj)
    (caption : pyval) : M Message :=
  emit (EvSendPhoto chat photo caption) ;;;
  lift (fun w => bot_send_photo (remote w) b chat photo caption).

Definition text_content (s : string) : TextContent :=
  {| type := "text"; text := s |}.

(** ** The module [file_sender_server] *)

Definition token_required : exn :=
  Exn ValueError "TELEGRAM_BOT_TOKEN environment variable is required".

(** [get_bot()]: the global is built on first use and returned as it is
    afterwards. *)
Definition get_bot : M Bot :=
  fun w =>
    match bot w with
    | None =>
        match environ w !! "TELEGRAM_BOT_TOKEN" with
        | Some t =>
            if String.eqb t "" then raise token_required w
            else
              let b := {| token := t; instance := constructed w |} in
              (Ok b, set_bot b w)
        | None => raise token_required w
        end
    | Some b => (Ok b, w)
    end.

(** The loop [for update in reversed(updates): if update.message: return
    str(update.message.chat_id)], run on the list already reversed. *)
Fixpoint scan_updates (reversed : list Update) : option string :=
  match reversed with
  | [] => None
  | update :: rest =>
      match message update with
      | Some m => Some (str_of_int (chat_id m))
      | None => scan_updates rest
      end
  end.

Definition get_chat_id_from_updates : M (option string) :=
  try_except
    (telegram_bot <- get_bot ;;
     updates <- await_get_updates telegram_bot 100 ;;
     match updates with
     | [] => ret None
     | _ :: _ => ret (scan_updates (rev updates))
     end)
    (fun e =>
       logger_error ("Error getting chat_id: " +:+ exn_str e) ;;;
       ret None).

(** [arguments.get(key)] and [arguments.get(key, default)] *)
Definition dict_get (arguments : gmap string pyval) (key : string) : pyval :=
  default PNone (arguments !! key).

Definition dict_get_default (arguments : gmap string pyval) (key : string)
    (d : pyval) : pyval :=
  default d (arguments !! key).

Definition no_chat_id_text : string :=
  "Error: chat_id not provided and could not auto-detect. Please send a message to the bot first.".

(** The value of the variable [chat_id] after
    [chat_id = await get_chat_id_from_updates()]. *)
Definition py_of_optional_str (o : option string) : pyval :=
  match o with
  | Some s => PStr s
  | None => PNone
  end.

(** The two [except] clauses that close both senders. *)
Definition upload_failed (e : exn) : M (list TextContent) :=
  if is_TelegramError e then
    ret [text_content ("Telegram error: " +:+ exn_str e)]
  else
    ret [text_content ("Error: " +:+ exn_str e)].

Definition document_sent (file_name : string) (file_size : Z)
    (message : Message) : string :=
  "Document sent successfully!" +:+ nl
  +:+ "File: " +:+ file_name +:+ nl
  +:+ "Size: " +:+ str_of_int file_size +:+ " bytes" +:+ nl
  +:+ "Chat ID: " +:+ str_of_int (chat_id message) +:+ nl
  +:+ "Message ID: " +:+ str_of_int (message_id message).

Definition photo_sent (file_name : string) (message : Message) : string :=
  "Photo sent successfully!" +:+ nl
  +:+ "File: " +:+ file_name +:+ nl
  +:+ "Chat ID: " +:+ str_of_int (chat_id message) +:+ nl
  +:+ "Message ID: " +:+ str_of_int (message_id message).

(** The [try] statement of [send_document], from [get_bot()] to the last
    [except]. *)
Definition upload_document (chat file_path caption : pyval)
    : M (list TextContent) :=
  try_except
    (telegram_bot <- get_bot ;;
     message <- with_open file_path (fun file =>
       await_send_document telegram_bot chat file caption) ;;
     file_name <- os_path_basename file_path ;;
     file_size <- os_path_getsize file_path ;;
     ret [text_content (document_sent file_name file_size message)])
    upload_failed.

(** The [try] statement of [send_photo]. *)
Definition upload_photo (chat file_path caption : pyval)
    : M (list TextContent) :=
  try_except
    (telegram_bot <- get_bot ;;
     message <- with_open file_path (fun file =>
       await_send_photo telegram_bot chat file caption) ;;
     file_name <- os_path_basename file_path ;;
     ret [text_content (photo_sent file_name message)])
    upload_failed.

Definition send_document (arguments : gmap string pyval)
    : M (list TextContent) :=
  let chat := dict_get arguments "chat_id" in
  let file_path := dict_get arguments "file_path" in
  let caption := dict_get_default arguments "caption" (PStr "") in
  if negb (py_truthy file_path) then
    ret [text_content "Error: file_path is required"]
  else
    found <- os_path_exists file_path ;;
    if negb found then
      ret [text_content ("Error: File not found: " +:+ py_str file_path)]
    else if negb (py_truthy chat) then
      detected <- get_chat_id_from_updates ;;
      let chat := py_of_optional_str detected in
      if negb (py_truthy chat) then ret [text_content no_chat_id_text]
      else upload_document chat file_path caption
    else upload_document chat file_path caption.

Definition send_photo (arguments : gmap string pyval)
    : M (list TextContent) :=
  let chat := dict_get arguments "chat_id" in
  let file_path := dict_get arguments "file_path" in
  let caption := dict_get_default arguments "caption" (PStr "") in
  if negb (py_truthy file_path) then
    ret [text_content "Error: file_path is required"]
  else
    found <- os_path_exists file_path ;;
    if negb found then
      ret [text_content ("Error: File not found: " +:+ py_str file_path)]
    else if negb (py_truthy chat) then
      detected <- get_chat_id_from_updates ;;
      let chat := py_of_optional_str detected in
      if negb (py_truthy chat) then ret [text_content no_chat_id_text]
      else upload_photo chat file_path caption
    else upload_photo chat file_path caption.

(** [call_tool(name, arguments)] *)
Definition call_tool (name : string) (arguments : gmap string pyval)
    : M (list TextContent) :=
  try_except
    (if String.eqb name "send_telegram_document" then send_document arguments
     else if String.eqb name "send_telegram_photo" then send_photo arguments
     else raise (Exn ValueError ("Unknown tool: " +:+ name)))
    (fun e =>
       logger_error ("Error calling tool " +:+ name +:+ ": " +:+ exn_str e) ;;;
       ret [text_content ("Error: " +:+ exn_str e)]).

(** ** Vocabulary of the statements *)

(** The shape both senders share, with the upload left open: used to prove
    once what holds of both. *)
Definition sender (upload : pyval -> pyval -> pyval -> M (list TextContent))
    (arguments : gmap string pyval) : M (list TextContent) :=
  let chat := dict_get arguments "chat_id" in
  let file_path := dict_get arguments "file_path" in
  let caption := dict_get_default arguments "caption" (PStr "") in
  if negb (py_truthy file_path) then
    ret [text_content "Error: file_path is required"]
  else
    found <- os_path_exists file_path ;;
    if negb found then
      ret [text_content ("Error: File not found: " +:+ py_str file_path)]
    else if negb (py_truthy chat) then
      detected <- get_chat_id_from_updates ;;
      let chat := py_of_optional_str detected in
      if negb (py_truthy chat) then ret [text_content no_chat_id_text]
      else upload chat file_path caption
    else upload chat file_path caption.

(** [s.startswith(p)] *)
Definition starts_with (p s : string) : bool := String.prefix p s.

(** [sub in s] *)
Fixpoint occurs_in (sub s : string) : bool :=
  String.prefix sub s ||
  match s with
  | EmptyString => false
  | String _ r => occurs_in sub r
  end.

(** A call returned (did not raise) a list of exactly one text item. *)
Definition returns_one_text {W : Type} (out : result (list TextContent) * W)
    : Prop :=
  exists t, fst out = Ok [text_content t].

Definition is_upload (ev : event) : bool :=
  match ev with
  | EvSendDocument _ _ _ | EvSendPhoto _ _ _ => true
  | _ => false
  end.

(** The events a call added to the trace: those of [w'] beyond [w]'s. *)
Definition new_events (w w' : World) : list event :=
  drop (length (trace w)) (trace w').

(** [m] never raises / every list [m] returns holds exactly one text item. *)
Definition never_raises {A : Type} (m : M A) : Prop :=
  forall w e w', m w <> (Raise e, w').

(** [m] lets no [Exception] out: what it raises, if anything, is not one. *)
Definition contains_Exceptions {A : Type} (m : M A) : Prop :=
  forall w e w', m w = (Raise e, w') -> is_Exception e = false.

(** [e] is what some awaited method of the remote raises. *)
Definition remote_raises (r : Remote) (e : exn) : Prop :=
  (exists b limit, get_updates r b limit = Raise e) \/
  (exists b chat doc caption,
     bot_send_document r b chat doc caption = Raise e) \/
  (exists b chat photo caption,
     bot_send_photo r b chat photo caption = Raise e).

(** A remote none of whose calls is cancelled: whatever its methods raise
    is an [Exception]. *)
Definition raises_Exceptions (r : Remote) : Prop :=
  forall e, remote_raises r e -> is_Exception e = true.

(** [m] leaves the remote as it is, and what it raises is an [Exception]
    or comes from the remote. *)
Definition raises_from_remote {A : Type} (m : M A) : Prop :=
  forall w r w', m w = (r, w') ->
    remote w' = remote w /\
    forall e, r = Raise e ->
      is_Exception e = true \/ remote_raises (remote w) e.

(** A call raised an exception that is not an [Exception] and that an
    awaited method of the remote of [w] raised. *)
Definition lets_through {W : Type} (w : World)
    (out : result (list TextContent) * W) : Prop :=
  exists e,
    fst out = Raise e /\ is_Exception e = false /\
    remote_raises (remote w) e.

Definition yields_one_text (m : M (list TextContent)) : Prop :=
  forall w a w', m w = (Ok a, w') -> exists t, a = [text_content t].

(** What no operation of the module touches: the environment, the files
    and the remote. *)
Definition frame (w w' : World) : Prop :=
  environ w' = environ w /\ fs w' = fs w /\ fds w' = fds w /\
  strerror w' = strerror w /\ remote w' = remote w.

(** The events [m] adds to the trace all satisfy [p], and [m] leaves the
    frame as it was. *)
Definition only_emits {A : Type} (p : event -> bool) (m : M A) : Prop :=
  forall w r w', m w = (r, w') ->
    frame w w' /\ exists evs : list event,
      trace w' = (trace w ++ evs)%list /\ forallb p evs = true.

(** The chat that resolution finds in world [w], if any. *)
Definition resolved_identity (w : World) : option string :=
  match fst (get_chat_id_from_updates w) with
  | Ok r => r
  | Raise _ => None
  end.

(** A value that [os.path.exists] takes without raising. *)
Definition path_checkable (v : pyval) : bool :=
  match v with
  | PStr _ | PBool _ => true
  | PInt n => fd_in_range n
  | PNone | POther _ _ _ => false
  end.

(** The global [bot] and the construction counter agree: nothing built and
    nothing cached, or one built and that one cached. *)
Definition bot_invariant (w : World) : Prop :=
  match bot w with
  | None => constructed w = 0%nat
  | Some _ => constructed w = 1%nat
  end.

(** How the global may change during a call: the invariant is kept, and a
    cached client stays the cached client. *)
Definition evolves (w w' : World) : Prop :=
  (bot_invariant w -> bot_invariant w') /\
  (forall b, bot w = Some b -> bot w' = Some b).

Definition keeps_client {A : Type} (m : M A) : Prop :=
  forall w r w', m w = (r, w') -> evolves w w'.

(** [n] successive calls of [get_bot]; the handles obtained, in order. *)
Fixpoint get_bot_times (n : nat) (w : World) : list (result Bot) * World :=
  match n with
  | O => ([], w)
  | S k =>
      let (r, w1) := get_bot w in
      let (rs, w2) := get_bot_times k w1 in
      (r :: rs, w2)
  end.

(** The client a call of [get_bot] hands out in world [w], if it does. *)
Definition client (w : World) : option Bot :=
  match fst (get_bot w) with
  | Ok b => Some b
  | Raise _ => None
  end.

(** The chat a sender uses: the one given when it is truthy, else the one
    resolution finds. *)
Definition destination (arguments : gmap string pyval) (w : World)
    : option pyval :=
  let chat := dict_get arguments "chat_id" in
  if py_truthy chat then Some chat
  else option_map PStr (resolved_identity w).

(** A process lifetime as the router sees it: tool calls one after the
    other. *)
Fixpoint serve (calls : list (string * gmap string pyval)) (w : World)
    : World :=
  match calls with
  | [] => w
  | (name, arguments) :: rest => serve rest (snd (call_tool name arguments w))
  end.

(** ** Worlds used to exercise the statements *)

Definition demo_message : Message := {| chat_id := 42; message_id := 7 |}.

Definition demo_remote : Remote := {|
  get_updates := fun _ _ =>
    Ok [ {| update_id := 1; message := Some {| chat_id := 5; message_id := 1 |} |};
         {| update_id := 2; message := Some {| chat_id := 42; message_id := 3 |} |};
         {| update_id := 3; message := None |} ];
  bot_send_document := fun _ _ _ _ => Ok demo_message;
  bot_send_photo := fun _ _ _ _ => Ok demo_message
|}.

(** A remote whose awaited calls are all cancelled. *)
Definition cancelling_remote : Remote := {|
  get_updates := fun _ _ => Raise (Exn CancelledError "");
  bot_send_document := fun _ _ _ _ => Raise (Exn CancelledError "");
  bot_send_photo := fun _ _ _ _ => Raise (Exn CancelledError "")
|}.

(** A remote that nobody has written to and that cannot be reached. *)
Definition silent_remote : Remote := {|
  get_updates := fun _ _ => Ok [];
  bot_send_document := fun _ _ _ _ => Raise (Exn TelegramError "Timed out");
  bot_send_photo := fun _ _ _ _ => Raise (Exn TelegramError "Timed out")
|}.

Definition failing_remote : Remote := {|
  get_updates := fun _ _ => Raise (Exn TelegramError "Timed out");
  bot_send_document := fun _ _ _ _ => Raise (Exn TelegramError "Timed out");
  bot_send_photo := fun _ _ _ _ => Raise (Exn TelegramError "Timed out")
|}.

Definition demo_world_with (r : Remote) : World := {|
  environ := {[ "TELEGRAM_BOT_TOKEN" := "123:abc" ]};
  bot := None;
  constructed := 0;
  fs := {[ "/tmp/report.pdf" := Regular [Byte.x25; Byte.x50; Byte.x44] true ]};
  fds := ∅;
  strerror := fun _ => "[Errno 13] Permission denied";
  remote := r;
  trace := []
|}.

Definition demo_world : World := demo_world_with demo_remote.

(** A remote that delivers to a channel named by its user name and
    answers with the numeric chat of that channel. *)
Definition channel_remote : Remote := {|
  get_updates := fun _ _ => Ok [];
  bot_send_document := fun _ _ _ _ =>
    Ok {| chat_id := -1001234; message_id := 7 |};
  bot_send_photo := fun _ _ _ _ =>
    Ok {| chat_id := -1001234; message_id := 7 |}
|}.

(** The same machine without the credential. *)
Definition unconfigured_world : World := {|
  environ := ∅;
  bot := None;
  constructed := 0;
  fs := fs demo_world;
  fds := ∅;
  strerror := strerror demo_world;
  remote := demo_remote;
  trace := []
|}.

(** ** The tool registry *)

(** One entry of the ["properties"] dict of an input schema. *)
Record Property : Type := {
  prop_type : string;
  prop_description : string;
  prop_default : option pyval
}.

(** The [inputSchema] dict of a tool. *)
Record Schema : Type := {
  schema_type : string;
  properties : list (string * Property);
  required : list string
}.

Record Tool : Type := {
  name : string;
  description : string;
  inputSchema : Schema
}.

(** [list_tools()] *)
Definition list_tools : list Tool :=
  [ {| name := "send_telegram_document";
       description := "Send a document file (PDF, ZIP, DOCX, etc.) to Telegram";
       inputSchema := {|
         schema_type := "object";
         properties :=
           [ ("file_path",
              {| prop_type := "string";
                 prop_description := "Absolute path to the file to send";
                 prop_default := None |});
             ("chat_id",
              {| prop_type := "string";
                 prop_description :=
                   "Telegram chat ID (optional, will auto-detect if not provided)";
                 prop_default := None |});
             ("caption",
              {| prop_type := "string";
                 prop_description := "Optional caption for the file";
                 prop_default := Some (PStr "") |}) ];
         required := ["file_path"] |} |};
    {| name := "send_telegram_photo";
       description := "Send a photo/image file to Telegram";
       inputSchema := {|
         schema_type := "object";
         properties :=
           [ ("file_path",
              {| prop_type := "string";
                 prop_description := "Absolute path to the image file";
                 prop_default := None |});
             ("chat_id",
              {| prop_type := "string";
                 prop_description :=
                   "Telegram chat ID (optional, will auto-detect if not provided)";
                 prop_default := None |});
             ("caption",
              {| prop_type := "string";
                 prop_description := "Optional caption for the photo";
                 prop_default := Some (PStr "") |}) ];
         required := ["file_path"] |} |} ].

(** JSON-Schema reading of the two keywords the schemas use: a value has
    the declared type, every required key is there, and every declared
    property that is given has its declared type. *)
Definition has_json_type (t : string) (v : pyval) : bool :=
  match v with
  | PStr _ => String.eqb t "string"
  | PInt _ => String.eqb t "integer" || String.eqb t "number"
  | PBool _ => String.eqb t "boolean"
  | PNone => String.eqb t "null"
  | POther _ _ _ =>
      String.eqb t "number" || String.eqb t "array" || String.eqb t "object"
  end.

Definition conforms (s : Schema) (arguments : gmap string pyval) : bool :=
  forallb (fun key => bool_decide (is_Some (arguments !! key))) (required s)
  && forallb
       (fun kp : string * Property =>
          match arguments !! fst kp with
          | Some v => has_json_type (prop_type (snd kp)) v
          | None => true
          end)
       (properties s).

(** ** More vocabulary *)

(** The shape the two [try] statements share: the awaited Bot method, the
    event it leaves, and what is done with the returned message. *)
Definition await_send
    (ev : pyval -> FileObj -> pyval -> event)
    (call : Remote -> Bot -> pyval -> FileObj -> pyval -> result Message)
    (b : Bot) (chat : pyval) (file : FileObj) (caption : pyval) : M Message :=
  emit (ev chat file caption) ;;;
  lift (fun w => call (remote w) b chat file caption).

Definition upload_with
    (ev : pyval -> FileObj -> pyval -> event)
    (call : Remote -> Bot -> pyval -> FileObj -> pyval -> result Message)
    (finish : pyval -> Message -> M (list TextContent))
    (chat file_path caption : pyval) : M (list TextContent) :=
  try_except
    (telegram_bot <- get_bot ;;
     message <- with_open file_path (fun file =>
       await_send ev call telegram_bot chat file caption) ;;
     finish file_path message)
    upload_failed.

Definition finish_document (file_path : pyval) (message : Message)
    : M (list TextContent) :=
  file_name <- os_path_basename file_path ;;
  file_size <- os_path_getsize file_path ;;
  ret [text_content (document_sent file_name file_size message)].

Definition finish_photo (file_path : pyval) (message : Message)
    : M (list TextContent) :=
  file_name <- os_path_basename file_path ;;
  ret [text_content (photo_sent file_name message)].

(** The text the two [except] clauses make of an exception. *)
Definition failure_text (e : exn) : string :=
  (if is_TelegramError e then "Telegram error: " else "Error: ")
    +:+ exn_str e.

(** A node that [open(path, 'rb')] accepts. *)
Definition readable_file (node : fnode) : bool :=
  match node with
  | Regular _ readable => readable
  | Directory _ => false
  end.

(** Every text [m] returns satisfies [P]. *)
Definition yields_text(P : string -> Prop) (m : M (list TextContent)) : Prop :=
  forall w a w', m w = (Ok a, w') -> exists t, a = [text_content t] /\ P t.

(** The three kinds of text a caller can receive. *)
Definition is_report (success : string) (t : string) : Prop :=
  starts_with success t = true \/
  starts_with "Error: " t = true \/
  starts_with "Telegram error: " t = true.

(** How many events of [evs] are of the kind [q]; [m] adds at most [n]
    events of that kind to the trace. *)
Fixpoint count_events (q : event -> bool) (evs : list event) : nat :=
  match evs with
  | [] => 0
  | ev :: rest => ((if q ev then 1 else 0) + count_events q rest)%nat
  end.

Definition event_bound {A : Type} (q : event -> bool) (n : nat) (m : M A)
    : Prop :=
  forall w r w', m w = (r, w') ->
    exists evs : list event,
      trace w' = (trace w ++ evs)%list /\ (count_events q evs <= n)%nat.

Definition is_fetch (ev : event) : bool :=
  match ev with
  | EvGetUpdates _ => true
  | _ => false
  end.

Definition resolver_event (ev : event) : bool :=
  match ev with
  | EvNewBot _ | EvLog _ => true
  | EvGetUpdates limit => limit =? 100
  | _ => false
  end.

(** ** More worlds *)

(** A machine where the path is a directory, and one where the file may
    not be read. *)
Definition directory_world : World := {|
  environ := {[ "TELEGRAM_BOT_TOKEN" := "123:abc" ]};
  bot := None;
  constructed := 0;
  fs := {[ "/tmp/report.pdf" := Directory 4096 ]};
  fds := ∅;
  strerror := fun _ => "[Errno 21] Is a directory: '/tmp/report.pdf'";
  remote := demo_remote;
  trace := []
|}.

(** A remote that refuses the upload, and one whose client library fails. *)
Definition refusing_remote : Remote := {|
  get_updates := fun _ _ => Ok [];
  bot_send_document := fun _ _ _ _ =>
    Raise (Exn TelegramError "Chat not found");
  bot_send_photo := fun _ _ _ _ =>
    Raise (Exn OtherException "Event loop is closed")
|}.

(** * Properties *)

(** Splits conjunctions, and only those. *)
Ltac split_all := repeat match goal with |- _ /\ _ => split end.

(** ** Running the monad *)

Section MonadFacts.
Context {A B : Type}.
Implicit Types (m : M A) (k : A -> M B).

Lemma bind_ok m k w a w1 :
  m w = (Ok a, w1) -> (x <- m ;; k x) w = k a w1.
Proof. intros H. unfold bind. now rewrite H. Qed.

Lemma bind_raise m k w e w1 :
  m w = (Raise e, w1) -> (x <- m ;; k x) w = (Raise e, w1).
Proof. intros H. unfold bind. now rewrite H. Qed.

Lemma bind_inv m k w r w' :
  (x <- m ;; k x) w = (r, w') ->
  (exists a w1, m w = (Ok a, w1) /\ k a w1 = (r, w')) \/
  (exists e, m w = (Raise e, w') /\ r = Raise e).
Proof.
  unfold bind. destruct (m w) as [[a | e] w1]; intros H.
  - left. eauto.
  - right. exists e. now inversion H.
Qed.

Lemma try_except_ok m (h : exn -> M A) w a w1 :
  m w = (Ok a, w1) -> try_except m h w = (Ok a, w1).
Proof. intros H. unfold try_except. now rewrite H. Qed.

Lemma caught_Exception (h : exn -> M A) e :
  is_Exception e = true -> caught h e = h e.
Proof. intros H. unfold caught. now rewrite H. Qed.

Lemma caught_other (h : exn -> M A) e :
  is_Exception e = false -> caught h e = raise e.
Proof. intros H. unfold caught. now rewrite H. Qed.

(** An [Exception] goes to the handler. *)
Lemma try_except_raise m (h : exn -> M A) w e w1 :
  m w = (Raise e, w1) -> is_Exception e = true ->
  try_except m h w = h e w1.
Proof. intros H He. unfold try_except. now rewrite H, caught_Exception. Qed.

(** Anything else goes through the [try] statement. *)
Lemma try_except_pass m (h : exn -> M A) w e w1 :
  m w = (Raise e, w1) -> is_Exception e = false ->
  try_except m h w = (Raise e, w1).
Proof. intros H He. unfold try_except. now rewrite H, caught_other. Qed.

Lemma try_except_inv m (h : exn -> M A) w r w' :
  try_except m h w = (r, w') ->
  (exists a, m w = (Ok a, w') /\ r = Ok a) \/
  (exists e w1,
     m w = (Raise e, w1) /\ is_Exception e = true /\ h e w1 = (r, w')) \/
  (exists e, m w = (Raise e, w') /\ is_Exception e = false /\ r = Raise e).
Proof.
  unfold try_except, caught. destruct (m w) as [[a | e] w1]; intros H.
  - left. exists a. now inversion H.
  - destruct (is_Exception e) eqn:He.
    + right. left. eauto.
    + right. right. exists e. now inversion H.
Qed.
End MonadFacts.

(** No [Exception] leaves a [try] statement whose handler lets none out. *)
Lemma try_except_contains {A : Type} (m : M A) (h : exn -> M A) :
  (forall e, contains_Exceptions (h e)) ->
  contains_Exceptions (try_except m h).
Proof.
  intros Hh w e w' H.
  apply try_except_inv in H
    as [(a & _ & Ha) | [(e1 & w1 & _ & _ & H1) | (e1 & _ & He & [= ->])]].
  - discriminate.
  - exact (Hh e1 w1 e w' H1).
  - exact He.
Qed.

Lemma never_raises_contains {A : Type} (m : M A) :
  never_raises m -> contains_Exceptions m.
Proof. intros Hm w e w' H. destruct (Hm w e w' H). Qed.

Lemma bind_contains {A B : Type} (m : M A) (k : A -> M B) :
  contains_Exceptions m -> (forall a, contains_Exceptions (k a)) ->
  contains_Exceptions (x <- m ;; k x).
Proof.
  intros Hm Hk w e w' H.
  apply bind_inv in H as [(a & w1 & _ & H1) | (e1 & H1 & [= <-])].
  - exact (Hk a w1 e w' H1).
  - exact (Hm w e w' H1).
Qed.

Lemma ret_contains {A : Type} (a : A) : contains_Exceptions (ret a).
Proof. intros w e w' H. discriminate. Qed.

(** What a [try] statement raises comes from where its body's and its
    handler's exceptions come from. *)
Lemma try_except_raises_from_remote {A : Type} (m : M A) (h : exn -> M A) :
  raises_from_remote m -> (forall e, raises_from_remote (h e)) ->
  raises_from_remote (try_except m h).
Proof.
  intros Hm Hh w r w' H.
  apply try_except_inv in H
    as [(a & H1 & ->) | [(e1 & w1 & H1 & _ & H2) | (e1 & H1 & He & ->)]].
  - destruct (Hm _ _ _ H1) as [R _]. split; [exact R | discriminate].
  - destruct (Hm _ _ _ H1) as [R1 _]. destruct (Hh e1 _ _ _ H2) as [R2 F2].
    split; [congruence |]. intros e E. rewrite <- R1. now apply F2.
  - exact (Hm _ _ _ H1).
Qed.

Lemma bind_raises_from_remote {A B : Type} (m : M A) (k : A -> M B) :
  raises_from_remote m -> (forall a, raises_from_remote (k a)) ->
  raises_from_remote (x <- m ;; k x).
Proof.
  intros Hm Hk w r w' H.
  apply bind_inv in H as [(a & w1 & H1 & H2) | (e1 & H1 & ->)].
  - destruct (Hm _ _ _ H1) as [R1 _]. destruct (Hk a _ _ _ H2) as [R2 F2].
    split; [congruence |]. intros e E. rewrite <- R1. now apply F2.
  - destruct (Hm _ _ _ H1) as [R F]. split; [exact R |].
    intros e [= <-]. now apply F.
Qed.

Lemma ret_raises_from_remote {A : Type} (a : A) : raises_from_remote (ret a).
Proof. intros w r w' [= <- <-]. split; [reflexivity | discriminate]. Qed.

Lemma raise_raises_from_remote {A : Type} (e : exn) :
  is_Exception e = true -> raises_from_remote (@raise A e).
Proof.
  intros He w r w' [= <- <-]. split; [reflexivity |].
  intros e' [= <-]. now left.
Qed.

Lemma emit_raises_from_remote ev : raises_from_remote (emit ev).
Proof. intros w r w' [= <- <-]. split; [reflexivity | discriminate]. Qed.

(** A library call that raises nothing but [Exception]s. *)
Lemma lift_raises_from_remote {A : Type} (f : World -> result A) :
  (forall w e, f w = Raise e -> is_Exception e = true) ->
  raises_from_remote (lift f).
Proof.
  intros Hf w r w' [= <- <-]. split; [reflexivity |].
  intros e E. left. exact (Hf w e E).
Qed.

Lemma finally_raises_from_remote {A : Type} (m : M A) ev :
  raises_from_remote m -> raises_from_remote (finally m (record ev)).
Proof.
  intros Hm w r w' H. unfold finally in H.
  destruct (m w) as [r1 w1] eqn:E. injection H as <- <-.
  destruct (Hm _ _ _ E) as [R F]. split; [exact R | exact F].
Qed.

Lemma ret_never_raises {A : Type} (a : A) : never_raises (ret a).
Proof. intros w e w' H. discriminate. Qed.

Lemma bind_never_raises {A B : Type} (m : M A) (k : A -> M B) :
  never_raises m -> (forall a, never_raises (k a)) ->
  never_raises (x <- m ;; k x).
Proof.
  intros Hm Hk w e w' H.
  apply bind_inv in H as [(a & w1 & _ & H1) | (e1 & H1 & _)].
  - exact (Hk a w1 e w' H1).
  - exact (Hm w e1 w' H1).
Qed.

Lemma emit_never_raises ev : never_raises (emit ev).
Proof. intros w e w' H. discriminate. Qed.

Lemma ret_yields_one_text t : yields_one_text (ret [text_content t]).
Proof. intros w a w' H. inversion H. eauto. Qed.

Lemma bind_yields_one_text {A : Type} (m : M A) k :
  (forall a, yields_one_text (k a)) -> yields_one_text (x <- m ;; k x).
Proof.
  intros Hk w a w' H.
  apply bind_inv in H as [(x & w1 & _ & H1) | (e & _ & He)].
  - exact (Hk x w1 a w' H1).
  - discriminate.
Qed.

Lemma try_except_yields_one_text m h :
  yields_one_text m -> (forall e, yields_one_text (h e)) ->
  yields_one_text (try_except m h).
Proof.
  intros Hm Hh w a w' H.
  apply try_except_inv in H
    as [(x & H1 & Hx) | [(e & w1 & _ & _ & H1) | (e & _ & _ & He)]].
  - inversion Hx; subst. exact (Hm w x w' H1).
  - exact (Hh e w1 a w' H1).
  - discriminate.
Qed.

Lemma raise_yields_one_text e : yields_one_text (raise e).
Proof. intros w a w' H. discriminate. Qed.

(** The outcome of a call that is well-shaped, lets no [Exception] out
    and raises nothing of its own: one text, or what the remote raised. *)
Lemma outcome_intro (m : M (list TextContent)) w :
  contains_Exceptions m -> raises_from_remote m -> yields_one_text m ->
  returns_one_text (m w) \/ lets_through w (m w).
Proof.
  intros Hn Hf Hy. unfold returns_one_text, lets_through.
  destruct (m w) as [[a | e] w'] eqn:E; simpl.
  - left. destruct (Hy w a w' E) as [t ->]. eauto.
  - right. exists e. split; [reflexivity |].
    pose proof (Hn w e w' E) as He. split; [exact He |].
    destruct (Hf w _ w' E) as [_ F].
    destruct (F e eq_refl) as [Hx | Hr]; [congruence | exact Hr].
Qed.

(** With a remote that raises only [Exception]s nothing is let through. *)
Lemma lets_through_cancelled {W : Type} w
    (out : result (list TextContent) * W) :
  raises_Exceptions (remote w) -> lets_through w out -> False.
Proof.
  intros Hpolite (e & _ & He & Hr). apply Hpolite in Hr. congruence.
Qed.

Create HintDb pyflow.
#[local] Hint Resolve ret_never_raises emit_never_raises bind_never_raises
  ret_contains bind_contains try_except_contains never_raises_contains
  ret_raises_from_remote emit_raises_from_remote bind_raises_from_remote
  try_except_raises_from_remote finally_raises_from_remote
  ret_yields_one_text bind_yields_one_text
  try_except_yields_one_text raise_yields_one_text : pyflow.

(** ** Strings *)

Lemma prefix_app (p s : string) : String.prefix p (p +:+ s) = true.
Proof.
  induction p as [| c p IH]; simpl.
  - now destruct s.
  - destruct (Ascii.ascii_dec c c) as [_ | N]; [exact IH | now destruct N].
Qed.

Lemma occurs_in_here (sub post : string) : occurs_in sub (sub +:+ post) = true.
Proof.
  pose proof (prefix_app sub post) as H.
  destruct (sub +:+ post); cbn [occurs_in]; rewrite H; reflexivity.
Qed.

Lemma occurs_in_app (pre sub post : string) :
  occurs_in sub (pre +:+ sub +:+ post) = true.
Proof.
  induction pre as [| c pre IH].
  - exact (occurs_in_here sub post).
  - change (String c pre +:+ sub +:+ post)
      with (String c (pre +:+ sub +:+ post)).
    cbn [occurs_in]. rewrite IH. apply orb_true_r.
Qed.

Lemma occurs_in_end (pre sub : string) : occurs_in sub (pre +:+ sub) = true.
Proof.
  replace (pre +:+ sub) with (pre +:+ sub +:+ "").
  - apply occurs_in_app.
  - f_equal. induction sub as [| c sub IH]; [reflexivity |].
    change (String c sub +:+ "") with (String c (sub +:+ "")). congruence.
Qed.

(** A decimal numeral has at least one digit. *)
Lemma pretty_N_go_grows (x : N) (s : string) :
  (String.length s <= String.length (pretty_N_go x s))%nat.
Proof.
  revert s. induction (N.lt_wf_0 x) as [x _ IH]. intros s.
  destruct (N.eq_dec x 0) as [-> | Hx].
  - rewrite pretty_N_go_0. lia.
  - rewrite pretty_N_go_step by lia.
    etransitivity; [| apply IH; apply N.div_lt; lia].
    simpl. lia.
Qed.

Lemma str_of_int_nonempty (n : Z) : str_of_int n <> "".
Proof.
  assert (Hpos : forall p : positive, pretty p <> "").
  { intros p H. unfold pretty, pretty_positive, pretty, pretty_N in H.
    destruct (decide (N.pos p = 0%N)) as [E | _]; [discriminate E |].
    rewrite pretty_N_go_step in H by lia.
    pose proof (pretty_N_go_grows (N.pos p `div` 10)
      (String (pretty_N_char (N.pos p `mod` 10)) "")) as G.
    rewrite H in G. simpl in G. lia. }
  unfold str_of_int, pretty, pretty_Z.
  destruct n as [| p | p]; [discriminate | apply Hpos | discriminate].
Qed.

Lemma str_of_int_truthy (n : Z) : py_truthy (PStr (str_of_int n)) = true.
Proof.
  simpl. destruct (String.eqb_spec (str_of_int n) "") as [E | _].
  - now apply str_of_int_nonempty in E.
  - reflexivity.
Qed.

Lemma scan_updates_truthy (us : list Update) (s : string) :
  scan_updates us = Some s -> py_truthy (PStr s) = true.
Proof.
  induction us as [| u us IH]; simpl; [discriminate |].
  destruct (message u) as [m |]; [| exact IH].
  intros [= <-]. apply str_of_int_truthy.
Qed.

(** ** What a call adds to the trace *)

Lemma frame_refl w : frame w w.
Proof. now repeat split. Qed.

Lemma frame_trans w1 w2 w3 : frame w1 w2 -> frame w2 w3 -> frame w1 w3.
Proof.
  unfold frame. intros (A1 & A2 & A3 & A4 & A5) (B1 & B2 & B3 & B4 & B5).
  repeat split; congruence.
Qed.

Lemma frame_record ev w : frame w (record ev w).
Proof. now repeat split. Qed.

Section OnlyEmits.
Variable p : event -> bool.

Lemma ret_only_emits {A : Type} (a : A) : only_emits p (ret a).
Proof.
  intros w r w' [= <- <-]. split; [apply frame_refl |].
  exists []. now rewrite app_nil_r.
Qed.

Lemma raise_only_emits {A : Type} (e : exn) : only_emits p (@raise A e).
Proof.
  intros w r w' [= <- <-]. split; [apply frame_refl |].
  exists []. now rewrite app_nil_r.
Qed.

Lemma lift_only_emits {A : Type} (f : World -> result A) :
  only_emits p (lift f).
Proof.
  intros w r w' [= <- <-]. split; [apply frame_refl |].
  exists []. now rewrite app_nil_r.
Qed.

Lemma emit_only_emits ev : p ev = true -> only_emits p (emit ev).
Proof.
  intros Hp w r w' [= <- <-]. split; [apply frame_record |].
  exists [ev]. simpl. now rewrite Hp.
Qed.

Lemma bind_only_emits {A B : Type} (m : M A) (k : A -> M B) :
  only_emits p m -> (forall a, only_emits p (k a)) ->
  only_emits p (x <- m ;; k x).
Proof.
  intros Hm Hk w r w' H.
  apply bind_inv in H as [(a & w1 & H1 & H2) | (e & H1 & ->)].
  - destruct (Hm _ _ _ H1) as (F1 & evs1 & T1 & P1).
    destruct (Hk a _ _ _ H2) as (F2 & evs2 & T2 & P2).
    split; [eapply frame_trans; eassumption |].
    exists (evs1 ++ evs2)%list. split.
    + now rewrite T2, T1, app_assoc.
    + now rewrite forallb_app, P1, P2.
  - exact (Hm _ _ _ H1).
Qed.

Lemma try_except_only_emits {A : Type} (m : M A) (h : exn -> M A) :
  only_emits p m -> (forall e, only_emits p (h e)) ->
  only_emits p (try_except m h).
Proof.
  intros Hm Hh w r w' H.
  apply try_except_inv in H
    as [(a & H1 & ->) | [(e & w1 & H1 & _ & H2) | (e & H1 & _ & ->)]].
  - exact (Hm _ _ _ H1).
  - destruct (Hm _ _ _ H1) as (F1 & evs1 & T1 & P1).
    destruct (Hh e _ _ _ H2) as (F2 & evs2 & T2 & P2).
    split; [eapply frame_trans; eassumption |].
    exists (evs1 ++ evs2)%list. split.
    + now rewrite T2, T1, app_assoc.
    + now rewrite forallb_app, P1, P2.
  - exact (Hm _ _ _ H1).
Qed.

Lemma finally_only_emits {A : Type} (m : M A) ev :
  only_emits p m -> p ev = true -> only_emits p (finally m (record ev)).
Proof.
  intros Hm Hp w r w' H. unfold finally in H.
  destruct (m w) as [r1 w1] eqn:E. injection H as <- <-.
  destruct (Hm _ _ _ E) as (F1 & evs1 & T1 & P1).
  split; [eapply frame_trans; [eassumption | apply frame_record] |].
  exists (evs1 ++ [ev])%list. split.
  - simpl. now rewrite T1, app_assoc.
  - rewrite forallb_app, P1. simpl. now rewrite Hp.
Qed.

Lemma get_bot_only_emits :
  (forall t, p (EvNewBot t) = true) -> only_emits p get_bot.
Proof.
  intros Hp w r w' H. unfold get_bot in H.
  destruct (bot w) as [b |].
  - revert H. apply (ret_only_emits b).
  - destruct (environ w !! "TELEGRAM_BOT_TOKEN") as [t |];
      [destruct (String.eqb t "") |].
    + revert H. apply raise_only_emits.
    + injection H as <- <-. split; [now repeat split |].
      exists [EvNewBot t]. simpl. now rewrite Hp.
    + revert H. apply raise_only_emits.
Qed.
End OnlyEmits.

#[local] Hint Resolve ret_only_emits raise_only_emits lift_only_emits
  emit_only_emits bind_only_emits try_except_only_emits finally_only_emits
  get_bot_only_emits : pyflow.

(** The events beyond the old trace are the ones appended to it. *)
Lemma new_events_app w w' (evs : list event) :
  trace w' = (trace w ++ evs)%list -> new_events w w' = evs.
Proof.
  intros H. unfold new_events. rewrite H. apply drop_app_length.
Qed.

(** ** [get_bot] *)

Lemma get_bot_cached w b : bot w = Some b -> get_bot w = (Ok b, w).
Proof. intros H. unfold get_bot. now rewrite H. Qed.

Lemma get_bot_first w t :
  bot w = None -> environ w !! "TELEGRAM_BOT_TOKEN" = Some t -> t <> "" ->
  get_bot w =
    (Ok {| token := t; instance := constructed w |},
     set_bot {| token := t; instance := constructed w |} w).
Proof.
  intros Hb Ht Hne. unfold get_bot. rewrite Hb, Ht.
  destruct (String.eqb_spec t "") as [E | _]; [contradiction | reflexivity].
Qed.

Lemma get_bot_unconfigured w :
  bot w = None ->
  environ w !! "TELEGRAM_BOT_TOKEN" = None \/
  environ w !! "TELEGRAM_BOT_TOKEN" = Some "" ->
  get_bot w = (Raise token_required, w).
Proof.
  intros Hb [Ht | Ht]; unfold get_bot; rewrite Hb, Ht; reflexivity.
Qed.

(** After any call the global holds what the call returned. *)
Lemma get_bot_caches w b w' : get_bot w = (Ok b, w') -> bot w' = Some b.
Proof.
  unfold get_bot. destruct (bot w) as [b0 |] eqn:Hb.
  - intros [= <- <-]. exact Hb.
  - destruct (environ w !! "TELEGRAM_BOT_TOKEN") as [t |];
      [destruct (String.eqb t "") |]; try discriminate.
    now intros [= <- <-].
Qed.

Lemma get_bot_invariant w r w' :
  bot_invariant w -> get_bot w = (r, w') -> bot_invariant w'.
Proof.
  unfold get_bot, bot_invariant. destruct (bot w) as [b0 |] eqn:Hb.
  - intros Hi [= <- <-]. now rewrite Hb.
  - intros Hi. destruct (environ w !! "TELEGRAM_BOT_TOKEN") as [t |];
      [destruct (String.eqb t "") |]; intros [= <- <-]; simpl;
      rewrite ?Hb; lia.
Qed.

(** The one exception [get_bot] raises is its ValueError, and it leaves
    the world as it was. *)
Lemma get_bot_raises w e w1 :
  get_bot w = (Raise e, w1) -> e = token_required /\ w1 = w.
Proof.
  unfold get_bot. destruct (bot w); [discriminate |].
  destruct (environ w !! "TELEGRAM_BOT_TOKEN") as [t |];
    [destruct (String.eqb t "") |]; try discriminate;
    now intros [= <- <-].
Qed.

Lemma get_bot_raises_from_remote : raises_from_remote get_bot.
Proof.
  intros w r w' H. split.
  - unfold get_bot in H. destruct (bot w); [now injection H as _ <- |].
    destruct (environ w !! "TELEGRAM_BOT_TOKEN") as [t |];
      [destruct (String.eqb t "") |]; now injection H as _ <-.
  - intros e ->. apply get_bot_raises in H as [-> _]. now left.
Qed.

(** An awaited method of the remote raises what the remote raises. *)
Lemma await_get_updates_raises_from_remote b limit :
  raises_from_remote (await_get_updates b limit).
Proof.
  intros w r w' H. unfold await_get_updates, bind, emit, lift in H.
  simpl in H. injection H as <- <-. split; [reflexivity |].
  intros e E. right. left. eauto.
Qed.

(** ** [get_chat_id_from_updates] *)

Lemma resolver_contains : contains_Exceptions get_chat_id_from_updates.
Proof.
  unfold get_chat_id_from_updates, logger_error.
  apply try_except_contains. intros e. auto with pyflow.
Qed.

Lemma resolver_raises_from_remote :
  raises_from_remote get_chat_id_from_updates.
Proof.
  unfold get_chat_id_from_updates, logger_error.
  apply try_except_raises_from_remote; [| intros e; auto with pyflow].
  apply bind_raises_from_remote; [apply get_bot_raises_from_remote |].
  intros b.
  apply bind_raises_from_remote;
    [apply await_get_updates_raises_from_remote |].
  intros [| u us]; auto with pyflow.
Qed.

Lemma resolver_only_emits (p : event -> bool) :
  (forall t, p (EvNewBot t) = true) -> p (EvGetUpdates 100) = true ->
  (forall l, p (EvLog l) = true) ->
  only_emits p get_chat_id_from_updates.
Proof.
  intros H1 H2 H3.
  unfold get_chat_id_from_updates, await_get_updates, logger_error.
  apply try_except_only_emits.
  - apply bind_only_emits; [auto with pyflow |]. intros b.
    apply bind_only_emits; [auto with pyflow |].
    intros [| u us]; auto with pyflow.
  - intros e. auto with pyflow.
Qed.

(** The run of the resolver when the client is there and the fetch
    answers. *)
Lemma resolver_run w b w1 updates :
  get_bot w = (Ok b, w1) ->
  get_updates (remote w) b 100 = Ok updates ->
  get_chat_id_from_updates w =
    (Ok (scan_updates (rev updates)), record (EvGetUpdates 100) w1).
Proof.
  intros Hb Hu.
  assert (Hr : remote w1 = remote w).
  { destruct (get_bot_only_emits (fun _ => true) (fun _ => eq_refl) _ _ _ Hb)
      as [(_ & _ & _ & _ & R) _]. exact R. }
  unfold get_chat_id_from_updates.
  erewrite try_except_ok; [reflexivity |].
  erewrite bind_ok by exact Hb.
  unfold await_get_updates, bind, emit, lift. simpl.
  rewrite Hr, Hu. now destruct updates.
Qed.

(** The two ways the fetch can fail, and what the resolver makes of them. *)
Lemma resolver_no_client w e w1 :
  get_bot w = (Raise e, w1) ->
  get_chat_id_from_updates w =
    (Ok None, record (EvLog ("Error getting chat_id: " +:+ exn_str e)) w1).
Proof.
  intros Hb. unfold get_chat_id_from_updates.
  erewrite try_except_raise; [reflexivity | now apply bind_raise |].
  now apply get_bot_raises in Hb as [-> _].
Qed.

Lemma resolver_fetch_fails w b w1 e :
  get_bot w = (Ok b, w1) ->
  get_updates (remote w) b 100 = Raise e ->
  is_Exception e = true ->
  get_chat_id_from_updates w =
    (Ok None,
     record (EvLog ("Error getting chat_id: " +:+ exn_str e))
       (record (EvGetUpdates 100) w1)).
Proof.
  intros Hb Hu He.
  assert (Hr : remote w1 = remote w).
  { destruct (get_bot_only_emits (fun _ => true) (fun _ => eq_refl) _ _ _ Hb)
      as [(_ & _ & _ & _ & R) _]. exact R. }
  unfold get_chat_id_from_updates.
  erewrite try_except_raise; [reflexivity | | exact He].
  erewrite bind_ok by exact Hb.
  unfold await_get_updates, bind, emit, lift. simpl.
  now rewrite Hr, Hu.
Qed.

(** The third way: the fetch raises what [except Exception] does not
    catch, and the resolver raises it in turn, with nothing logged. *)
Lemma resolver_fetch_cancelled w b w1 e :
  get_bot w = (Ok b, w1) ->
  get_updates (remote w) b 100 = Raise e ->
  is_Exception e = false ->
  get_chat_id_from_updates w = (Raise e, record (EvGetUpdates 100) w1).
Proof.
  intros Hb Hu He.
  assert (Hr : remote w1 = remote w).
  { destruct (get_bot_only_emits (fun _ => true) (fun _ => eq_refl) _ _ _ Hb)
      as [(_ & _ & _ & _ & R) _]. exact R. }
  unfold get_chat_id_from_updates.
  erewrite try_except_pass; [reflexivity | | exact He].
  erewrite bind_ok by exact Hb.
  unfold await_get_updates, bind, emit, lift. simpl.
  now rewrite Hr, Hu.
Qed.

(** Whatever the resolver raises, the fetch raised, and it is no
    [Exception]. *)
Lemma resolver_raise_inv w e w' :
  get_chat_id_from_updates w = (Raise e, w') ->
  is_Exception e = false /\
  exists b w1,
    get_bot w = (Ok b, w1) /\ get_updates (remote w) b 100 = Raise e /\
    w' = record (EvGetUpdates 100) w1.
Proof.
  intros H. pose proof (resolver_contains _ _ _ H) as He.
  split; [exact He |].
  destruct (get_bot w) as [[b | e0] w1] eqn:Hb.
  - exists b, w1.
    destruct (get_updates (remote w) b 100) as [updates | e1] eqn:Hu.
    + rewrite (resolver_run _ _ _ _ Hb Hu) in H. discriminate.
    + destruct (is_Exception e1) eqn:He1.
      * rewrite (resolver_fetch_fails _ _ _ _ Hb Hu He1) in H. discriminate.
      * rewrite (resolver_fetch_cancelled _ _ _ _ Hb Hu He1) in H.
        injection H as <- <-. auto.
  - rewrite (resolver_no_client _ _ _ Hb) in H. discriminate.
Qed.

Lemma resolver_some_truthy w s w' :
  get_chat_id_from_updates w = (Ok (Some s), w') ->
  py_truthy (PStr s) = true.
Proof.
  unfold get_chat_id_from_updates. intros H.
  apply try_except_inv in H
    as [(a & H & [= <-]) | [(e & w1 & _ & _ & H) | (e & _ & _ & He)]];
    [| | discriminate].
  - apply bind_inv in H as [(b & w2 & _ & H) | (e & _ & He)];
      [| discriminate].
    apply bind_inv in H as [(us & w3 & _ & H) | (e & _ & He)];
      [| discriminate].
    destruct us as [| u us]; [discriminate |].
    injection H as H _. now apply scan_updates_truthy in H.
  - unfold logger_error, bind, emit, ret in H. discriminate.
Qed.

(** What the resolver returns or raises does not depend on the events
    recorded so far. *)
Lemma resolver_result_record ev w :
  fst (get_chat_id_from_updates (record ev w)) =
  fst (get_chat_id_from_updates w).
Proof.
  unfold get_chat_id_from_updates, try_except, caught, bind,
    get_bot, await_get_updates, logger_error, emit, lift, ret, raise.
  simpl. destruct (bot w) as [b |]; simpl.
  - destruct (get_updates (remote w) b 100) as [[| u us] | e];
      try reflexivity.
    now destruct (is_Exception e).
  - destruct (environ w !! "TELEGRAM_BOT_TOKEN") as [t |]; [| reflexivity].
    destruct (String.eqb t ""); [reflexivity |]. simpl.
    destruct (get_updates (remote w) _ 100) as [[| u us] | e];
      try reflexivity.
    now destruct (is_Exception e).
Qed.

Lemma resolved_identity_record ev w :
  resolved_identity (record ev w) = resolved_identity w.
Proof. unfold resolved_identity. now rewrite resolver_result_record. Qed.

Lemma resolved_identity_eq w r w' :
  get_chat_id_from_updates w = (Ok r, w') -> resolved_identity w = r.
Proof. intros H. unfold resolved_identity. now rewrite H. Qed.

(** When resolution finds somebody, the resolver returns, also after one
    more event. *)
Lemma resolved_run w s ev :
  resolved_identity w = Some s ->
  exists w1, get_chat_id_from_updates (record ev w) = (Ok (Some s), w1).
Proof.
  intros H. unfold resolved_identity in H.
  rewrite <- (resolver_result_record ev) in H.
  destruct (get_chat_id_from_updates (record ev w)) as [[r | e] w1];
    simpl in H; [| discriminate].
  subst r. eauto.
Qed.

(** The same when the resolver returns [None]. *)
Lemma unresolved_run w ev :
  fst (get_chat_id_from_updates w) = Ok None ->
  exists w1, get_chat_id_from_updates (record ev w) = (Ok None, w1).
Proof.
  intros H. rewrite <- (resolver_result_record ev) in H.
  destruct (get_chat_id_from_updates (record ev w)) as [r w1].
  simpl in H. subst r. eauto.
Qed.

(** ** The two [try] statements *)

Lemma upload_failed_never_raises e : never_raises (upload_failed e).
Proof. unfold upload_failed. destruct (is_TelegramError e); auto with pyflow. Qed.

Lemma upload_failed_yields_one_text e : yields_one_text (upload_failed e).
Proof. unfold upload_failed. destruct (is_TelegramError e); auto with pyflow. Qed.

Lemma upload_failed_raises_from_remote e :
  raises_from_remote (upload_failed e).
Proof. unfold upload_failed. destruct (is_TelegramError e); auto with pyflow. Qed.

#[local] Hint Resolve upload_failed_never_raises upload_failed_yields_one_text
  upload_failed_raises_from_remote resolver_contains
  resolver_raises_from_remote get_bot_raises_from_remote : pyflow.

(** The library calls of the module raise nothing but [Exception]s. *)
Lemma fd_read_raises path n w e :
  fd_read path n w = Raise e -> is_Exception e = true.
Proof.
  unfold fd_read, fd_overflow. destruct (fd_in_range n).
  - destruct (fds w !! n); [discriminate | now intros [= <-]].
  - now intros [= <-].
Qed.

Lemma stat_exists_raises path w e :
  stat_exists path w = Raise e -> is_Exception e = true.
Proof.
  destruct path; simpl; unfold fd_exists, fd_overflow;
    try (now intros [= <-]);
    try discriminate;
    match goal with |- context [fd_in_range ?n] => destruct (fd_in_range n) end;
    try discriminate; now intros [= <-].
Qed.

Lemma stat_size_raises path w e :
  stat_size path w = Raise e -> is_Exception e = true.
Proof.
  destruct path as [| b | n | p | t b s]; simpl; try (now intros [= <-]).
  - destruct (fd_read (PBool b) (Z.b2z b) w) eqn:E; simpl; [discriminate |].
    intros [= <-]. exact (fd_read_raises _ _ _ _ E).
  - destruct (fd_read (PInt n) n w) eqn:E; simpl; [discriminate |].
    intros [= <-]. exact (fd_read_raises _ _ _ _ E).
  - destruct (fs w !! p) as [[content readable | sz] |]; try discriminate.
    now intros [= <-].
Qed.

Lemma open_rb_raises path w e :
  open_rb path w = Raise e -> is_Exception e = true.
Proof.
  destruct path as [| b | n | p | t b s]; simpl; try (now intros [= <-]).
  - destruct (fd_read (PBool b) (Z.b2z b) w) eqn:E; simpl; [discriminate |].
    intros [= <-]. exact (fd_read_raises _ _ _ _ E).
  - destruct (fd_read (PInt n) n w) eqn:E; simpl; [discriminate |].
    intros [= <-]. exact (fd_read_raises _ _ _ _ E).
  - destruct (fs w !! p) as [[content [|] | sz] |]; try discriminate;
      now intros [= <-].
Qed.

Lemma os_path_exists_raises_from_remote path :
  raises_from_remote (os_path_exists path).
Proof.
  unfold os_path_exists. apply bind_raises_from_remote; [auto with pyflow |].
  intros _. apply lift_raises_from_remote. apply stat_exists_raises.
Qed.

Lemma os_path_basename_raises_from_remote path :
  raises_from_remote (os_path_basename path).
Proof.
  destruct path; simpl; auto with pyflow;
    now apply raise_raises_from_remote.
Qed.

Lemma os_path_getsize_raises_from_remote path :
  raises_from_remote (os_path_getsize path).
Proof. apply lift_raises_from_remote. apply stat_size_raises. Qed.

Lemma with_open_raises_from_remote {A : Type} path (body : FileObj -> M A) :
  (forall file, raises_from_remote (body file)) ->
  raises_from_remote (with_open path body).
Proof.
  intros Hbody. unfold with_open.
  apply bind_raises_from_remote; [auto with pyflow |]. intros _.
  apply bind_raises_from_remote;
    [apply lift_raises_from_remote, open_rb_raises |].
  intros file. apply finally_raises_from_remote, Hbody.
Qed.

Lemma await_send_document_raises_from_remote b chat doc caption :
  raises_from_remote (await_send_document b chat doc caption).
Proof.
  intros w r w' H. unfold await_send_document, bind, emit, lift in H.
  simpl in H. injection H as <- <-. split; [reflexivity |].
  intros e E. right. right. left. eauto.
Qed.

Lemma await_send_photo_raises_from_remote b chat photo caption :
  raises_from_remote (await_send_photo b chat photo caption).
Proof.
  intros w r w' H. unfold await_send_photo, bind, emit, lift in H.
  simpl in H. injection H as <- <-. split; [reflexivity |].
  intros e E. right. right. right. eauto.
Qed.

#[local] Hint Resolve os_path_exists_raises_from_remote
  os_path_basename_raises_from_remote os_path_getsize_raises_from_remote
  await_send_document_raises_from_remote await_send_photo_raises_from_remote
  : pyflow.

Lemma upload_document_contains chat path caption :
  contains_Exceptions (upload_document chat path caption).
Proof. unfold upload_document. auto with pyflow. Qed.

Lemma upload_photo_contains chat path caption :
  contains_Exceptions (upload_photo chat path caption).
Proof. unfold upload_photo. auto with pyflow. Qed.

Lemma upload_document_raises_from_remote chat path caption :
  raises_from_remote (upload_document chat path caption).
Proof.
  unfold upload_document.
  apply try_except_raises_from_remote; [| auto with pyflow].
  apply bind_raises_from_remote; [auto with pyflow |]. intros b.
  apply bind_raises_from_remote.
  - apply with_open_raises_from_remote. auto with pyflow.
  - intros message. auto 6 with pyflow.
Qed.

Lemma upload_photo_raises_from_remote chat path caption :
  raises_from_remote (upload_photo chat path caption).
Proof.
  unfold upload_photo.
  apply try_except_raises_from_remote; [| auto with pyflow].
  apply bind_raises_from_remote; [auto with pyflow |]. intros b.
  apply bind_raises_from_remote.
  - apply with_open_raises_from_remote. auto with pyflow.
  - intros message. auto 6 with pyflow.
Qed.

Lemma upload_document_yields_one_text chat path caption :
  yields_one_text (upload_document chat path caption).
Proof.
  unfold upload_document. apply try_except_yields_one_text; [| auto with pyflow].
  repeat (apply bind_yields_one_text; intros ?). auto with pyflow.
Qed.

Lemma upload_photo_yields_one_text chat path caption :
  yields_one_text (upload_photo chat path caption).
Proof.
  unfold upload_photo. apply try_except_yields_one_text; [| auto with pyflow].
  repeat (apply bind_yields_one_text; intros ?). auto with pyflow.
Qed.

(** ** The two senders *)

Lemma send_document_sender arguments :
  send_document arguments = sender upload_document arguments.
Proof. reflexivity. Qed.

Lemma send_photo_sender arguments :
  send_photo arguments = sender upload_photo arguments.
Proof. reflexivity. Qed.

Lemma stat_exists_record ev v w :
  stat_exists v (record ev w) = stat_exists v w.
Proof. now destruct v. Qed.

(** The existence check: one event, and the answer of [os.stat]. *)
Lemma os_path_exists_run v w :
  os_path_exists v w =
    (stat_exists v w, record (EvExists v) w).
Proof.
  unfold os_path_exists, emit, lift, bind. simpl.
  rewrite stat_exists_record. now destruct (stat_exists v w).
Qed.

Section Sender.
Variable upload : pyval -> pyval -> pyval -> M (list TextContent).
Hypothesis upload_safe : forall c f k, contains_Exceptions (upload c f k).
Hypothesis upload_source : forall c f k, raises_from_remote (upload c f k).
Hypothesis upload_shape : forall c f k, yields_one_text (upload c f k).

Lemma sender_yields_one_text arguments :
  yields_one_text (sender upload arguments).
Proof.
  unfold sender.
  destruct (py_truthy (dict_get arguments "file_path")); simpl;
    [| auto with pyflow].
  apply bind_yields_one_text. intros [|]; simpl; [| auto with pyflow].
  destruct (py_truthy (dict_get arguments "chat_id")); simpl; [auto |].
  apply bind_yields_one_text. intros detected.
  destruct (py_truthy (py_of_optional_str detected)); simpl;
    auto with pyflow.
Qed.

(** What a sender raises is an [Exception] of the existence check, or
    comes from the remote. *)
Lemma sender_raises_from_remote arguments :
  raises_from_remote (sender upload arguments).
Proof.
  unfold sender.
  destruct (py_truthy (dict_get arguments "file_path")); simpl;
    [| auto with pyflow].
  apply bind_raises_from_remote; [auto with pyflow |].
  intros [|]; simpl; [| auto with pyflow].
  destruct (py_truthy (dict_get arguments "chat_id")); simpl; [auto |].
  apply bind_raises_from_remote; [auto with pyflow |]. intros detected.
  destruct (py_truthy (py_of_optional_str detected)); simpl;
    auto with pyflow.
Qed.

(** Past the existence check no [Exception] gets out. *)
Lemma sender_raise_inv arguments w e w' :
  sender upload arguments w = (Raise e, w') ->
  is_Exception e = false \/
  (stat_exists (dict_get arguments "file_path") w = Raise e /\
   w' = record (EvExists (dict_get arguments "file_path")) w).
Proof.
  unfold sender.
  destruct (py_truthy (dict_get arguments "file_path")); simpl;
    [| discriminate].
  intros H. apply bind_inv in H as [(found & w1 & H1 & H2) | (e1 & H1 & E)].
  - left. destruct found; simpl in H2; [| discriminate].
    destruct (py_truthy (dict_get arguments "chat_id")); simpl in H2;
      [exact (upload_safe _ _ _ _ _ _ H2) |].
    apply bind_inv in H2 as [(detected & w2 & _ & H3) | (e2 & H3 & [= <-])].
    + destruct (py_truthy (py_of_optional_str detected)); simpl in H3;
        [exact (upload_safe _ _ _ _ _ _ H3) | discriminate].
    + exact (resolver_contains _ _ _ H3).
  - right. injection E as <-. rewrite os_path_exists_run in H1.
    injection H1 as H1 <-. now split.
Qed.

(** The sender returns one text item, or lets through what the remote
    raised, or raises what the existence check raised. *)
Lemma sender_outcome arguments w :
  returns_one_text (sender upload arguments w) \/
  lets_through w (sender upload arguments w) \/
  exists e,
    stat_exists (dict_get arguments "file_path") w = Raise e /\
    sender upload arguments w =
      (Raise e, record (EvExists (dict_get arguments "file_path")) w).
Proof.
  unfold returns_one_text, lets_through.
  destruct (sender upload arguments w) as [[a | e] w'] eqn:R; simpl.
  - left. destruct (sender_yields_one_text _ _ _ _ R) as [t ->]. eauto.
  - right. destruct (sender_raise_inv _ _ _ _ R) as [He | [Hs ->]].
    + left. exists e. split_all; [reflexivity | exact He |].
      destruct (sender_raises_from_remote _ _ _ _ R) as [_ F].
      destruct (F e eq_refl) as [Hx | Hr]; [congruence | exact Hr].
    + right. eauto.
Qed.
End Sender.

Lemma stat_exists_checkable v w :
  path_checkable v = true -> exists b, stat_exists v w = Ok b.
Proof.
  destruct v as [| b | n | s | t b s]; simpl; try discriminate; intros H.
  - unfold fd_exists. now exists (bool_decide (is_Some (fds w !! Z.b2z b)));
      destruct b.
  - unfold fd_exists. rewrite H. eauto.
  - eauto.
Qed.

#[local] Hint Resolve upload_document_contains upload_photo_contains
  upload_document_raises_from_remote upload_photo_raises_from_remote
  upload_document_yields_one_text upload_photo_yields_one_text : pyflow.

(** Worlds for the cases where an awaited call raises: a remote that
    raises nothing but [Exception]s, and one that cancels. *)
Lemma refusing_remote_raises_Exceptions : raises_Exceptions refusing_remote.
Proof.
  intros e [(b & limit & H) | [(b & c & f & k & H) | (b & c & f & k & H)]];
    simpl in H; try discriminate; now injection H as <-.
Qed.

(** ** No [Exception] leaves the senders, for paths the check accepts *)

(** C1, as stated, fails, in two ways.  A [file_path] that is a non-empty
    list passes [if not file_path], and [os.path.exists], which is called
    before the [try] statement, raises TypeError on it; [send_document] and
    [send_photo] let that exception through.  And when the task is
    cancelled while the upload is awaited, the [CancelledError] that the
    [await] raises is no [Exception]: neither [except] clause catches it,
    and both senders raise it. *)
Lemma senders_raise_on_list_path :
  fst (send_document {[ "file_path" := POther "list" true "[1]" ]} demo_world) =
    Raise (Exn TypeError
      "stat: path should be string, bytes, os.PathLike or integer, not list") /\
  fst (send_photo {[ "file_path" := POther "list" true "[1]" ]} demo_world) =
    Raise (Exn TypeError
      "stat: path should be string, bytes, os.PathLike or integer, not list") /\
  fst (send_document
         {[ "file_path" := PStr "/tmp/report.pdf"; "chat_id" := PStr "42" ]}
         (demo_world_with cancelling_remote)) =
    Raise (Exn CancelledError "") /\
  fst (send_photo
         {[ "file_path" := PStr "/tmp/report.pdf"; "chat_id" := PStr "42" ]}
         (demo_world_with cancelling_remote)) =
    Raise (Exn CancelledError "") /\
  ~ (forall (arguments : gmap string pyval) w,
       returns_one_text (send_document arguments w) /\
       returns_one_text (send_photo arguments w)).
Proof.
  split; [vm_compute; reflexivity |].
  split; [vm_compute; reflexivity |].
  split; [vm_compute; reflexivity |].
  split; [vm_compute; reflexivity |].
  intros H.
  destruct (H {[ "file_path" := POther "list" true "[1]" ]} demo_world)
    as [[t Ht] _].
  vm_compute in Ht. discriminate.
Qed.

(** C1, amended: for every argument mapping whose [file_path] is absent,
    falsy, or a value the existence check accepts (a string, a boolean, an
    integer in the range of a file descriptor), and in every world, no
    [Exception] leaves [send_document] or [send_photo]: each returns a list
    of exactly one text item, or raises an exception that is not an
    [Exception] and that an awaited method of the remote raised (the
    [CancelledError] of a cancelled call).  So the missing path, the
    missing file, the unresolved chat, the Telegram error and any other
    [Exception] of the upload all end in a returned text; and with a remote
    whose calls raise nothing but [Exception]s both senders return. *)
Theorem senders_return_text (arguments : gmap string pyval) (w : World) :
  py_truthy (dict_get arguments "file_path") = false \/
  path_checkable (dict_get arguments "file_path") = true ->
  (returns_one_text (send_document arguments w) \/
   lets_through w (send_document arguments w)) /\
  (returns_one_text (send_photo arguments w) \/
   lets_through w (send_photo arguments w)) /\
  (raises_Exceptions (remote w) ->
   returns_one_text (send_document arguments w) /\
   returns_one_text (send_photo arguments w)).
Proof.
  intros Hpath.
  assert (Hgen : forall upload,
    (forall c f k, contains_Exceptions (upload c f k)) ->
    (forall c f k, raises_from_remote (upload c f k)) ->
    (forall c f k, yields_one_text (upload c f k)) ->
    returns_one_text (sender upload arguments w) \/
    lets_through w (sender upload arguments w)).
  { intros upload Hs Hf Hy.
    destruct (sender_outcome upload Hs Hf Hy arguments w)
      as [Hok | [Hlet | (e & He & Hr)]]; [now left | now right | exfalso].
    destruct Hpath as [Hf0 | Hc].
    - unfold sender in Hr. rewrite Hf0 in Hr. discriminate.
    - destruct (stat_exists_checkable _ w Hc) as [b Hb]. congruence. }
  assert (Hd : returns_one_text (send_document arguments w) \/
               lets_through w (send_document arguments w)).
  { rewrite send_document_sender. apply Hgen; auto with pyflow. }
  assert (Hp : returns_one_text (send_photo arguments w) \/
               lets_through w (send_photo arguments w)).
  { rewrite send_photo_sender. apply Hgen; auto with pyflow. }
  split_all; [exact Hd | exact Hp |]. intros Hpolite. split.
  - destruct Hd as [Hd | Hd]; [exact Hd |].
    destruct (lets_through_cancelled _ _ Hpolite Hd).
  - destruct Hp as [Hp | Hp]; [exact Hp |].
    destruct (lets_through_cancelled _ _ Hpolite Hp).
Qed.

Lemma senders_return_text_witness :
  returns_one_text
    (send_document {[ "file_path" := PStr "/tmp/report.pdf" ]}
       (demo_world_with refusing_remote)) /\
  returns_one_text
    (send_photo {[ "file_path" := PStr "/tmp/report.pdf" ]}
       (demo_world_with refusing_remote)).
Proof.
  pose proof (senders_return_text {[ "file_path" := PStr "/tmp/report.pdf" ]}
                (demo_world_with refusing_remote)) as H.
  specialize (H ltac:(right; vm_compute; reflexivity)).
  destruct H as (_ & _ & H).
  exact (H refusing_remote_raises_Exceptions).
Defined.

(** ** The router *)

Lemma call_tool_contains name arguments :
  contains_Exceptions (call_tool name arguments).
Proof.
  unfold call_tool, logger_error. apply try_except_contains.
  intros e. auto with pyflow.
Qed.

Lemma call_tool_raises_from_remote name arguments :
  raises_from_remote (call_tool name arguments).
Proof.
  unfold call_tool, logger_error.
  apply try_except_raises_from_remote; [| intros e; auto with pyflow].
  destruct (String.eqb name "send_telegram_document").
  - rewrite send_document_sender.
    apply sender_raises_from_remote; auto with pyflow.
  - destruct (String.eqb name "send_telegram_photo").
    + rewrite send_photo_sender.
      apply sender_raises_from_remote; auto with pyflow.
    + now apply raise_raises_from_remote.
Qed.

Lemma call_tool_yields_one_text name arguments :
  yields_one_text (call_tool name arguments).
Proof.
  unfold call_tool, logger_error. apply try_except_yields_one_text.
  - destruct (String.eqb name "send_telegram_document").
    + rewrite send_document_sender.
      apply sender_yields_one_text; auto with pyflow.
    + destruct (String.eqb name "send_telegram_photo"); [| auto with pyflow].
      rewrite send_photo_sender.
      apply sender_yields_one_text; auto with pyflow.
  - intros e. auto with pyflow.
Qed.

(** The router returns one text, or lets through what the remote raised
    and [except Exception] does not catch. *)
Lemma call_tool_outcome name arguments w :
  returns_one_text (call_tool name arguments w) \/
  lets_through w (call_tool name arguments w).
Proof.
  apply outcome_intro;
    [apply call_tool_contains | apply call_tool_raises_from_remote
    | apply call_tool_yields_one_text].
Qed.

(** C2, as stated, fails: when the task is cancelled while the upload is
    awaited, the [CancelledError] passes the [except] clauses of the sender
    and the [except Exception] of [call_tool], which raises it. *)
Lemma call_tool_raises_when_cancelled :
  fst (call_tool "send_telegram_document"
         {[ "file_path" := PStr "/tmp/report.pdf"; "chat_id" := PStr "42" ]}
         (demo_world_with cancelling_remote)) =
    Raise (Exn CancelledError "") /\
  fst (call_tool "send_telegram_photo"
         {[ "file_path" := PStr "/tmp/report.pdf" ]}
         (demo_world_with cancelling_remote)) =
    Raise (Exn CancelledError "") /\
  ~ (forall name (arguments : gmap string pyval) w,
       returns_one_text (call_tool name arguments w)).
Proof.
  split; [vm_compute; reflexivity |].
  split; [vm_compute; reflexivity |].
  intros H.
  destruct (H "send_telegram_document"
              {[ "file_path" := PStr "/tmp/report.pdf";
                 "chat_id" := PStr "42" ]}
              (demo_world_with cancelling_remote)) as [t Ht].
  vm_compute in Ht. discriminate.
Qed.

(** C2, amended: in every world, for every name and argument mapping, no
    [Exception] raised inside the dispatch leaves [call_tool]: it returns a
    list of exactly one text item, or raises an exception that is not an
    [Exception] and that an awaited method of the remote raised; with a
    remote whose calls raise nothing but [Exception]s it returns.  When the
    name is neither ["send_telegram_document"] nor ["send_telegram_photo"],
    it returns the text ["Error: Unknown tool: "] followed by the name. *)
Theorem call_tool_always_returns (name : string)
    (arguments : gmap string pyval) (w : World) :
  (returns_one_text (call_tool name arguments w) \/
   lets_through w (call_tool name arguments w)) /\
  (raises_Exceptions (remote w) ->
   returns_one_text (call_tool name arguments w)) /\
  (name <> "send_telegram_document" -> name <> "send_telegram_photo" ->
   fst (call_tool name arguments w) =
     Ok [text_content ("Error: Unknown tool: " +:+ name)] /\
   starts_with "Error: Unknown tool:" ("Error: Unknown tool: " +:+ name)
     = true /\
   occurs_in name ("Error: Unknown tool: " +:+ name) = true).
Proof.
  split_all.
  - apply call_tool_outcome.
  - intros Hpolite.
    destruct (call_tool_outcome name arguments w) as [Hok | Hlet];
      [exact Hok |].
    destruct (lets_through_cancelled _ _ Hpolite Hlet).
  - intros Hd Hp. split_all.
    + unfold call_tool.
      destruct (String.eqb_spec name "send_telegram_document") as [E | _];
        [contradiction |].
      destruct (String.eqb_spec name "send_telegram_photo") as [E | _];
        [contradiction |].
      reflexivity.
    + reflexivity.
    + apply occurs_in_end.
Qed.

Lemma call_tool_always_returns_witness :
  fst (call_tool "send_telegram_video" ∅ demo_world) =
    Ok [text_content "Error: Unknown tool: send_telegram_video"] /\
  returns_one_text
    (call_tool "send_telegram_document"
       {[ "file_path" := POther "list" true "[1]" ]}
       (demo_world_with refusing_remote)).
Proof.
  pose proof (call_tool_always_returns "send_telegram_video" ∅ demo_world)
    as (_ & _ & Hunknown).
  pose proof (call_tool_always_returns "send_telegram_document"
                {[ "file_path" := POther "list" true "[1]" ]}
                (demo_world_with refusing_remote)) as (_ & Hreturns & _).
  specialize (Hunknown ltac:(discriminate) ltac:(discriminate)).
  destruct Hunknown as (Hunknown & _).
  split; [exact Hunknown | exact (Hreturns refusing_remote_raises_Exceptions)].
Defined.

(** ** The resolver picks the latest sender *)

Lemma scan_updates_none (us : list Update) :
  Forall (fun u => message u = None) us -> scan_updates us = None.
Proof.
  induction 1 as [| u us Hu _ IH]; simpl; [reflexivity |].
  now rewrite Hu.
Qed.

Lemma scan_updates_first (skipped : list Update) u m rest :
  Forall (fun v => message v = None) skipped ->
  message u = Some m ->
  scan_updates (skipped ++ u :: rest) = Some (str_of_int (chat_id m)).
Proof.
  induction 1 as [| v skipped Hv _ IH]; simpl; intros Hu.
  - now rewrite Hu.
  - rewrite Hv. auto.
Qed.

(** C3: when the client is available and the fetch answers with [updates]
    (oldest first), the resolver has asked once, for at most 100 updates,
    and returns without raising: [None] when no update carries a message
    (in particular when there is none at all), and otherwise the chat of
    the most recent update that carries one, as a string. *)
Theorem resolver_returns_latest_sender (w w1 : World) (b : Bot)
    (updates : list Update) :
  get_bot w = (Ok b, w1) ->
  get_updates (remote w) b 100 = Ok updates ->
  exists r,
    get_chat_id_from_updates w = (Ok r, record (EvGetUpdates 100) w1) /\
    new_events w1 (record (EvGetUpdates 100) w1) = [EvGetUpdates 100] /\
    (Forall (fun u => message u = None) updates -> r = None) /\
    (forall older u m newer,
       updates = (older ++ u :: newer)%list ->
       message u = Some m ->
       Forall (fun v => message v = None) newer ->
       r = Some (str_of_int (chat_id m))).
Proof.
  intros Hb Hu. exists (scan_updates (rev updates)). split_all.
  - exact (resolver_run w b w1 updates Hb Hu).
  - now apply new_events_app.
  - intros Hnone. apply scan_updates_none. now apply Forall_rev.
  - intros older u m newer -> Hm Hnewer.
    rewrite rev_app_distr. simpl. rewrite <- app_assoc. simpl.
    apply scan_updates_first; [now apply Forall_rev | exact Hm].
Qed.

Lemma resolver_returns_latest_sender_witness :
  fst (get_chat_id_from_updates demo_world) = Ok (Some "42").
Proof.
  destruct (resolver_returns_latest_sender demo_world
              (set_bot {| token := "123:abc"; instance := 0 |} demo_world)
              {| token := "123:abc"; instance := 0 |}
              [ {| update_id := 1;
                   message := Some {| chat_id := 5; message_id := 1 |} |};
                {| update_id := 2;
                   message := Some {| chat_id := 42; message_id := 3 |} |};
                {| update_id := 3; message := None |} ]
              eq_refl eq_refl) as (r & Hrun & _ & _ & Hlatest).
  rewrite Hrun. simpl. f_equal.
  apply (Hlatest
           [ {| update_id := 1;
                message := Some {| chat_id := 5; message_id := 1 |} |} ]
           {| update_id := 2;
              message := Some {| chat_id := 42; message_id := 3 |} |}
           {| chat_id := 42; message_id := 3 |}
           [ {| update_id := 3; message := None |} ]);
    [reflexivity | reflexivity | repeat constructor].
Defined.

(** ** The resolver swallows every [Exception] of the fetch *)

(** C4, as stated, fails: when the task is cancelled while the fetch of
    the updates is awaited, the [CancelledError] is no [Exception], the
    [except Exception] of the resolver does not catch it, and the resolver
    raises it instead of returning [None]. *)
Lemma resolver_raises_when_cancelled :
  get_chat_id_from_updates (demo_world_with cancelling_remote) =
    (Raise (Exn CancelledError ""),
     record (EvGetUpdates 100)
       (set_bot {| token := "123:abc"; instance := 0 |}
          (demo_world_with cancelling_remote))) /\
  ~ (forall w b w1 e,
       get_bot w = (Ok b, w1) ->
       get_updates (remote w) b 100 = Raise e ->
       fst (get_chat_id_from_updates w) = Ok None).
Proof.
  split; [vm_compute; reflexivity |].
  intros H.
  specialize (H (demo_world_with cancelling_remote)
                {| token := "123:abc"; instance := 0 |}
                (set_bot {| token := "123:abc"; instance := 0 |}
                   (demo_world_with cancelling_remote))
                (Exn CancelledError "") eq_refl eq_refl).
  vm_compute in H. discriminate.
Qed.

(** C4, amended: no [Exception] leaves the resolver.  When obtaining the
    client raises (it raises nothing but its ValueError), or when the fetch
    of the updates raises an [Exception], whichever it is, the resolver
    returns [None].  When the fetch raises an exception that is not an
    [Exception], the resolver raises it; and that is the only way for the
    resolver to raise. *)
Theorem resolver_swallows_failures (w : World) :
  (forall e w1,
     get_bot w = (Raise e, w1) ->
     fst (get_chat_id_from_updates w) = Ok None) /\
  (forall b w1 e,
     get_bot w = (Ok b, w1) ->
     get_updates (remote w) b 100 = Raise e ->
     is_Exception e = true ->
     fst (get_chat_id_from_updates w) = Ok None) /\
  (forall b w1 e,
     get_bot w = (Ok b, w1) ->
     get_updates (remote w) b 100 = Raise e ->
     is_Exception e = false ->
     fst (get_chat_id_from_updates w) = Raise e) /\
  (forall e w',
     get_chat_id_from_updates w = (Raise e, w') ->
     is_Exception e = false /\
     exists b w1,
       get_bot w = (Ok b, w1) /\ get_updates (remote w) b 100 = Raise e) /\
  (raises_Exceptions (remote w) ->
   exists r w', get_chat_id_from_updates w = (Ok r, w')).
Proof.
  split_all.
  - intros e w1 Hb. now rewrite (resolver_no_client _ _ _ Hb).
  - intros b w1 e Hb Hu He.
    now rewrite (resolver_fetch_fails _ _ _ _ Hb Hu He).
  - intros b w1 e Hb Hu He.
    now rewrite (resolver_fetch_cancelled _ _ _ _ Hb Hu He).
  - intros e w' H.
    destruct (resolver_raise_inv _ _ _ H) as (He & b & w1 & Hb & Hu & _).
    eauto.
  - intros Hpolite.
    destruct (get_chat_id_from_updates w) as [[r | e] w'] eqn:E; [eauto |].
    destruct (resolver_raise_inv _ _ _ E) as (He & b & w1 & Hb & Hu & _).
    assert (Hx : is_Exception e = true).
    { apply Hpolite. left. eauto. }
    congruence.
Qed.

Lemma resolver_swallows_failures_witness :
  fst (get_chat_id_from_updates unconfigured_world) = Ok None /\
  fst (get_chat_id_from_updates (demo_world_with failing_remote)) = Ok None.
Proof.
  split.
  - destruct (resolver_swallows_failures unconfigured_world)
      as (Hclient & _).
    apply (Hclient token_required unconfigured_world). reflexivity.
  - destruct (resolver_swallows_failures (demo_world_with failing_remote))
      as (_ & Hfetch & _).
    apply (Hfetch {| token := "123:abc"; instance := 0 |}
             (set_bot {| token := "123:abc"; instance := 0 |}
                (demo_world_with failing_remote))
             (Exn TelegramError "Timed out")); reflexivity.
Defined.

(** ** The checks that precede the upload *)

Section SenderRuns.
Variable upload : pyval -> pyval -> pyval -> M (list TextContent).
Variables (arguments : gmap string pyval) (w : World).

Let chat := dict_get arguments "chat_id".
Let file_path := dict_get arguments "file_path".
Let caption := dict_get_default arguments "caption" (PStr "").

Lemma sender_no_path :
  py_truthy file_path = false ->
  sender upload arguments w =
    (Ok [text_content "Error: file_path is required"], w).
Proof. intros H. unfold sender. fold file_path. now rewrite H. Qed.

Lemma sender_not_found :
  py_truthy file_path = true ->
  stat_exists file_path w = Ok false ->
  sender upload arguments w =
    (Ok [text_content ("Error: File not found: " +:+ py_str file_path)],
     record (EvExists file_path) w).
Proof.
  intros Ht Hs. unfold sender. fold file_path. rewrite Ht. simpl.
  unfold bind at 1. now rewrite os_path_exists_run, Hs.
Qed.

Lemma sender_explicit :
  py_truthy file_path = true ->
  stat_exists file_path w = Ok true ->
  py_truthy chat = true ->
  sender upload arguments w =
    upload chat file_path caption (record (EvExists file_path) w).
Proof.
  intros Ht Hs Hc. unfold sender. fold file_path chat caption.
  rewrite Ht. simpl.
  unfold bind at 1. rewrite os_path_exists_run, Hs. simpl. now rewrite Hc.
Qed.

Lemma sender_autodetect :
  py_truthy file_path = true ->
  stat_exists file_path w = Ok true ->
  py_truthy chat = false ->
  sender upload arguments w =
    (detected <- get_chat_id_from_updates ;;
     if negb (py_truthy (py_of_optional_str detected))
     then ret [text_content no_chat_id_text]
     else upload (py_of_optional_str detected) file_path caption)
      (record (EvExists file_path) w).
Proof.
  intros Ht Hs Hc. unfold sender. fold file_path chat caption.
  rewrite Ht. simpl.
  unfold bind at 1. rewrite os_path_exists_run, Hs. simpl. now rewrite Hc.
Qed.

Lemma sender_unresolved :
  py_truthy file_path = true ->
  stat_exists file_path w = Ok true ->
  py_truthy chat = false ->
  fst (get_chat_id_from_updates w) = Ok None ->
  exists w',
    get_chat_id_from_updates (record (EvExists file_path) w)
      = (Ok None, w') /\
    sender upload arguments w = (Ok [text_content no_chat_id_text], w') /\
    forallb (fun ev => negb (is_upload ev)) (new_events w w') = true.
Proof.
  intros Ht Hs Hc Hr. rewrite sender_autodetect by assumption.
  destruct (unresolved_run w (EvExists file_path) Hr) as (w' & Hrun).
  exists w'. split; [exact Hrun |]. split.
  - erewrite bind_ok by exact Hrun. reflexivity.
  - destruct (resolver_only_emits (fun ev => negb (is_upload ev))
                (fun _ => eq_refl) eq_refl (fun _ => eq_refl) _ _ _ Hrun)
      as (_ & evs & Hevs & Hquiet).
    rewrite (new_events_app w w' (EvExists file_path :: evs)).
    + exact Hquiet.
    + rewrite Hevs. simpl. now rewrite <- app_assoc.
Qed.

Lemma sender_resolved s w1 :
  py_truthy file_path = true ->
  stat_exists file_path w = Ok true ->
  py_truthy chat = false ->
  get_chat_id_from_updates (record (EvExists file_path) w)
    = (Ok (Some s), w1) ->
  sender upload arguments w = upload (PStr s) file_path caption w1.
Proof.
  intros Ht Hs Hc Hrun. rewrite sender_autodetect by assumption.
  erewrite bind_ok by exact Hrun.
  cbn [py_of_optional_str].
  now rewrite (resolver_some_truthy _ _ _ Hrun).
Qed.
End SenderRuns.

(** C7: when [file_path] is missing or falsy (the empty string, [None]),
    both senders return the one text ["Error: file_path is required"] and
    leave the world as it was: no file check, no resolution and no upload
    took place, and nothing was raised. *)
Theorem file_path_is_required (arguments : gmap string pyval) (w : World) :
  py_truthy (dict_get arguments "file_path") = false ->
  send_document arguments w =
    (Ok [text_content "Error: file_path is required"], w) /\
  send_photo arguments w =
    (Ok [text_content "Error: file_path is required"], w) /\
  starts_with "Error: file_path is required" "Error: file_path is required"
    = true /\
  new_events w w = [].
Proof.
  intros H. split_all.
  - rewrite send_document_sender. now apply sender_no_path.
  - rewrite send_photo_sender. now apply sender_no_path.
  - reflexivity.
  - apply new_events_app. now rewrite app_nil_r.
Qed.

Lemma file_path_is_required_witness :
  send_document {[ "chat_id" := PStr "42"; "file_path" := PStr "" ]} demo_world =
    (Ok [text_content "Error: file_path is required"], demo_world) /\
  send_photo {[ "chat_id" := PStr "42" ]} demo_world =
    (Ok [text_content "Error: file_path is required"], demo_world).
Proof.
  pose proof (file_path_is_required
                {[ "chat_id" := PStr "42"; "file_path" := PStr "" ]}
                demo_world) as Hempty.
  pose proof (file_path_is_required {[ "chat_id" := PStr "42" ]} demo_world)
    as Hmissing.
  specialize (Hempty ltac:(vm_compute; reflexivity)).
  specialize (Hmissing ltac:(vm_compute; reflexivity)).
  destruct Hempty as (Hd & _). destruct Hmissing as (_ & Hp & _).
  exact (conj Hd Hp).
Defined.

(** C8: when [file_path] is a non-empty string that names nothing in the
    file system, both senders return the one text
    ["Error: File not found: "] followed by that path; the existence check
    is the only thing that happened: no resolution, no upload. *)
Theorem missing_file_is_reported (arguments : gmap string pyval) (w : World)
    (p : string) :
  dict_get arguments "file_path" = PStr p ->
  py_truthy (PStr p) = true ->
  fs w !! p = None ->
  send_document arguments w =
    (Ok [text_content ("Error: File not found: " +:+ p)],
     record (EvExists (PStr p)) w) /\
  send_photo arguments w =
    (Ok [text_content ("Error: File not found: " +:+ p)],
     record (EvExists (PStr p)) w) /\
  starts_with "Error: File not found:" ("Error: File not found: " +:+ p)
    = true /\
  occurs_in p ("Error: File not found: " +:+ p) = true /\
  new_events w (record (EvExists (PStr p)) w) = [EvExists (PStr p)].
Proof.
  intros Hp Ht Hfs.
  assert (Hs : stat_exists (dict_get arguments "file_path") w = Ok false).
  { rewrite Hp. simpl. rewrite Hfs. reflexivity. }
  rewrite <- Hp in Ht.
  split_all.
  - rewrite send_document_sender, (sender_not_found _ _ _ Ht Hs).
    now rewrite Hp.
  - rewrite send_photo_sender, (sender_not_found _ _ _ Ht Hs).
    now rewrite Hp.
  - reflexivity.
  - apply occurs_in_end.
  - now apply new_events_app.
Qed.

Lemma missing_file_is_reported_witness :
  fst (send_document {[ "file_path" := PStr "/tmp/none.zip" ]} demo_world) =
    Ok [text_content "Error: File not found: /tmp/none.zip"] /\
  fst (send_photo {[ "file_path" := PStr "/tmp/none.zip" ]} demo_world) =
    Ok [text_content "Error: File not found: /tmp/none.zip"].
Proof.
  pose proof (missing_file_is_reported
                {[ "file_path" := PStr "/tmp/none.zip" ]} demo_world
                "/tmp/none.zip") as H.
  specialize (H ltac:(vm_compute; reflexivity) ltac:(vm_compute; reflexivity)
                ltac:(vm_compute; reflexivity)).
  destruct H as (Hd & Hp & _).
  rewrite Hd, Hp. split; reflexivity.
Defined.

(** ** No chat, no upload *)

(** C6: when the file check passes, the chat is omitted (or falsy) and
    resolution yields [None], both senders return the one text that starts
    ["Error: chat_id not provided and could not auto-detect"], and no
    upload is among the events of the call. *)
Theorem unresolved_chat_is_reported (arguments : gmap string pyval)
    (w : World) :
  py_truthy (dict_get arguments "file_path") = true ->
  stat_exists (dict_get arguments "file_path") w = Ok true ->
  py_truthy (dict_get arguments "chat_id") = false ->
  fst (get_chat_id_from_updates w) = Ok None ->
  exists w',
    send_document arguments w = (Ok [text_content no_chat_id_text], w') /\
    send_photo arguments w = (Ok [text_content no_chat_id_text], w') /\
    starts_with "Error: chat_id not provided and could not auto-detect"
      no_chat_id_text = true /\
    forallb (fun ev => negb (is_upload ev)) (new_events w w') = true.
Proof.
  intros Ht Hs Hc Hr.
  destruct (sender_unresolved upload_document arguments w Ht Hs Hc Hr)
    as (wd & Hrd & Hd & Hq).
  destruct (sender_unresolved upload_photo arguments w Ht Hs Hc Hr)
    as (wp & Hrp & Hp & _).
  assert (wp = wd) as -> by congruence.
  exists wd. split_all; solve [assumption | reflexivity].
Qed.

Lemma unresolved_chat_is_reported_witness :
  exists w',
    send_document {[ "file_path" := PStr "/tmp/report.pdf" ]}
      (demo_world_with silent_remote)
      = (Ok [text_content no_chat_id_text], w') /\
    send_photo {[ "file_path" := PStr "/tmp/report.pdf" ]}
      (demo_world_with silent_remote)
      = (Ok [text_content no_chat_id_text], w') /\
    starts_with "Error: chat_id not provided and could not auto-detect"
      no_chat_id_text = true /\
    forallb (fun ev => negb (is_upload ev))
      (new_events (demo_world_with silent_remote) w') = true.
Proof.
  apply (unresolved_chat_is_reported
           {[ "file_path" := PStr "/tmp/report.pdf" ]}
           (demo_world_with silent_remote)); vm_compute; reflexivity.
Defined.

(** ** A falsy chat is no chat *)

Lemma dict_get_insert_chat (arguments : gmap string pyval) v key :
  key <> "chat_id" ->
  <["chat_id" := v]> arguments !! key = arguments !! key.
Proof. intros H. apply lookup_insert_ne. congruence. Qed.

Lemma dict_get_delete_chat (arguments : gmap string pyval) key :
  key <> "chat_id" ->
  delete "chat_id" arguments !! key = arguments !! key.
Proof. intros H. apply lookup_delete_ne. congruence. Qed.

Lemma sender_falsy_chat upload (arguments : gmap string pyval) v w :
  py_truthy v = false ->
  sender upload (<["chat_id" := v]> arguments) w =
  sender upload (delete "chat_id" arguments) w.
Proof.
  intros Hv. unfold sender, dict_get, dict_get_default.
  rewrite lookup_insert_eq, lookup_delete_eq.
  rewrite !dict_get_insert_chat, !dict_get_delete_chat by discriminate.
  simpl.
  destruct (py_truthy (default PNone (arguments !! "file_path")));
    [| reflexivity].
  simpl. unfold bind at 1 3.
  destruct (os_path_exists _ w) as [[[|] | e] w1]; simpl;
    rewrite ?Hv; reflexivity.
Qed.

(** C10: a chat that is present but falsy (the empty string, [None],
    [False], [0]) is treated exactly as an omitted one: both senders do,
    in every world, what they do when the key is absent; once the file
    check has passed that is the run of the resolver, followed by the
    unresolved-chat text when it returns [None]. *)
Theorem falsy_chat_is_omitted_chat (arguments : gmap string pyval)
    (v : pyval) (w : World) :
  py_truthy v = false ->
  send_document (<["chat_id" := v]> arguments) w =
    send_document (delete "chat_id" arguments) w /\
  send_photo (<["chat_id" := v]> arguments) w =
    send_photo (delete "chat_id" arguments) w /\
  (py_truthy (dict_get arguments "file_path") = true ->
   stat_exists (dict_get arguments "file_path") w = Ok true ->
   send_document (<["chat_id" := v]> arguments) w =
     (detected <- get_chat_id_from_updates ;;
      if negb (py_truthy (py_of_optional_str detected))
      then ret [text_content no_chat_id_text]
      else upload_document (py_of_optional_str detected)
             (dict_get arguments "file_path")
             (dict_get_default arguments "caption" (PStr "")))
       (record (EvExists (dict_get arguments "file_path")) w) /\
   send_photo (<["chat_id" := v]> arguments) w =
     (detected <- get_chat_id_from_updates ;;
      if negb (py_truthy (py_of_optional_str detected))
      then ret [text_content no_chat_id_text]
      else upload_photo (py_of_optional_str detected)
             (dict_get arguments "file_path")
             (dict_get_default arguments "caption" (PStr "")))
       (record (EvExists (dict_get arguments "file_path")) w) /\
   (fst (get_chat_id_from_updates w) = Ok None ->
    fst (send_document (<["chat_id" := v]> arguments) w) =
      Ok [text_content no_chat_id_text] /\
    fst (send_photo (<["chat_id" := v]> arguments) w) =
      Ok [text_content no_chat_id_text])).
Proof.
  intros Hv.
  split; [rewrite !send_document_sender; now apply sender_falsy_chat |].
  split; [rewrite !send_photo_sender; now apply sender_falsy_chat |].
  intros Ht Hs.
  set (args' := <["chat_id" := v]> arguments).
  assert (Hfp : dict_get args' "file_path" = dict_get arguments "file_path").
  { unfold dict_get, args'. now rewrite dict_get_insert_chat. }
  assert (Hcap : dict_get_default args' "caption" (PStr "")
                 = dict_get_default arguments "caption" (PStr "")).
  { unfold dict_get_default, args'. now rewrite dict_get_insert_chat. }
  assert (Hchat : py_truthy (dict_get args' "chat_id") = false).
  { unfold dict_get, args'. now rewrite lookup_insert_eq. }
  rewrite <- Hfp in Ht, Hs.
  split; [| split].
  - rewrite send_document_sender, sender_autodetect by assumption.
    now rewrite Hfp, Hcap.
  - rewrite send_photo_sender, sender_autodetect by assumption.
    now rewrite Hfp, Hcap.
  - intros Hr.
    destruct (sender_unresolved upload_document args' w Ht Hs Hchat Hr)
      as (wd & _ & Hd & _).
    destruct (sender_unresolved upload_photo args' w Ht Hs Hchat Hr)
      as (wp & _ & Hp & _).
    rewrite send_document_sender, send_photo_sender, Hd, Hp. now split.
Qed.

Lemma falsy_chat_is_omitted_chat_witness :
  send_document
    (<["chat_id" := PStr ""]> {[ "file_path" := PStr "/tmp/report.pdf" ]})
    demo_world =
  send_document
    (delete "chat_id" {[ "file_path" := PStr "/tmp/report.pdf" ]})
    demo_world /\
  fst (send_photo
         (<["chat_id" := PInt 0]> {[ "file_path" := PStr "/tmp/report.pdf" ]})
         (demo_world_with silent_remote)) =
    Ok [text_content no_chat_id_text].
Proof.
  pose proof (falsy_chat_is_omitted_chat
                {[ "file_path" := PStr "/tmp/report.pdf" ]} (PStr "")
                demo_world) as Hempty.
  pose proof (falsy_chat_is_omitted_chat
                {[ "file_path" := PStr "/tmp/report.pdf" ]} (PInt 0)
                (demo_world_with silent_remote)) as Hzero.
  specialize (Hempty ltac:(vm_compute; reflexivity)).
  specialize (Hzero ltac:(vm_compute; reflexivity)).
  destruct Hempty as (Hsame & _). destruct Hzero as (_ & _ & Hrun).
  specialize (Hrun ltac:(vm_compute; reflexivity)
                   ltac:(vm_compute; reflexivity)).
  destruct Hrun as (_ & _ & Hnone).
  specialize (Hnone ltac:(vm_compute; reflexivity)).
  destruct Hnone as (_ & Hphoto).
  exact (conj Hsame Hphoto).
Defined.

(** ** A successful document upload *)

Lemma occurs_in_skip (pre sub s : string) :
  occurs_in sub s = true -> occurs_in sub (pre +:+ s) = true.
Proof.
  intros H. induction pre as [| c pre IH]; [exact H |].
  change (String c pre +:+ s) with (String c (pre +:+ s)).
  cbn [occurs_in]. rewrite IH. apply orb_true_r.
Qed.

Lemma occurs_in_refl (s : string) : occurs_in s s = true.
Proof. exact (occurs_in_end "" s). Qed.

Ltac find_piece :=
  repeat first
    [ apply occurs_in_refl
    | apply occurs_in_here
    | apply occurs_in_skip ].

Lemma document_sent_mentions file_name file_size msg :
  let t := document_sent file_name file_size msg in
  occurs_in file_name t = true /\
  occurs_in (str_of_int file_size) t = true /\
  occurs_in (str_of_int (chat_id msg)) t = true /\
  occurs_in (str_of_int (message_id msg)) t = true.
Proof. cbv zeta. unfold document_sent. split_all; find_piece. Qed.

Lemma client_record ev w : client (record ev w) = client w.
Proof.
  unfold client, get_bot. simpl. destruct (bot w); [reflexivity |].
  destruct (environ w !! "TELEGRAM_BOT_TOKEN") as [t |]; [| reflexivity].
  now destruct (String.eqb t "").
Qed.

Lemma client_get_bot w b :
  client w = Some b -> exists w1, get_bot w = (Ok b, w1).
Proof.
  unfold client. destruct (get_bot w) as [[b0 | e] w1]; simpl;
    [| discriminate].
  intros [= ->]. eauto.
Qed.

(** Once the resolver has found somebody, the client it used is cached. *)
Lemma resolver_keeps_client w s w' b :
  get_chat_id_from_updates w = (Ok (Some s), w') ->
  client w = Some b -> bot w' = Some b.
Proof.
  unfold get_chat_id_from_updates. intros H Hc.
  apply try_except_inv in H
    as [(a & H & [= <-]) | [(e & w1 & _ & _ & H) | (e & _ & _ & He)]];
    [| | discriminate].
  - apply bind_inv in H as [(b0 & w2 & Hb & H) | (e & _ & He)];
      [| discriminate].
    assert (b0 = b) as ->.
    { unfold client in Hc. rewrite Hb in Hc. now injection Hc. }
    apply get_bot_caches in Hb.
    unfold await_get_updates, bind, emit, lift in H. simpl in H.
    destruct (get_updates (remote w2) b 100) as [[| u us] | e];
      try discriminate.
    injection H as _ <-. exact Hb.
  - unfold logger_error, bind, emit, ret in H. discriminate.
Qed.

(** The [try] statement of [send_document] when everything goes well. *)
Lemma upload_document_success chat p caption w b content msg :
  client w = Some b ->
  fs w !! p = Some (Regular content true) ->
  bot_send_document (remote w) b chat
    {| file_name := PStr p; file_data := content |} caption = Ok msg ->
  fst (upload_document chat (PStr p) caption w) =
    Ok [text_content
          (document_sent (basename p) (Z.of_nat (length content)) msg)].
Proof.
  intros Hc Hfs Hsend.
  destruct (client_get_bot _ _ Hc) as [w1 Hb].
  destruct (get_bot_only_emits (fun _ => true) (fun _ => eq_refl) _ _ _ Hb)
    as [(_ & F & _ & _ & R) _].
  unfold upload_document, try_except.
  erewrite bind_ok by exact Hb.
  unfold with_open, await_send_document, os_path_getsize, finally, bind,
    emit, lift, ret.
  simpl. rewrite F, Hfs. simpl. rewrite R, Hsend. simpl.
  rewrite F, Hfs. reflexivity.
Qed.

(** C5, as stated, fails: the line ["Chat ID: "] of the success text is
    read from the message the upload returned, not from the chat the
    document was sent to.  Sent to the channel ["@reports"], with a remote
    that answers with the numeric chat of that channel, the text holds no
    ["@reports"]. *)
Lemma success_text_shows_the_replied_chat :
  destination
    {[ "file_path" := PStr "/tmp/report.pdf"; "chat_id" := PStr "@reports" ]}
    (demo_world_with channel_remote) = Some (PStr "@reports") /\
  fs (demo_world_with channel_remote) !! "/tmp/report.pdf" =
    Some (Regular [Byte.x25; Byte.x50; Byte.x44] true) /\
  fst (send_document
         {[ "file_path" := PStr "/tmp/report.pdf";
            "chat_id" := PStr "@reports" ]}
         (demo_world_with channel_remote)) =
    Ok [text_content
          (document_sent "report.pdf" 3
             {| chat_id := -1001234; message_id := 7 |})] /\
  occurs_in "@reports"
    (document_sent "report.pdf" 3 {| chat_id := -1001234; message_id := 7 |})
    = false.
Proof.
  split; [vm_compute; reflexivity |].
  split; [vm_compute; reflexivity |].
  split; vm_compute; reflexivity.
Qed.

(** C5, amended: for a request whose [file_path] names a readable regular
    file, with a chat that is given or resolved, and whose document upload
    returns a message, [send_document] returns the one text
    [document_sent]: it contains the base name of the path, the number of
    bytes of the file, the message identifier of the returned message, and
    the chat identifier of the returned message; that last one is the chat
    used for the send whenever the remote answers with the chat it was
    asked to deliver to. *)
Theorem document_success_text (arguments : gmap string pyval) (w : World)
    (p : string) (content : list Byte.byte) (chat : pyval) (b : Bot)
    (msg : Message) :
  dict_get arguments "file_path" = PStr p ->
  py_truthy (PStr p) = true ->
  fs w !! p = Some (Regular content true) ->
  destination arguments w = Some chat ->
  client w = Some b ->
  bot_send_document (remote w) b chat
    {| file_name := PStr p; file_data := content |}
    (dict_get_default arguments "caption" (PStr "")) = Ok msg ->
  fst (send_document arguments w) =
    Ok [text_content
          (document_sent (basename p) (Z.of_nat (length content)) msg)] /\
  occurs_in (basename p)
    (document_sent (basename p) (Z.of_nat (length content)) msg) = true /\
  occurs_in (str_of_int (Z.of_nat (length content)))
    (document_sent (basename p) (Z.of_nat (length content)) msg) = true /\
  occurs_in (str_of_int (message_id msg))
    (document_sent (basename p) (Z.of_nat (length content)) msg) = true /\
  occurs_in (str_of_int (chat_id msg))
    (document_sent (basename p) (Z.of_nat (length content)) msg) = true /\
  (str_of_int (chat_id msg) = py_str chat ->
   occurs_in (py_str chat)
     (document_sent (basename p) (Z.of_nat (length content)) msg) = true).
Proof.
  intros Hp Ht Hfs Hdest Hc Hsend.
  destruct (document_sent_mentions (basename p) (Z.of_nat (length content)) msg)
    as (M1 & M2 & M3 & M4).
  split; [| split_all; try assumption; now intros <-].
  assert (Hs : stat_exists (dict_get arguments "file_path") w = Ok true).
  { rewrite Hp. simpl. rewrite Hfs. reflexivity. }
  rewrite <- Hp in Ht.
  unfold destination in Hdest. rewrite send_document_sender.
  destruct (py_truthy (dict_get arguments "chat_id")) eqn:Hchat.
  - injection Hdest as <-.
    rewrite (sender_explicit _ _ _ Ht Hs Hchat), Hp.
    apply upload_document_success with (b := b).
    + now rewrite client_record.
    + exact Hfs.
    + exact Hsend.
  - destruct (resolved_identity w) as [s |] eqn:Hres; [| discriminate].
    injection Hdest as <-.
    destruct (resolved_run w s
                (EvExists (dict_get arguments "file_path")) Hres)
      as (w1 & Hrun).
    rewrite (sender_resolved _ _ _ s w1 Ht Hs Hchat Hrun), Hp.
    destruct (resolver_only_emits (fun _ => true) (fun _ => eq_refl) eq_refl
                (fun _ => eq_refl) _ _ _ Hrun) as [(_ & F & _ & _ & R) _].
    simpl in F, R.
    apply upload_document_success with (b := b).
    + unfold client. rewrite (get_bot_cached w1 b); [reflexivity |].
      apply (resolver_keeps_client _ _ _ _ Hrun).
      now rewrite client_record.
    + now rewrite F.
    + now rewrite R.
Qed.

Lemma document_success_text_witness :
  fst (send_document {[ "file_path" := PStr "/tmp/report.pdf" ]} demo_world) =
    Ok [text_content (document_sent "report.pdf" 3 demo_message)] /\
  occurs_in "42" (document_sent "report.pdf" 3 demo_message) = true.
Proof.
  pose proof (document_success_text
                {[ "file_path" := PStr "/tmp/report.pdf" ]} demo_world
                "/tmp/report.pdf" [Byte.x25; Byte.x50; Byte.x44] (PStr "42")
                {| token := "123:abc"; instance := 0 |} demo_message) as H.
  specialize (H ltac:(vm_compute; reflexivity) ltac:(vm_compute; reflexivity)
                ltac:(vm_compute; reflexivity) ltac:(vm_compute; reflexivity)
                ltac:(vm_compute; reflexivity) ltac:(vm_compute; reflexivity)).
  destruct H as (Hrun & _ & _ & _ & _ & Hchat).
  specialize (Hchat ltac:(vm_compute; reflexivity)).
  split; [| exact Hchat].
  etransitivity; [exact Hrun |]. vm_compute. reflexivity.
Defined.

(** ** The client is built once *)

Lemma evolves_refl w : evolves w w.
Proof. split; auto. Qed.

Lemma evolves_trans w1 w2 w3 : evolves w1 w2 -> evolves w2 w3 -> evolves w1 w3.
Proof. intros [A1 A2] [B1 B2]. split; auto. Qed.

Lemma evolves_record ev w : evolves w (record ev w).
Proof. split; auto. Qed.

Lemma get_bot_keeps_client : keeps_client get_bot.
Proof.
  intros w r w' H. split.
  - intros Hi. exact (get_bot_invariant _ _ _ Hi H).
  - intros b Hb. rewrite (get_bot_cached _ _ Hb) in H. now injection H as _ <-.
Qed.

Lemma ret_keeps_client {A : Type} (a : A) : keeps_client (ret a).
Proof. intros w r w' [= _ <-]. apply evolves_refl. Qed.

Lemma raise_keeps_client {A : Type} e : keeps_client (@raise A e).
Proof. intros w r w' [= _ <-]. apply evolves_refl. Qed.

Lemma lift_keeps_client {A : Type} (f : World -> result A) :
  keeps_client (lift f).
Proof. intros w r w' [= _ <-]. apply evolves_refl. Qed.

Lemma emit_keeps_client ev : keeps_client (emit ev).
Proof. intros w r w' [= _ <-]. apply evolves_record. Qed.

Lemma bind_keeps_client {A B : Type} (m : M A) (k : A -> M B) :
  keeps_client m -> (forall a, keeps_client (k a)) ->
  keeps_client (x <- m ;; k x).
Proof.
  intros Hm Hk w r w' H.
  apply bind_inv in H as [(a & w1 & H1 & H2) | (e & H1 & _)].
  - eapply evolves_trans; [exact (Hm _ _ _ H1) | exact (Hk a _ _ _ H2)].
  - exact (Hm _ _ _ H1).
Qed.

Lemma try_except_keeps_client {A : Type} (m : M A) (h : exn -> M A) :
  keeps_client m -> (forall e, keeps_client (h e)) ->
  keeps_client (try_except m h).
Proof.
  intros Hm Hh w r w' H.
  apply try_except_inv in H
    as [(a & H1 & _) | [(e & w1 & H1 & _ & H2) | (e & H1 & _)]].
  - exact (Hm _ _ _ H1).
  - eapply evolves_trans; [exact (Hm _ _ _ H1) | exact (Hh e _ _ _ H2)].
  - exact (Hm _ _ _ H1).
Qed.

Lemma finally_keeps_client {A : Type} (m : M A) ev :
  keeps_client m -> keeps_client (finally m (record ev)).
Proof.
  intros Hm w r w' H. unfold finally in H.
  destruct (m w) as [r1 w1] eqn:E. injection H as _ <-.
  eapply evolves_trans; [exact (Hm _ _ _ E) | apply evolves_record].
Qed.

Ltac keeps_client_steps :=
  repeat first
    [ apply get_bot_keeps_client
    | apply ret_keeps_client
    | apply raise_keeps_client
    | apply lift_keeps_client
    | apply emit_keeps_client
    | apply finally_keeps_client
    | apply try_except_keeps_client
    | apply bind_keeps_client
    | match goal with
      | |- forall x, @keeps_client _ (@?m x) => intro
      end ].

Lemma resolver_keeps_the_client : keeps_client get_chat_id_from_updates.
Proof.
  unfold get_chat_id_from_updates, await_get_updates, logger_error.
  keeps_client_steps.
  match goal with |- keeps_client (match ?l with _ => _ end) => destruct l end;
    keeps_client_steps.
Qed.

Lemma upload_failed_keeps_client e : keeps_client (upload_failed e).
Proof.
  unfold upload_failed. destruct (is_TelegramError e); keeps_client_steps.
Qed.

Lemma upload_document_keeps_client chat path caption :
  keeps_client (upload_document chat path caption).
Proof.
  unfold upload_document, with_open, await_send_document, os_path_getsize.
  apply try_except_keeps_client; [| apply upload_failed_keeps_client].
  keeps_client_steps.
  match goal with |- keeps_client (os_path_basename ?v) => destruct v end;
    keeps_client_steps.
Qed.

Lemma upload_photo_keeps_client chat path caption :
  keeps_client (upload_photo chat path caption).
Proof.
  unfold upload_photo, with_open, await_send_photo.
  apply try_except_keeps_client; [| apply upload_failed_keeps_client].
  keeps_client_steps.
  match goal with |- keeps_client (os_path_basename ?v) => destruct v end;
    keeps_client_steps.
Qed.

Lemma sender_keeps_client upload arguments :
  (forall c f k, keeps_client (upload c f k)) ->
  keeps_client (sender upload arguments).
Proof.
  intros Hu. unfold sender, os_path_exists.
  destruct (py_truthy (dict_get arguments "file_path")); simpl;
    [| keeps_client_steps].
  apply bind_keeps_client; [keeps_client_steps |]. intros [|]; simpl;
    [| keeps_client_steps].
  destruct (py_truthy (dict_get arguments "chat_id")); simpl; [apply Hu |].
  apply bind_keeps_client; [apply resolver_keeps_the_client |].
  intros detected.
  destruct (py_truthy (py_of_optional_str detected)); simpl;
    [apply Hu | keeps_client_steps].
Qed.

Lemma call_tool_keeps_client name arguments :
  keeps_client (call_tool name arguments).
Proof.
  unfold call_tool, logger_error. apply try_except_keeps_client.
  - destruct (String.eqb name "send_telegram_document").
    + rewrite send_document_sender. apply sender_keeps_client.
      apply upload_document_keeps_client.
    + destruct (String.eqb name "send_telegram_photo").
      * rewrite send_photo_sender. apply sender_keeps_client.
        apply upload_photo_keeps_client.
      * keeps_client_steps.
  - keeps_client_steps.
Qed.

Lemma serve_evolves calls w : evolves w (serve calls w).
Proof.
  revert w. induction calls as [| [name arguments] calls IH]; intros w; simpl.
  - apply evolves_refl.
  - eapply evolves_trans; [| apply IH].
    destruct (call_tool name arguments w) as [r w1] eqn:E.
    exact (call_tool_keeps_client _ _ _ _ _ E).
Qed.

Lemma bot_invariant_at_most_one w : bot_invariant w -> (constructed w <= 1)%nat.
Proof. unfold bot_invariant. destruct (bot w); lia. Qed.

(** Repeated calls: every handle handed out is the same object. *)
Lemma get_bot_times_cached n w b :
  bot w = Some b ->
  get_bot_times n w = (repeat (Ok b) n, w).
Proof.
  intros Hb. induction n as [| n IH]; simpl; [reflexivity |].
  now rewrite (get_bot_cached _ _ Hb), IH.
Qed.

Lemma get_bot_times_same n w b1 b2 :
  In (Ok b1) (fst (get_bot_times n w)) ->
  In (Ok b2) (fst (get_bot_times n w)) -> b1 = b2.
Proof.
  destruct n as [| n]; simpl; [contradiction |].
  destruct (get_bot w) as [[b | e] w1] eqn:E.
  - apply get_bot_caches in E.
    rewrite (get_bot_times_cached n w1 b E). simpl.
    intros [H1 | H1] [H2 | H2];
      try apply repeat_spec in H1; try apply repeat_spec in H2; congruence.
  - assert (w1 = w) as ->.
    { unfold get_bot in E. destruct (bot w); [discriminate |].
      destruct (environ w !! "TELEGRAM_BOT_TOKEN") as [t |];
        [destruct (String.eqb t "") |]; try discriminate;
        now injection E as _ <-. }
    revert E. induction n as [| n IH]; intros E.
    + simpl. intros [H | []]. discriminate.
    + simpl. rewrite E.
      destruct (get_bot_times n w) as [rs w2] eqn:R. simpl in *.
      intros [H1 | H1] [H2 | H2]; try discriminate.
      apply IH; auto.
Qed.

(** C9: [get_bot] memoizes.  With a credential in the environment and
    nothing cached, the first call builds a client from it, caches it and
    returns it, and the next call returns that same object without building
    anything; with a client cached, a call returns it and changes nothing;
    with neither credential nor cached client, the call raises the
    ValueError that asks for the token.  Over any number of calls of
    [get_bot], and over any sequence of tool calls, at most one client is
    ever built, and all the handles handed out are one and the same. *)
Theorem get_bot_builds_once (w : World) :
  (forall t,
     bot w = None -> environ w !! "TELEGRAM_BOT_TOKEN" = Some t -> t <> "" ->
     exists b w1,
       get_bot w = (Ok b, w1) /\ token b = t /\ bot w1 = Some b /\
       constructed w1 = S (constructed w) /\
       get_bot w1 = (Ok b, w1)) /\
  (forall b, bot w = Some b -> get_bot w = (Ok b, w)) /\
  (bot w = None ->
   environ w !! "TELEGRAM_BOT_TOKEN" = None \/
   environ w !! "TELEGRAM_BOT_TOKEN" = Some "" ->
   get_bot w = (Raise token_required, w)) /\
  (bot_invariant w ->
   forall n,
     (constructed (snd (get_bot_times n w)) <= 1)%nat /\
     forall b1 b2,
       In (Ok b1) (fst (get_bot_times n w)) ->
       In (Ok b2) (fst (get_bot_times n w)) -> b1 = b2) /\
  (bot_invariant w ->
   forall calls,
     (constructed (serve calls w) <= 1)%nat /\
     forall b, bot w = Some b -> bot (serve calls w) = Some b).
Proof.
  split; [| split; [| split; [| split]]].
  - intros t Hb Ht Hne.
    eexists. eexists. split; [exact (get_bot_first _ _ Hb Ht Hne) |].
    split_all; solve [reflexivity | now apply get_bot_cached].
  - apply get_bot_cached.
  - apply get_bot_unconfigured.
  - intros Hi n. split; [| apply get_bot_times_same].
    apply bot_invariant_at_most_one.
    revert w Hi. induction n as [| n IH]; intros w Hi; simpl; [exact Hi |].
    destruct (get_bot w) as [r w1] eqn:E.
    pose proof (get_bot_invariant _ _ _ Hi E) as Hi1.
    specialize (IH w1 Hi1).
    now destruct (get_bot_times n w1) as [rs w2].
  - intros Hi calls. destruct (serve_evolves calls w) as [Hinv Hsame].
    split; [apply bot_invariant_at_most_one; auto | exact Hsame].
Qed.

Lemma get_bot_builds_once_witness :
  (exists b w1,
     get_bot demo_world = (Ok b, w1) /\ token b = "123:abc" /\
     bot w1 = Some b /\ constructed w1 = 1%nat /\
     get_bot w1 = (Ok b, w1)) /\
  get_bot unconfigured_world = (Raise token_required, unconfigured_world) /\
  (constructed
     (serve [ ("send_telegram_document",
               {[ "file_path" := PStr "/tmp/report.pdf" ]});
              ("send_telegram_photo",
               {[ "file_path" := PStr "/tmp/report.pdf" ]}) ]
        demo_world) <= 1)%nat.
Proof.
  destruct (get_bot_builds_once demo_world)
    as (Hfirst & _ & _ & _ & Hlife).
  destruct (get_bot_builds_once unconfigured_world) as (_ & _ & Hnone & _).
  specialize (Hfirst "123:abc" ltac:(vm_compute; reflexivity)
                ltac:(vm_compute; reflexivity) ltac:(discriminate)).
  specialize (Hnone ltac:(vm_compute; reflexivity)
                ltac:(left; vm_compute; reflexivity)).
  specialize (Hlife ltac:(vm_compute; reflexivity)).
  split; [| split].
  - destruct Hfirst as (b & w1 & H1 & H2 & H3 & H4 & H5).
    exists b, w1. split_all; assumption.
  - exact Hnone.
  - apply Hlife.
Defined.

(** * Further properties of the module *)

(** ** The run of a [try] statement, case by case *)

Lemma upload_document_with chat path caption :
  upload_document chat path caption =
  upload_with EvSendDocument bot_send_document finish_document
    chat path caption.
Proof. reflexivity. Qed.

Lemma upload_photo_with chat path caption :
  upload_photo chat path caption =
  upload_with EvSendPhoto bot_send_photo finish_photo chat path caption.
Proof. reflexivity. Qed.

Lemma open_rb_frame path w w' : frame w w' -> open_rb path w' = open_rb path w.
Proof.
  intros (_ & F1 & F2 & F3 & _).
  destruct path; simpl; unfold fd_read; rewrite ?F1, ?F2, ?F3; reflexivity.
Qed.

Lemma stat_size_frame path w w' :
  frame w w' -> stat_size path w' = stat_size path w.
Proof.
  intros (_ & F1 & F2 & F3 & _).
  destruct path; simpl; unfold fd_read; rewrite ?F1, ?F2, ?F3; reflexivity.
Qed.

Lemma get_bot_frame w r w1 : get_bot w = (r, w1) -> frame w w1.
Proof.
  intros H.
  now destruct (get_bot_only_emits (fun _ => true) (fun _ => eq_refl) _ _ _ H).
Qed.

(** What [get_bot] does to the trace: nothing, or one construction. *)
Lemma get_bot_trace w r w1 :
  get_bot w = (r, w1) ->
  trace w1 = trace w \/
  exists b, r = Ok b /\ bot w = None /\
    trace w1 = (trace w ++ [EvNewBot (token b)])%list.
Proof.
  unfold get_bot. destruct (bot w) as [b0 |].
  - intros [= <- <-]. now left.
  - destruct (environ w !! "TELEGRAM_BOT_TOKEN") as [t |];
      [destruct (String.eqb t "") |]; intros [= <- <-]; auto.
    right. eexists. split_all; reflexivity.
Qed.

Section UploadWith.
Variable ev : pyval -> FileObj -> pyval -> event.
Variable call : Remote -> Bot -> pyval -> FileObj -> pyval -> result Message.
Variable finish : pyval -> Message -> M (list TextContent).
Variables chat path caption : pyval.

(** The whole [try] statement as one case analysis on what the client, the
    file and the remote answer.  What [get_bot] and [open] raise is an
    [Exception], and caught; what the awaited call raises may not be. *)
Lemma upload_with_run w :
  upload_with ev call finish chat path caption w =
    match get_bot w with
    | (Raise e, w1) => upload_failed e w1
    | (Ok b, w1) =>
        match open_rb path w with
        | Raise e => upload_failed e (record (EvOpen path) w1)
        | Ok file =>
            let w3 :=
              record (EvClose path)
                (record (ev chat file caption) (record (EvOpen path) w1)) in
            match call (remote w) b chat file caption with
            | Raise e => caught upload_failed e w3
            | Ok message => try_except (finish path message) upload_failed w3
            end
        end
    end.
Proof.
  unfold upload_with. unfold try_except at 1. unfold bind at 1.
  destruct (get_bot w) as [[b | e] w1] eqn:Hb.
  2:{ apply get_bot_raises in Hb as [-> _]. reflexivity. }
  pose proof (get_bot_frame _ _ _ Hb) as F.
  unfold bind at 1. unfold with_open. unfold bind at 1. simpl.
  unfold bind at 1. unfold lift at 1.
  rewrite (open_rb_frame path w (record (EvOpen path) w1))
    by (eapply frame_trans; [exact F | apply frame_record]).
  destruct (open_rb path w) as [file | e] eqn:Ho.
  2:{ now rewrite (caught_Exception _ _ (open_rb_raises _ _ _ Ho)). }
  unfold finally, await_send, bind at 1, emit, lift. simpl.
  destruct F as (_ & _ & _ & _ & R). rewrite R.
  destruct (call (remote w) b chat file caption) as [message | e];
    reflexivity.
Qed.
End UploadWith.

Lemma upload_failed_run e w :
  upload_failed e w = (Ok [text_content (failure_text e)], w).
Proof.
  unfold upload_failed, failure_text. now destruct (is_TelegramError e).
Qed.

Lemma finish_photo_run p message w :
  finish_photo (PStr p) message w =
    (Ok [text_content (photo_sent (basename p) message)], w).
Proof. reflexivity. Qed.

Lemma finish_document_run p content readable message w :
  fs w !! p = Some (Regular content readable) ->
  finish_document (PStr p) message w =
    (Ok [text_content
           (document_sent (basename p) (Z.of_nat (length content)) message)],
     w).
Proof.
  intros H. unfold finish_document, os_path_getsize, bind, lift. simpl.
  now rewrite H.
Qed.

Lemma client_none w :
  client w = None -> get_bot w = (Raise token_required, w).
Proof.
  unfold client, get_bot. destruct (bot w); [discriminate |].
  destruct (environ w !! "TELEGRAM_BOT_TOKEN") as [t |]; [| reflexivity].
  destruct (String.eqb t ""); [reflexivity | discriminate].
Qed.

Lemma client_of_get_bot w b w1 : get_bot w = (Ok b, w1) -> client w = Some b.
Proof. intros H. unfold client. now rewrite H. Qed.

(** When the resolver finds somebody it has a client, and leaves it
    cached. *)
Lemma resolver_some_client w s w' :
  get_chat_id_from_updates w = (Ok (Some s), w') ->
  exists b, client w = Some b /\ bot w' = Some b.
Proof.
  intros H. pose proof H as H0. unfold get_chat_id_from_updates in H.
  apply try_except_inv in H
    as [(a & H & [= <-]) | [(e & w1 & _ & _ & H) | (e & _ & _ & He)]];
    [| | discriminate].
  - apply bind_inv in H as [(b & w2 & Hb & _) | (e & _ & He)];
      [| discriminate].
    exists b. pose proof (client_of_get_bot _ _ _ Hb) as Hc.
    split; [exact Hc | exact (resolver_keeps_client _ _ _ _ H0 Hc)].
  - unfold logger_error, bind, emit, ret in H. discriminate.
Qed.

Lemma resolver_event_trace w r w' :
  get_chat_id_from_updates w = (r, w') ->
  frame w w' /\
  exists evs : list event,
    trace w' = (trace w ++ evs)%list /\ forallb resolver_event evs = true.
Proof.
  apply (resolver_only_emits resolver_event); reflexivity.
Qed.

(** From the checks to the [try] statement: when the file check passes and
    a chat is given or found, the sender runs its upload with that chat, in
    a world where nothing but resolution has happened since the check. *)
Lemma sender_reaches_upload upload (arguments : gmap string pyval) w chat :
  py_truthy (dict_get arguments "file_path") = true ->
  stat_exists (dict_get arguments "file_path") w = Ok true ->
  destination arguments w = Some chat ->
  exists w1,
    sender upload arguments w =
      upload chat (dict_get arguments "file_path")
        (dict_get_default arguments "caption" (PStr "")) w1 /\
    frame w w1 /\ client w1 = client w /\
    exists evs : list event,
      trace w1 =
        (trace w ++ EvExists (dict_get arguments "file_path") :: evs)%list /\
      forallb resolver_event evs = true /\
      (py_truthy (dict_get arguments "chat_id") = true -> evs = []).
Proof.
  intros Ht Hs Hdest. unfold destination in Hdest.
  destruct (py_truthy (dict_get arguments "chat_id")) eqn:Hchat.
  - injection Hdest as <-.
    exists (record (EvExists (dict_get arguments "file_path")) w).
    split_all.
    + now apply sender_explicit.
    + apply frame_record.
    + apply client_record.
    + exists []. split_all; reflexivity.
  - destruct (resolved_identity w) as [s |] eqn:Hres; [| discriminate].
    injection Hdest as <-.
    destruct (resolved_run w s
                (EvExists (dict_get arguments "file_path")) Hres)
      as (w1 & Hrun).
    exists w1.
    destruct (resolver_event_trace _ _ _ Hrun) as (F & evs & Hevs & Hq).
    destruct (resolver_some_client _ _ _ Hrun) as (b & Hc & Hb).
    split_all.
    + now apply sender_resolved.
    + eapply frame_trans; [apply frame_record | exact F].
    + rewrite client_record in Hc. rewrite Hc.
      unfold client. now rewrite (get_bot_cached _ _ Hb).
    + exists evs. split_all.
      * rewrite Hevs. simpl. now rewrite <- app_assoc.
      * exact Hq.
      * discriminate.
Qed.

Lemma forallb_quiet_resolver (evs : list event) :
  forallb resolver_event evs = true ->
  forallb (fun ev => negb (is_upload ev)) evs = true.
Proof.
  induction evs as [| ev evs IH]; simpl; [reflexivity |].
  intros H. apply andb_prop in H as [H1 H2]. rewrite (IH H2).
  now destruct ev.
Qed.

Section SenderUpload.
Variable ev : pyval -> FileObj -> pyval -> event.
Variable call : Remote -> Bot -> pyval -> FileObj -> pyval -> result Message.
Variable finish : pyval -> Message -> M (list TextContent).
Variables (arguments : gmap string pyval) (w : World) (chat : pyval) (b : Bot).

Let file_path := dict_get arguments "file_path".
Let caption := dict_get_default arguments "caption" (PStr "").

Hypothesis path_given : py_truthy file_path = true.
Hypothesis path_exists : stat_exists file_path w = Ok true.
Hypothesis chat_known : destination arguments w = Some chat.
Hypothesis client_known : client w = Some b.

(** The world in which the [try] statement starts, and the one after
    [get_bot()]. *)
Lemma sender_upload_stage :
  exists w1 w2 (evs : list event),
    sender (upload_with ev call finish) arguments w =
      upload_with ev call finish chat file_path caption w1 /\
    get_bot w1 = (Ok b, w2) /\ frame w w2 /\
    trace w2 = (trace w ++ EvExists file_path :: evs)%list /\
    forallb (fun e => negb (is_upload e)) evs = true /\
    open_rb file_path w1 = open_rb file_path w /\
    remote w1 = remote w.
Proof.
  destruct (sender_reaches_upload (upload_with ev call finish) arguments w chat
              path_given path_exists chat_known)
    as (w1 & Hrun & F & Hc & evs & Hevs & Hq & _).
  rewrite client_known in Hc.
  destruct (client_get_bot _ _ Hc) as [w2 Hb].
  pose proof (get_bot_frame _ _ _ Hb) as F2.
  apply forallb_quiet_resolver in Hq.
  destruct (get_bot_trace _ _ _ Hb) as [T | (b' & _ & _ & T)].
  - exists w1, w2, evs. split_all; try assumption.
    + eapply frame_trans; eassumption.
    + now rewrite T.
    + now apply open_rb_frame.
    + now destruct F as (_ & _ & _ & _ & R).
  - exists w1, w2, (evs ++ [EvNewBot (token b')])%list. split_all; try assumption.
    + eapply frame_trans; eassumption.
    + rewrite T, Hevs. now rewrite <- app_assoc.
    + rewrite forallb_app, Hq. reflexivity.
    + now apply open_rb_frame.
    + now destruct F as (_ & _ & _ & _ & R).
Qed.

(** The file cannot be opened: the error text, and no upload. *)
Lemma sender_open_fails e :
  open_rb file_path w = Raise e ->
  exists w',
    sender (upload_with ev call finish) arguments w =
      (Ok [text_content (failure_text e)], w') /\
    forallb (fun e => negb (is_upload e)) (new_events w w') = true.
Proof.
  intros Ho.
  destruct sender_upload_stage as (w1 & w2 & evs & Hrun & Hb & F & T & Q & O & R).
  exists (record (EvOpen file_path) w2). split.
  - rewrite Hrun, upload_with_run, Hb, O, Ho. apply upload_failed_run.
  - rewrite (new_events_app w _ (EvExists file_path :: evs ++ [EvOpen file_path])).
    + simpl. rewrite forallb_app, Q. reflexivity.
    + simpl. rewrite T. now rewrite <- app_assoc.
Qed.

(** The remote call raises an [Exception]: the error text. *)
Lemma sender_call_fails file e :
  open_rb file_path w = Ok file ->
  call (remote w) b chat file caption = Raise e ->
  is_Exception e = true ->
  fst (sender (upload_with ev call finish) arguments w) =
    Ok [text_content (failure_text e)].
Proof.
  intros Ho Hcall He.
  destruct sender_upload_stage as (w1 & w2 & evs & Hrun & Hb & F & T & Q & O & R).
  rewrite Hrun, upload_with_run, Hb, O, Ho. cbv zeta. rewrite R, Hcall.
  now rewrite (caught_Exception _ _ He), upload_failed_run.
Qed.

(** The remote call raises something else: the sender raises it, once the
    file is closed. *)
Lemma sender_call_cancelled file e :
  open_rb file_path w = Ok file ->
  call (remote w) b chat file caption = Raise e ->
  is_Exception e = false ->
  exists w' (pre : list event),
    sender (upload_with ev call finish) arguments w = (Raise e, w') /\
    new_events w w' =
      (pre ++ [EvOpen file_path; ev chat file caption; EvClose file_path])%list.
Proof.
  intros Ho Hcall He.
  destruct sender_upload_stage as (w1 & w2 & evs & Hrun & Hb & F & T & Q & O & R).
  eexists. exists (EvExists file_path :: evs)%list. split.
  - rewrite Hrun, upload_with_run, Hb, O, Ho. cbv zeta. rewrite R, Hcall.
    rewrite (caught_other _ _ He). reflexivity.
  - apply new_events_app. simpl. rewrite T.
    now rewrite <- !app_assoc.
Qed.

(** The remote call returns: the text [finish] makes of the message. *)
Lemma sender_call_returns file message t :
  open_rb file_path w = Ok file ->
  call (remote w) b chat file caption = Ok message ->
  (forall w', frame w w' ->
     finish file_path message w' = (Ok [text_content t], w')) ->
  fst (sender (upload_with ev call finish) arguments w) = Ok [text_content t].
Proof.
  intros Ho Hcall Hfin.
  destruct sender_upload_stage as (w1 & w2 & evs & Hrun & Hb & F & T & Q & O & R).
  rewrite Hrun, upload_with_run, Hb, O, Ho. cbv zeta. rewrite R, Hcall.
  erewrite try_except_ok; [reflexivity |].
  apply Hfin.
  eapply frame_trans; [exact F |].
  eapply frame_trans; [apply frame_record |].
  eapply frame_trans; apply frame_record.
Qed.
End SenderUpload.

(** ** What the caller reads after the upload was attempted *)

Lemma photo_sent_mentions file_name msg :
  occurs_in file_name (photo_sent file_name msg) = true /\
  occurs_in (str_of_int (chat_id msg)) (photo_sent file_name msg) = true /\
  occurs_in (str_of_int (message_id msg)) (photo_sent file_name msg) = true.
Proof. unfold photo_sent. split_all; find_piece. Qed.

Lemma open_rb_regular p content w :
  fs w !! p = Some (Regular content true) ->
  open_rb (PStr p) w = Ok {| file_name := PStr p; file_data := content |}.
Proof. intros H. simpl. now rewrite H. Qed.

Lemma stat_exists_present p node w :
  fs w !! p = Some node -> stat_exists (PStr p) w = Ok true.
Proof. intros H. simpl. now rewrite H. Qed.

(** X1: for a request whose [file_path] names a readable regular file, with
    a chat given or resolved and a client available, when [send_photo]'s
    upload returns a message the result is the one text [photo_sent]: the
    base name of the path, the chat and the message identifier of the
    returned message, and no size line. *)
Theorem photo_success_text (arguments : gmap string pyval) (w : World)
    (p : string) (content : list Byte.byte) (chat : pyval) (b : Bot)
    (msg : Message) :
  dict_get arguments "file_path" = PStr p ->
  py_truthy (PStr p) = true ->
  fs w !! p = Some (Regular content true) ->
  destination arguments w = Some chat ->
  client w = Some b ->
  bot_send_photo (remote w) b chat
    {| file_name := PStr p; file_data := content |}
    (dict_get_default arguments "caption" (PStr "")) = Ok msg ->
  fst (send_photo arguments w) =
    Ok [text_content (photo_sent (basename p) msg)] /\
  photo_sent (basename p) msg =
    "Photo sent successfully!" +:+ nl +:+
    "File: " +:+ basename p +:+ nl +:+
    "Chat ID: " +:+ str_of_int (chat_id msg) +:+ nl +:+
    "Message ID: " +:+ str_of_int (message_id msg) /\
  occurs_in (basename p) (photo_sent (basename p) msg) = true /\
  occurs_in (str_of_int (chat_id msg)) (photo_sent (basename p) msg) = true /\
  occurs_in (str_of_int (message_id msg)) (photo_sent (basename p) msg)
    = true.
Proof.
  intros Hp Ht Hfs Hdest Hc Hsend.
  destruct (photo_sent_mentions (basename p) msg) as (M1 & M2 & M3).
  split_all; try assumption; try reflexivity.
  assert (Hs : stat_exists (dict_get arguments "file_path") w = Ok true).
  { rewrite Hp. now apply stat_exists_present with (node := Regular content true). }
  assert (Ho : open_rb (dict_get arguments "file_path") w =
               Ok {| file_name := PStr p; file_data := content |}).
  { rewrite Hp. now apply open_rb_regular. }
  assert (Hfin : forall w', frame w w' ->
            finish_photo (dict_get arguments "file_path") msg w' =
              (Ok [text_content (photo_sent (basename p) msg)], w')).
  { intros w' _. rewrite Hp. apply finish_photo_run. }
  rewrite <- Hp in Ht.
  rewrite send_photo_sender.
  change (sender upload_photo arguments w)
    with (sender (upload_with EvSendPhoto bot_send_photo finish_photo)
            arguments w).
  exact (sender_call_returns _ _ _ _ _ _ _ Ht Hs Hdest Hc _ _ _ Ho Hsend Hfin).
Qed.

Lemma photo_success_text_witness :
  fst (send_photo
         {[ "file_path" := PStr "/tmp/report.pdf"; "chat_id" := PStr "42" ]}
         demo_world) =
    Ok [text_content (photo_sent "report.pdf" demo_message)].
Proof.
  pose proof (photo_success_text
                {[ "file_path" := PStr "/tmp/report.pdf";
                   "chat_id" := PStr "42" ]} demo_world
                "/tmp/report.pdf" [Byte.x25; Byte.x50; Byte.x44] (PStr "42")
                {| token := "123:abc"; instance := 0 |} demo_message) as H.
  specialize (H ltac:(vm_compute; reflexivity) ltac:(vm_compute; reflexivity)
                ltac:(vm_compute; reflexivity) ltac:(vm_compute; reflexivity)
                ltac:(vm_compute; reflexivity) ltac:(vm_compute; reflexivity)).
  destruct H as (Hrun & _).
  etransitivity; [exact Hrun |]. vm_compute. reflexivity.
Defined.

(** X2: when the file was opened and the awaited upload raises an
    [Exception], the sender returns one text: ["Telegram error: "] followed
    by the message of the exception when it is a TelegramError, ["Error: "]
    followed by it for any other [Exception].  When the upload raises an
    exception that is not an [Exception] (the [CancelledError] of a
    cancelled call), the sender raises it in turn, and the file has been
    closed by then. *)
Theorem upload_error_is_reported (arguments : gmap string pyval) (w : World)
    (p : string) (content : list Byte.byte) (chat : pyval) (b : Bot) (e : exn) :
  dict_get arguments "file_path" = PStr p ->
  py_truthy (PStr p) = true ->
  fs w !! p = Some (Regular content true) ->
  destination arguments w = Some chat ->
  client w = Some b ->
  (bot_send_document (remote w) b chat
     {| file_name := PStr p; file_data := content |}
     (dict_get_default arguments "caption" (PStr "")) = Raise e ->
   (is_Exception e = true ->
    fst (send_document arguments w) =
      Ok [text_content
            ((if is_TelegramError e then "Telegram error: " else "Error: ")
               +:+ exn_str e)]) /\
   (is_Exception e = false ->
    fst (send_document arguments w) = Raise e /\
    exists pre : list event,
      new_events w (snd (send_document arguments w)) =
        (pre ++ [EvOpen (PStr p);
                 EvSendDocument chat
                   {| file_name := PStr p; file_data := content |}
                   (dict_get_default arguments "caption" (PStr ""));
                 EvClose (PStr p)])%list)) /\
  (bot_send_photo (remote w) b chat
     {| file_name := PStr p; file_data := content |}
     (dict_get_default arguments "caption" (PStr "")) = Raise e ->
   (is_Exception e = true ->
    fst (send_photo arguments w) =
      Ok [text_content
            ((if is_TelegramError e then "Telegram error: " else "Error: ")
               +:+ exn_str e)]) /\
   (is_Exception e = false ->
    fst (send_photo arguments w) = Raise e /\
    exists pre : list event,
      new_events w (snd (send_photo arguments w)) =
        (pre ++ [EvOpen (PStr p);
                 EvSendPhoto chat
                   {| file_name := PStr p; file_data := content |}
                   (dict_get_default arguments "caption" (PStr ""));
                 EvClose (PStr p)])%list)).
Proof.
  intros Hp Ht Hfs Hdest Hc.
  assert (Hs : stat_exists (dict_get arguments "file_path") w = Ok true).
  { rewrite Hp. now apply stat_exists_present with (node := Regular content true). }
  assert (Ho : open_rb (dict_get arguments "file_path") w =
               Ok {| file_name := PStr p; file_data := content |}).
  { rewrite Hp. now apply open_rb_regular. }
  rewrite <- Hp in Ht.
  split; intros Hsend; (split; intros He).
  - rewrite send_document_sender.
    change (sender upload_document arguments w)
      with (sender (upload_with EvSendDocument bot_send_document
                      finish_document) arguments w).
    exact (sender_call_fails _ _ _ _ _ _ _ Ht Hs Hdest Hc _ _ Ho Hsend He).
  - rewrite send_document_sender.
    change (sender upload_document arguments w)
      with (sender (upload_with EvSendDocument bot_send_document
                      finish_document) arguments w).
    destruct (sender_call_cancelled EvSendDocument bot_send_document
                finish_document arguments w chat b Ht Hs Hdest Hc _ _
                Ho Hsend He) as (w' & pre & Hrun & Hnew).
    rewrite Hrun. simpl. split; [reflexivity |].
    rewrite Hp in Hnew. eauto.
  - rewrite send_photo_sender.
    change (sender upload_photo arguments w)
      with (sender (upload_with EvSendPhoto bot_send_photo finish_photo)
              arguments w).
    exact (sender_call_fails _ _ _ _ _ _ _ Ht Hs Hdest Hc _ _ Ho Hsend He).
  - rewrite send_photo_sender.
    change (sender upload_photo arguments w)
      with (sender (upload_with EvSendPhoto bot_send_photo finish_photo)
              arguments w).
    destruct (sender_call_cancelled EvSendPhoto bot_send_photo
                finish_photo arguments w chat b Ht Hs Hdest Hc _ _
                Ho Hsend He) as (w' & pre & Hrun & Hnew).
    rewrite Hrun. simpl. split; [reflexivity |].
    rewrite Hp in Hnew. eauto.
Qed.

Lemma upload_error_is_reported_witness :
  fst (send_document
         {[ "file_path" := PStr "/tmp/report.pdf"; "chat_id" := PStr "42" ]}
         (demo_world_with refusing_remote)) =
    Ok [text_content "Telegram error: Chat not found"] /\
  fst (send_photo
         {[ "file_path" := PStr "/tmp/report.pdf"; "chat_id" := PStr "42" ]}
         (demo_world_with refusing_remote)) =
    Ok [text_content "Error: Event loop is closed"] /\
  fst (send_photo
         {[ "file_path" := PStr "/tmp/report.pdf"; "chat_id" := PStr "42" ]}
         (demo_world_with cancelling_remote)) =
    Raise (Exn CancelledError "").
Proof.
  pose proof (upload_error_is_reported
                {[ "file_path" := PStr "/tmp/report.pdf";
                   "chat_id" := PStr "42" ]}
                (demo_world_with refusing_remote)
                "/tmp/report.pdf" [Byte.x25; Byte.x50; Byte.x44] (PStr "42")
                {| token := "123:abc"; instance := 0 |}) as H.
  pose proof (H (Exn TelegramError "Chat not found")
                ltac:(vm_compute; reflexivity) ltac:(vm_compute; reflexivity)
                ltac:(vm_compute; reflexivity) ltac:(vm_compute; reflexivity)
                ltac:(vm_compute; reflexivity)) as (Hd & _).
  pose proof (H (Exn OtherException "Event loop is closed")
                ltac:(vm_compute; reflexivity) ltac:(vm_compute; reflexivity)
                ltac:(vm_compute; reflexivity) ltac:(vm_compute; reflexivity)
                ltac:(vm_compute; reflexivity)) as (_ & Hp).
  pose proof (upload_error_is_reported
                {[ "file_path" := PStr "/tmp/report.pdf";
                   "chat_id" := PStr "42" ]}
                (demo_world_with cancelling_remote)
                "/tmp/report.pdf" [Byte.x25; Byte.x50; Byte.x44] (PStr "42")
                {| token := "123:abc"; instance := 0 |}) as H'.
  pose proof (H' (Exn CancelledError "")
                ltac:(vm_compute; reflexivity) ltac:(vm_compute; reflexivity)
                ltac:(vm_compute; reflexivity) ltac:(vm_compute; reflexivity)
                ltac:(vm_compute; reflexivity)) as (_ & Hx).
  specialize (Hd ltac:(vm_compute; reflexivity)).
  specialize (Hp ltac:(vm_compute; reflexivity)).
  specialize (Hx ltac:(vm_compute; reflexivity)).
  destruct Hd as (Hd & _). destruct Hp as (Hp & _). destruct Hx as (_ & Hx).
  specialize (Hd ltac:(reflexivity)).
  specialize (Hp ltac:(reflexivity)).
  specialize (Hx ltac:(reflexivity)).
  destruct Hx as (Hx & _).
  split_all; [exact Hd | exact Hp | exact Hx].
Defined.

(** ** Failures before the upload *)



Lemma open_rb_unreadable p node w :
  fs w !! p = Some node -> readable_file node = false ->
  open_rb (PStr p) w = Raise (Exn OSError (strerror w (PStr p))).
Proof.
  intros H Hn. simpl. rewrite H.
  destruct node as [content [|] | sz]; [discriminate | reflexivity..].
Qed.

(** X4: when [file_path] names something that exists but cannot be opened
    for reading (a directory, a file without read permission), both senders
    return ["Error: "] followed by the text of the OSError of [open], and
    no upload is attempted. *)
Theorem unopenable_file_is_reported (arguments : gmap string pyval)
    (w : World) (p : string) (node : fnode) (chat : pyval) (b : Bot) :
  dict_get arguments "file_path" = PStr p ->
  py_truthy (PStr p) = true ->
  fs w !! p = Some node ->
  readable_file node = false ->
  destination arguments w = Some chat ->
  client w = Some b ->
  exists wd wp,
    send_document arguments w =
      (Ok [text_content ("Error: " +:+ strerror w (PStr p))], wd) /\
    send_photo arguments w =
      (Ok [text_content ("Error: " +:+ strerror w (PStr p))], wp) /\
    forallb (fun ev => negb (is_upload ev)) (new_events w wd) = true /\
    forallb (fun ev => negb (is_upload ev)) (new_events w wp) = true.
Proof.
  intros Hp Ht Hfs Hn Hdest Hc.
  assert (Hs : stat_exists (dict_get arguments "file_path") w = Ok true).
  { rewrite Hp. now apply stat_exists_present with (node := node). }
  assert (Ho : open_rb (dict_get arguments "file_path") w =
               Raise (Exn OSError (strerror w (PStr p)))).
  { rewrite Hp. now apply open_rb_unreadable with (node := node). }
  rewrite <- Hp in Ht.
  destruct (sender_open_fails EvSendDocument bot_send_document finish_document
              arguments w chat b Ht Hs Hdest Hc _ Ho) as (wd & Hd & Qd).
  destruct (sender_open_fails EvSendPhoto bot_send_photo finish_photo
              arguments w chat b Ht Hs Hdest Hc _ Ho) as (wp & Hph & Qp).
  exists wd, wp. split_all; assumption.
Qed.

Lemma unopenable_file_is_reported_witness :
  exists wd wp,
    send_document
      {[ "file_path" := PStr "/tmp/report.pdf"; "chat_id" := PStr "42" ]}
      directory_world =
      (Ok [text_content
             ("Error: " +:+ strerror directory_world (PStr "/tmp/report.pdf"))],
       wd) /\
    send_photo
      {[ "file_path" := PStr "/tmp/report.pdf"; "chat_id" := PStr "42" ]}
      directory_world =
      (Ok [text_content
             ("Error: " +:+ strerror directory_world (PStr "/tmp/report.pdf"))],
       wp) /\
    forallb (fun ev => negb (is_upload ev)) (new_events directory_world wd)
      = true /\
    forallb (fun ev => negb (is_upload ev)) (new_events directory_world wp)
      = true.
Proof.
  pose proof (unopenable_file_is_reported
                {[ "file_path" := PStr "/tmp/report.pdf";
                   "chat_id" := PStr "42" ]}
                directory_world "/tmp/report.pdf" (Directory 4096) (PStr "42")
                {| token := "123:abc"; instance := 0 |}) as H.
  exact (H ltac:(vm_compute; reflexivity) ltac:(vm_compute; reflexivity)
           ltac:(vm_compute; reflexivity) ltac:(vm_compute; reflexivity)
           ltac:(vm_compute; reflexivity) ltac:(vm_compute; reflexivity)).
Defined.

(** ** No remote call is made twice *)

Lemma count_events_app q (xs ys : list event) :
  count_events q (xs ++ ys) = (count_events q xs + count_events q ys)%nat.
Proof. induction xs as [| x xs IH]; simpl; [reflexivity | lia]. Qed.

Lemma count_events_none q (evs : list event) :
  forallb (fun ev => negb (q ev)) evs = true -> count_events q evs = 0%nat.
Proof.
  induction evs as [| ev evs IH]; simpl; [reflexivity |].
  intros H. apply andb_prop in H as [H1 H2].
  destruct (q ev); [discriminate | auto].
Qed.

Section EventBound.
Variable q : event -> bool.

Lemma quiet_event_bound {A : Type} (m : M A) n :
  only_emits (fun ev => negb (q ev)) m -> event_bound q n m.
Proof.
  intros Hm w r w' H. destruct (Hm _ _ _ H) as (_ & evs & T & Q).
  exists evs. split; [exact T |]. rewrite (count_events_none _ _ Q). lia.
Qed.

Lemma bind_event_bound {A B : Type} (m : M A) (k : A -> M B) a b n :
  event_bound q a m -> (forall x, event_bound q b (k x)) ->
  (a + b <= n)%nat ->
  event_bound q n (x <- m ;; k x).
Proof.
  intros Hm Hk Hn w r w' H.
  apply bind_inv in H as [(x & w1 & H1 & H2) | (e & H1 & _)].
  - destruct (Hm _ _ _ H1) as (evs1 & T1 & C1).
    destruct (Hk x _ _ _ H2) as (evs2 & T2 & C2).
    exists (evs1 ++ evs2)%list. split.
    + now rewrite T2, T1, app_assoc.
    + rewrite count_events_app. lia.
  - destruct (Hm _ _ _ H1) as (evs1 & T1 & C1).
    exists evs1. split; [exact T1 | lia].
Qed.

Lemma try_except_event_bound {A : Type} (m : M A) (h : exn -> M A) a b n :
  event_bound q a m -> (forall e, event_bound q b (h e)) ->
  (a + b <= n)%nat ->
  event_bound q n (try_except m h).
Proof.
  intros Hm Hh Hn w r w' H.
  apply try_except_inv in H
    as [(x & H1 & _) | [(e & w1 & H1 & _ & H2) | (e & H1 & _)]].
  - destruct (Hm _ _ _ H1) as (evs1 & T1 & C1).
    exists evs1. split; [exact T1 | lia].
  - destruct (Hm _ _ _ H1) as (evs1 & T1 & C1).
    destruct (Hh e _ _ _ H2) as (evs2 & T2 & C2).
    exists (evs1 ++ evs2)%list. split.
    + now rewrite T2, T1, app_assoc.
    + rewrite count_events_app. lia.
  - destruct (Hm _ _ _ H1) as (evs1 & T1 & C1).
    exists evs1. split; [exact T1 | lia].
Qed.

Lemma finally_event_bound {A : Type} (m : M A) ev n :
  event_bound q n m -> q ev = false ->
  event_bound q n (finally m (record ev)).
Proof.
  intros Hm Hq w r w' H. unfold finally in H.
  destruct (m w) as [r1 w1] eqn:E. injection H as <- <-.
  destruct (Hm _ _ _ E) as (evs1 & T1 & C1).
  exists (evs1 ++ [ev])%list. split.
  - simpl. now rewrite T1, app_assoc.
  - rewrite count_events_app. simpl. rewrite Hq. lia.
Qed.

Lemma emit_event_bound ev : event_bound q 1 (emit ev).
Proof.
  intros w r w' [= <- <-]. exists [ev]. split; [reflexivity |].
  simpl. destruct (q ev); lia.
Qed.
End EventBound.

Lemma os_path_basename_silent p path : only_emits p (os_path_basename path).
Proof. destruct path; simpl; auto with pyflow. Qed.

Lemma finish_document_silent p path message :
  only_emits p (finish_document path message).
Proof.
  unfold finish_document, os_path_getsize.
  apply bind_only_emits; [apply os_path_basename_silent |].
  intros file_name.
  apply bind_only_emits; [apply lift_only_emits |].
  intros file_size. apply ret_only_emits.
Qed.

Lemma finish_photo_silent p path message :
  only_emits p (finish_photo path message).
Proof.
  unfold finish_photo.
  apply bind_only_emits; [apply os_path_basename_silent |].
  intros file_name. apply ret_only_emits.
Qed.

Lemma upload_failed_silent p e : only_emits p (upload_failed e).
Proof. unfold upload_failed. destruct (is_TelegramError e); auto with pyflow. Qed.

Lemma os_path_exists_only_emits (p : event -> bool) path :
  p (EvExists path) = true -> only_emits p (os_path_exists path).
Proof. intros H. unfold os_path_exists. auto with pyflow. Qed.

Section UploadEvents.
Variable ev : pyval -> FileObj -> pyval -> event.
Variable call : Remote -> Bot -> pyval -> FileObj -> pyval -> result Message.
Variable finish : pyval -> Message -> M (list TextContent).
Hypothesis finish_silent : forall p path message,
  only_emits p (finish path message).

Lemma upload_with_only_emits (p : event -> bool) chat path caption :
  (forall t, p (EvNewBot t) = true) ->
  p (EvOpen path) = true -> p (EvClose path) = true ->
  (forall file, p (ev chat file caption) = true) ->
  only_emits p (upload_with ev call finish chat path caption).
Proof.
  intros H1 H2 H3 H4. unfold upload_with, with_open, await_send.
  apply try_except_only_emits; [| intros e; apply upload_failed_silent].
  apply bind_only_emits; [auto with pyflow |]. intros b.
  apply bind_only_emits; [| intros message; apply finish_silent].
  apply bind_only_emits; [auto with pyflow |]. intros _.
  apply bind_only_emits; [auto with pyflow |]. intros file.
  apply finally_only_emits; [| exact H3].
  apply bind_only_emits; [apply emit_only_emits, H4 |]. intros _.
  auto with pyflow.
Qed.

(** One remote call of the kind [q] at most in a [try] statement. *)
Lemma upload_with_event_bound q chat path caption :
  (forall t, q (EvNewBot t) = false) ->
  q (EvOpen path) = false -> q (EvClose path) = false ->
  event_bound q 1 (upload_with ev call finish chat path caption).
Proof.
  intros H1 H2 H3. unfold upload_with, with_open, await_send.
  apply try_except_event_bound with (a := 1%nat) (b := 0%nat); [| | lia].
  - apply bind_event_bound with (a := 0%nat) (b := 1%nat); [| | lia].
    + apply quiet_event_bound. apply get_bot_only_emits.
      intros t. now rewrite H1.
    + intros b.
      apply bind_event_bound with (a := 1%nat) (b := 0%nat); [| | lia].
      * apply bind_event_bound with (a := 0%nat) (b := 1%nat); [| | lia].
        { apply quiet_event_bound. apply emit_only_emits. now rewrite H2. }
        intros _.
        apply bind_event_bound with (a := 0%nat) (b := 1%nat); [| | lia].
        { apply quiet_event_bound. auto with pyflow. }
        intros file. apply finally_event_bound; [| exact H3].
        apply bind_event_bound with (a := 1%nat) (b := 0%nat); [| | lia].
        { apply emit_event_bound. }
        intros _. apply quiet_event_bound. auto with pyflow.
      * intros message. apply quiet_event_bound. apply finish_silent.
  - intros e. apply quiet_event_bound. apply upload_failed_silent.
Qed.
End UploadEvents.

Lemma resolver_fetch_bound :
  event_bound is_fetch 1 get_chat_id_from_updates.
Proof.
  unfold get_chat_id_from_updates, await_get_updates, logger_error.
  apply try_except_event_bound with (a := 1%nat) (b := 0%nat); [| | lia].
  - apply bind_event_bound with (a := 0%nat) (b := 1%nat); [| | lia].
    + apply quiet_event_bound. apply get_bot_only_emits. reflexivity.
    + intros b.
      apply bind_event_bound with (a := 1%nat) (b := 0%nat); [| | lia].
      * apply bind_event_bound with (a := 1%nat) (b := 0%nat); [| | lia].
        { apply emit_event_bound. }
        intros _. apply quiet_event_bound. apply lift_only_emits.
      * intros [| u us]; apply quiet_event_bound; apply ret_only_emits.
  - intros e. apply quiet_event_bound.
    apply bind_only_emits; [now apply emit_only_emits |].
    intros _. apply ret_only_emits.
Qed.

Lemma resolver_upload_bound :
  event_bound is_upload 0 get_chat_id_from_updates.
Proof.
  apply quiet_event_bound. apply resolver_only_emits; reflexivity.
Qed.

Section SenderBound.
Variable q : event -> bool.
Variable upload : pyval -> pyval -> pyval -> M (list TextContent).
Variables a b : nat.
Hypothesis q_exists : forall path, q (EvExists path) = false.
Hypothesis resolver_bound : event_bound q a get_chat_id_from_updates.
Hypothesis upload_bound : forall c f k, event_bound q b (upload c f k).

Lemma sender_event_bound arguments n :
  (a + b <= n)%nat -> event_bound q n (sender upload arguments).
Proof.
  intros Hn. unfold sender.
  destruct (py_truthy (dict_get arguments "file_path")); simpl;
    [| apply quiet_event_bound, ret_only_emits].
  apply bind_event_bound with (a := 0%nat) (b := n); [| | lia].
  { apply quiet_event_bound. apply os_path_exists_only_emits.
    now rewrite q_exists. }
  intros [|]; simpl; [| apply quiet_event_bound, ret_only_emits].
  destruct (py_truthy (dict_get arguments "chat_id")); simpl.
  - intros w r w' H. destruct (upload_bound _ _ _ _ _ _ H) as (evs & T & C).
    exists evs. split; [exact T | lia].
  - apply bind_event_bound with (a := a) (b := b); [exact resolver_bound | | lia].
    intros detected.
    destruct (py_truthy (py_of_optional_str detected)); simpl.
    + apply upload_bound.
    + apply quiet_event_bound, ret_only_emits.
Qed.
End SenderBound.

Lemma upload_document_fetch_free chat path caption :
  only_emits (fun ev => negb (is_fetch ev)) (upload_document chat path caption).
Proof.
  rewrite upload_document_with.
  apply upload_with_only_emits; try reflexivity.
  intros p0 path0 message. apply finish_document_silent.
Qed.

Lemma upload_photo_fetch_free chat path caption :
  only_emits (fun ev => negb (is_fetch ev)) (upload_photo chat path caption).
Proof.
  rewrite upload_photo_with.
  apply upload_with_only_emits; try reflexivity.
  intros p0 path0 message. apply finish_photo_silent.
Qed.

Lemma upload_document_once chat path caption :
  event_bound is_upload 1 (upload_document chat path caption).
Proof.
  rewrite upload_document_with.
  apply upload_with_event_bound; try reflexivity.
  intros p0 path0 message. apply finish_document_silent.
Qed.

Lemma upload_photo_once chat path caption :
  event_bound is_upload 1 (upload_photo chat path caption).
Proof.
  rewrite upload_photo_with.
  apply upload_with_event_bound; try reflexivity.
  intros p0 path0 message. apply finish_photo_silent.
Qed.

Lemma call_tool_event_bound q name arguments :
  (forall line, q (EvLog line) = false) ->
  event_bound q 1 (send_document arguments) ->
  event_bound q 1 (send_photo arguments) ->
  event_bound q 1 (call_tool name arguments).
Proof.
  intros Hlog Hd Hp. unfold call_tool, logger_error.
  apply try_except_event_bound with (a := 1%nat) (b := 0%nat); [| | lia].
  - destruct (String.eqb name "send_telegram_document"); [exact Hd |].
    destruct (String.eqb name "send_telegram_photo"); [exact Hp |].
    apply quiet_event_bound, raise_only_emits.
  - intros e. apply quiet_event_bound.
    apply bind_only_emits; [apply emit_only_emits; now rewrite Hlog |].
    intros _. apply ret_only_emits.
Qed.

(** X5: a tool call makes each remote call at most once: whatever the
    name, the arguments and the world, the events of one [call_tool] hold at
    most one upload and at most one fetch of updates; nothing is retried. *)
Theorem call_tool_calls_remote_once (name : string)
    (arguments : gmap string pyval) (w : World) :
  (count_events is_upload
     (new_events w (snd (call_tool name arguments w))) <= 1)%nat /\
  (count_events is_fetch
     (new_events w (snd (call_tool name arguments w))) <= 1)%nat.
Proof.
  assert (Hup : event_bound is_upload 1 (call_tool name arguments)).
  { apply call_tool_event_bound; [reflexivity | |].
    - rewrite send_document_sender.
      apply sender_event_bound with (a := 0%nat) (b := 1%nat);
        [reflexivity | apply resolver_upload_bound
        | apply upload_document_once | lia].
    - rewrite send_photo_sender.
      apply sender_event_bound with (a := 0%nat) (b := 1%nat);
        [reflexivity | apply resolver_upload_bound
        | apply upload_photo_once | lia]. }
  assert (Hfetch : event_bound is_fetch 1 (call_tool name arguments)).
  { apply call_tool_event_bound; [reflexivity | |].
    - rewrite send_document_sender.
      apply sender_event_bound with (a := 1%nat) (b := 0%nat);
        [reflexivity | apply resolver_fetch_bound | | lia].
      intros c f k. apply quiet_event_bound, upload_document_fetch_free.
    - rewrite send_photo_sender.
      apply sender_event_bound with (a := 1%nat) (b := 0%nat);
        [reflexivity | apply resolver_fetch_bound | | lia].
      intros c f k. apply quiet_event_bound, upload_photo_fetch_free. }
  destruct (call_tool name arguments w) as [r w'] eqn:E. simpl.
  destruct (Hup _ _ _ E) as (evs1 & T1 & C1).
  destruct (Hfetch _ _ _ E) as (evs2 & T2 & C2).
  rewrite (new_events_app _ _ _ T1) at 1.
  rewrite (new_events_app _ _ _ T2). split; assumption.
Qed.

(** ** A given chat is used as it is *)

Lemma sender_explicit_fetch_free upload (arguments : gmap string pyval) :
  py_truthy (dict_get arguments "chat_id") = true ->
  (forall c f k, only_emits (fun ev => negb (is_fetch ev)) (upload c f k)) ->
  only_emits (fun ev => negb (is_fetch ev)) (sender upload arguments).
Proof.
  intros Hchat Hu. unfold sender.
  destruct (py_truthy (dict_get arguments "file_path")); simpl;
    [| apply ret_only_emits].
  apply bind_only_emits; [now apply os_path_exists_only_emits |].
  intros [|]; simpl; [| apply ret_only_emits].
  rewrite Hchat. simpl. apply Hu.
Qed.

(** X7: with a truthy [chat_id] in the arguments the resolver is not
    consulted: no fetch of updates is among the events of [send_document]
    or [send_photo], in any world. *)
Theorem given_chat_skips_resolution (arguments : gmap string pyval)
    (w : World) :
  py_truthy (dict_get arguments "chat_id") = true ->
  forallb (fun ev => negb (is_fetch ev))
    (new_events w (snd (send_document arguments w))) = true /\
  forallb (fun ev => negb (is_fetch ev))
    (new_events w (snd (send_photo arguments w))) = true.
Proof.
  intros Hchat. split.
  - destruct (send_document arguments w) as [r w'] eqn:E. simpl.
    rewrite send_document_sender in E.
    destruct (sender_explicit_fetch_free upload_document arguments Hchat
                upload_document_fetch_free _ _ _ E) as (_ & evs & T & Q).
    now rewrite (new_events_app _ _ _ T).
  - destruct (send_photo arguments w) as [r w'] eqn:E. simpl.
    rewrite send_photo_sender in E.
    destruct (sender_explicit_fetch_free upload_photo arguments Hchat
                upload_photo_fetch_free _ _ _ E) as (_ & evs & T & Q).
    now rewrite (new_events_app _ _ _ T).
Qed.

Lemma given_chat_skips_resolution_witness :
  forallb (fun ev => negb (is_fetch ev))
    (new_events demo_world
       (snd (send_document
               {[ "file_path" := PStr "/tmp/report.pdf";
                  "chat_id" := PStr "42" ]} demo_world))) = true /\
  forallb (fun ev => negb (is_fetch ev))
    (new_events demo_world
       (snd (send_photo
               {[ "file_path" := PStr "/tmp/report.pdf";
                  "chat_id" := PStr "42" ]} demo_world))) = true.
Proof.
  pose proof (given_chat_skips_resolution
                {[ "file_path" := PStr "/tmp/report.pdf";
                   "chat_id" := PStr "42" ]} demo_world) as H.
  exact (H ltac:(vm_compute; reflexivity)).
Defined.

(** ** What the resolver does to the world *)

(** X13: the resolver leaves the environment, the files and the remote as
    they were; the only events it adds are the construction of the client,
    a fetch of updates with limit 100 and a log line, and it fetches at most
    once. *)
Theorem resolver_footprint (w : World) :
  frame w (snd (get_chat_id_from_updates w)) /\
  forallb resolver_event
    (new_events w (snd (get_chat_id_from_updates w))) = true /\
  (count_events is_fetch
     (new_events w (snd (get_chat_id_from_updates w))) <= 1)%nat.
Proof.
  destruct (get_chat_id_from_updates w) as [r w'] eqn:E. simpl.
  destruct (resolver_event_trace _ _ _ E) as (F & evs & T & Q).
  destruct (resolver_fetch_bound _ _ _ E) as (evs' & T' & C).
  split_all.
  - exact F.
  - now rewrite (new_events_app _ _ _ T).
  - now rewrite (new_events_app _ _ _ T').
Qed.

(** ** Every reply is a report *)

Lemma ret_yields_text (P : string -> Prop) t :
  P t -> yields_text P (ret [text_content t]).
Proof. intros HP w a w' [= <- _]. eauto. Qed.

Lemma raise_yields_text (P : string -> Prop) e : yields_text P (raise e).
Proof. intros w a w' H. discriminate. Qed.

Lemma bind_yields_text {A : Type} (P : string -> Prop) (m : M A) k :
  (forall a, yields_text P (k a)) -> yields_text P (x <- m ;; k x).
Proof.
  intros Hk w a w' H.
  apply bind_inv in H as [(x & w1 & _ & H1) | (e & _ & He)].
  - exact (Hk x w1 a w' H1).
  - discriminate.
Qed.

Lemma try_except_yields_text (P : string -> Prop) m h :
  yields_text P m -> (forall e, yields_text P (h e)) ->
  yields_text P (try_except m h).
Proof.
  intros Hm Hh w a w' H.
  apply try_except_inv in H
    as [(x & H1 & Hx) | [(e & w1 & _ & _ & H1) | (e & _ & _ & He)]].
  - inversion Hx; subst. exact (Hm w x w' H1).
  - exact (Hh e w1 a w' H1).
  - discriminate.
Qed.

Lemma yields_text_weaken (P Q : string -> Prop) m :
  (forall t, P t -> Q t) -> yields_text P m -> yields_text Q m.
Proof.
  intros HPQ Hm w a w' H. destruct (Hm w a w' H) as (t & -> & HP). eauto.
Qed.

Lemma error_is_report success x : is_report success ("Error: " +:+ x).
Proof. right. left. apply prefix_app. Qed.

Lemma telegram_error_is_report success x :
  is_report success ("Telegram error: " +:+ x).
Proof. right. right. apply prefix_app. Qed.

Lemma upload_failed_reports success e :
  yields_text (is_report success) (upload_failed e).
Proof.
  unfold upload_failed. destruct (is_TelegramError e); apply ret_yields_text.
  - apply telegram_error_is_report.
  - apply error_is_report.
Qed.

Lemma upload_document_reports chat path caption :
  yields_text (is_report "Document sent successfully!")
    (upload_document chat path caption).
Proof.
  unfold upload_document.
  apply try_except_yields_text; [| intros e; apply upload_failed_reports].
  repeat (apply bind_yields_text; intros ?).
  apply ret_yields_text. left. unfold document_sent. apply prefix_app.
Qed.

Lemma upload_photo_reports chat path caption :
  yields_text (is_report "Photo sent successfully!")
    (upload_photo chat path caption).
Proof.
  unfold upload_photo.
  apply try_except_yields_text; [| intros e; apply upload_failed_reports].
  repeat (apply bind_yields_text; intros ?).
  apply ret_yields_text. left. unfold photo_sent. apply prefix_app.
Qed.

Lemma sender_reports success upload arguments :
  (forall c f k, yields_text (is_report success) (upload c f k)) ->
  yields_text (is_report success) (sender upload arguments).
Proof.
  intros Hu. unfold sender.
  destruct (py_truthy (dict_get arguments "file_path")); simpl.
  - apply bind_yields_text. intros [|]; simpl.
    + destruct (py_truthy (dict_get arguments "chat_id")); simpl; [apply Hu |].
      apply bind_yields_text. intros detected.
      destruct (py_truthy (py_of_optional_str detected)); simpl; [apply Hu |].
      apply ret_yields_text. right. left. reflexivity.
    + apply ret_yields_text.
      exact (error_is_report success
               ("File not found: "
                +:+ py_str (dict_get arguments "file_path"))).
  - apply ret_yields_text. right. left. reflexivity.
Qed.

(** X9: whatever the name, the arguments and the world, what [call_tool]
    returns is one text that starts with one of four prefixes: the success
    line of the document sender, the success line of the photo sender,
    ["Error: "] or ["Telegram error: "]; and when it returns nothing, it
    has raised an exception that is not an [Exception] and that an awaited
    method of the remote raised. *)
Theorem call_tool_replies_are_reports (name : string)
    (arguments : gmap string pyval) (w : World) :
  (exists t,
     fst (call_tool name arguments w) = Ok [text_content t] /\
     (starts_with "Document sent successfully!" t = true \/
      starts_with "Photo sent successfully!" t = true \/
      starts_with "Error: " t = true \/
      starts_with "Telegram error: " t = true)) \/
  lets_through w (call_tool name arguments w).
Proof.
  assert (Hy : yields_text
                 (fun t => is_report "Document sent successfully!" t \/
                           is_report "Photo sent successfully!" t)
                 (call_tool name arguments)).
  { unfold call_tool, logger_error. apply try_except_yields_text.
    - destruct (String.eqb name "send_telegram_document").
      + rewrite send_document_sender.
        apply yields_text_weaken
          with (P := is_report "Document sent successfully!"); [auto |].
        apply sender_reports. apply upload_document_reports.
      + destruct (String.eqb name "send_telegram_photo").
        * rewrite send_photo_sender.
          apply yields_text_weaken
            with (P := is_report "Photo sent successfully!"); [auto |].
          apply sender_reports. apply upload_photo_reports.
        * apply raise_yields_text.
    - intros e. apply bind_yields_text. intros _. apply ret_yields_text.
      left. apply error_is_report. }
  pose proof (call_tool_outcome name arguments w) as Hout.
  destruct (call_tool name arguments w) as [[a | e] w'] eqn:E.
  - left. destruct (Hy _ _ _ E) as (t & -> & Ht). exists t.
    split; [reflexivity |]. unfold is_report in Ht. tauto.
  - right. destruct Hout as [[t Ht] | Hlet]; [discriminate | exact Hlet].
Qed.

(** ** What the router makes of a raised check *)

(** X10: when [file_path] is truthy and the existence check itself raises
    (a list, a dict, a float, an integer beyond the range of a descriptor),
    [call_tool] under either tool name returns ["Error: "] followed by the
    message of that exception, after the check and one log line and nothing
    else. *)
Theorem router_reports_raised_check (name : string)
    (arguments : gmap string pyval) (w : World) (e : exn) :
  name = "send_telegram_document" \/ name = "send_telegram_photo" ->
  py_truthy (dict_get arguments "file_path") = true ->
  stat_exists (dict_get arguments "file_path") w = Raise e ->
  call_tool name arguments w =
    (Ok [text_content ("Error: " +:+ exn_str e)],
     record (EvLog ("Error calling tool " +:+ name +:+ ": " +:+ exn_str e))
       (record (EvExists (dict_get arguments "file_path")) w)).
Proof.
  intros Hname Ht He.
  assert (Hraise : forall upload,
            sender upload arguments w =
              (Raise e, record (EvExists (dict_get arguments "file_path")) w)).
  { intros upload. unfold sender. rewrite Ht. simpl.
    unfold bind at 1. now rewrite os_path_exists_run, He. }
  unfold call_tool. destruct Hname as [-> | ->]; simpl.
  - erewrite try_except_raise;
      [reflexivity | | exact (stat_exists_raises _ _ _ He)].
    rewrite send_document_sender. apply Hraise.
  - erewrite try_except_raise;
      [reflexivity | | exact (stat_exists_raises _ _ _ He)].
    rewrite send_photo_sender. apply Hraise.
Qed.

Lemma router_reports_raised_check_witness :
  fst (call_tool "send_telegram_photo"
         {[ "file_path" := POther "list" true "[1]" ]} demo_world) =
    Ok [text_content
          "Error: stat: path should be string, bytes, os.PathLike or integer, not list"].
Proof.
  pose proof (router_reports_raised_check "send_telegram_photo"
                {[ "file_path" := POther "list" true "[1]" ]} demo_world
                (Exn TypeError
                   "stat: path should be string, bytes, os.PathLike or integer, not list"))
    as H.
  specialize (H ltac:(right; reflexivity) ltac:(vm_compute; reflexivity)
                ltac:(vm_compute; reflexivity)).
  rewrite H. reflexivity.
Defined.

(** ** An omitted caption is an empty caption *)

(** X14: when the arguments hold no ["caption"], both senders do, in every
    world, exactly what they do with the caption [""]. *)
Theorem omitted_caption_is_empty (arguments : gmap string pyval) (w : World) :
  arguments !! "caption" = None ->
  send_document arguments w =
    send_document (<["caption" := PStr ""]> arguments) w /\
  send_photo arguments w =
    send_photo (<["caption" := PStr ""]> arguments) w.
Proof.
  intros Hcap.
  assert (Hgen : forall upload,
            sender upload arguments w =
            sender upload (<["caption" := PStr ""]> arguments) w).
  { intros upload. unfold sender, dict_get, dict_get_default.
    rewrite lookup_insert_eq, Hcap.
    rewrite !lookup_insert_ne by discriminate. reflexivity. }
  split.
  - rewrite !send_document_sender. apply Hgen.
  - rewrite !send_photo_sender. apply Hgen.
Qed.

Lemma omitted_caption_is_empty_witness :
  send_document {[ "file_path" := PStr "/tmp/report.pdf" ]} demo_world =
    send_document
      (<["caption" := PStr ""]> {[ "file_path" := PStr "/tmp/report.pdf" ]})
      demo_world.
Proof.
  pose proof (omitted_caption_is_empty
                {[ "file_path" := PStr "/tmp/report.pdf" ]} demo_world) as H.
  specialize (H ltac:(vm_compute; reflexivity)).
  exact (proj1 H).
Defined.

(** ** Calls that conform to the advertised schema *)

Lemma conforms_required s (arguments : gmap string pyval) key :
  conforms s arguments = true -> In key (required s) ->
  is_Some (arguments !! key).
Proof.
  unfold conforms. intros H Hin. apply andb_prop in H as [H _].
  rewrite forallb_forall in H. specialize (H key Hin).
  now apply bool_decide_eq_true in H.
Qed.

Lemma conforms_property s (arguments : gmap string pyval) key prop v :
  conforms s arguments = true -> In (key, prop) (properties s) ->
  arguments !! key = Some v -> has_json_type (prop_type prop) v = true.
Proof.
  unfold conforms. intros H Hin Hv. apply andb_prop in H as [_ H].
  rewrite forallb_forall in H. specialize (H (key, prop) Hin).
  simpl in H. now rewrite Hv in H.
Qed.

Lemma json_string_is_str v :
  has_json_type "string" v = true -> exists s, v = PStr s.
Proof. destruct v; simpl; try discriminate. eauto. Qed.

(** Every advertised tool requires [file_path] and declares it a string. *)
Lemma list_tools_file_path tool :
  In tool list_tools ->
  In "file_path" (required (inputSchema tool)) /\
  exists prop,
    In ("file_path", prop) (properties (inputSchema tool)) /\
    prop_type prop = "string".
Proof.
  intros [<- | [<- | []]]; (split; [now left |]);
    eexists; (split; [left; reflexivity | reflexivity]).
Qed.

Lemma list_tools_names tool :
  In tool list_tools ->
  name tool = "send_telegram_document" \/ name tool = "send_telegram_photo".
Proof. intros [<- | [<- | []]]; auto. Qed.

(** With a string path the existence check does not raise: the sender
    returns, or lets through what the remote raised. *)
Lemma sender_string_path_outcome upload (arguments : gmap string pyval) w s :
  (forall c f k, contains_Exceptions (upload c f k)) ->
  (forall c f k, raises_from_remote (upload c f k)) ->
  (forall c f k, yields_one_text (upload c f k)) ->
  arguments !! "file_path" = Some (PStr s) ->
  returns_one_text (sender upload arguments w) \/
  lets_through w (sender upload arguments w).
Proof.
  intros Hs Hf Hy Hp.
  destruct (sender_outcome upload Hs Hf Hy arguments w)
    as [Hok | [Hlet | (e & He & _)]]; [now left | now right |].
  unfold dict_get in He. rewrite Hp in He. discriminate.
Qed.

(** A [try] statement whose body raises no [Exception] is its body. *)
Lemma try_except_idle {A : Type} (m : M A) (h : exn -> M A) w :
  (forall e w', m w = (Raise e, w') -> is_Exception e = false) ->
  try_except m h w = m w.
Proof.
  intros Hm. destruct (m w) as [[a | e] w'] eqn:E.
  - now apply try_except_ok.
  - apply try_except_pass; [exact E | exact (Hm e w' eq_refl)].
Qed.

Lemma outcome_raises_no_Exception (w : World)
    (out : result (list TextContent) * World) e w' :
  returns_one_text out \/ lets_through w out ->
  out = (Raise e, w') -> is_Exception e = false.
Proof.
  intros [[t Ht] | (e' & He' & Hx & _)] ->; simpl in *; congruence.
Qed.

(** X11: for every tool that [list_tools] advertises and every argument
    mapping that conforms to its input schema (the required key is there,
    the declared string properties hold strings), [call_tool] under the
    tool's name is exactly the run of the matching sender: the catch-all of
    the router stays idle, since the sender returns one text, or raises an
    exception that is not an [Exception] and that an awaited method of the
    remote raised; with a remote that raises nothing but [Exception]s the
    call returns. *)
Theorem schema_valid_calls_go_through (tool : Tool)
    (arguments : gmap string pyval) (w : World) :
  In tool list_tools ->
  conforms (inputSchema tool) arguments = true ->
  (exists s, arguments !! "file_path" = Some (PStr s)) /\
  ((name tool = "send_telegram_document" /\
    call_tool (name tool) arguments w = send_document arguments w /\
    (returns_one_text (send_document arguments w) \/
     lets_through w (send_document arguments w))) \/
   (name tool = "send_telegram_photo" /\
    call_tool (name tool) arguments w = send_photo arguments w /\
    (returns_one_text (send_photo arguments w) \/
     lets_through w (send_photo arguments w)))) /\
  (raises_Exceptions (remote w) ->
   exists a w', call_tool (name tool) arguments w = (Ok a, w')).
Proof.
  intros Hin Hconf.
  destruct (list_tools_file_path tool Hin) as (Hreq & prop & Hprop & Htype).
  destruct (conforms_required _ _ _ Hconf Hreq) as [v Hv].
  pose proof (conforms_property _ _ _ _ _ Hconf Hprop Hv) as Hjson.
  rewrite Htype in Hjson. apply json_string_is_str in Hjson as [s ->].
  split; [eauto |].
  assert (Hreturns : raises_Exceptions (remote w) ->
            exists a w', call_tool (name tool) arguments w = (Ok a, w')).
  { intros Hpolite.
    destruct (call_tool_outcome (name tool) arguments w) as [[t Ht] | Hlet].
    - destruct (call_tool (name tool) arguments w) as [r w'].
      simpl in Ht. subst r. eauto.
    - destruct (lets_through_cancelled _ _ Hpolite Hlet). }
  split; [| exact Hreturns].
  destruct (list_tools_names tool Hin) as [Hn | Hn]; rewrite Hn.
  - pose proof (sender_string_path_outcome upload_document arguments w s
                  upload_document_contains upload_document_raises_from_remote
                  upload_document_yields_one_text Hv) as Hout.
    rewrite <- send_document_sender in Hout.
    left. split_all; [reflexivity | | exact Hout].
    unfold call_tool. simpl. apply try_except_idle.
    intros e w' E. exact (outcome_raises_no_Exception _ _ _ _ Hout E).
  - pose proof (sender_string_path_outcome upload_photo arguments w s
                  upload_photo_contains upload_photo_raises_from_remote
                  upload_photo_yields_one_text Hv) as Hout.
    rewrite <- send_photo_sender in Hout.
    right. split_all; [reflexivity | | exact Hout].
    unfold call_tool. simpl. apply try_except_idle.
    intros e w' E. exact (outcome_raises_no_Exception _ _ _ _ Hout E).
Qed.

Lemma schema_valid_calls_go_through_witness :
  exists a w',
    call_tool "send_telegram_document"
      {[ "file_path" := PStr "/tmp/report.pdf"; "caption" := PStr "Q3" ]}
      (demo_world_with refusing_remote) = (Ok a, w').
Proof.
  pose proof (schema_valid_calls_go_through
                (nth 0 list_tools
                   {| name := ""; description := "";
                      inputSchema := {| schema_type := ""; properties := [];
                                        required := [] |} |})
                {[ "file_path" := PStr "/tmp/report.pdf";
                   "caption" := PStr "Q3" ]}
                (demo_world_with refusing_remote)) as H.
  specialize (H ltac:(left; reflexivity) ltac:(vm_compute; reflexivity)).
  destruct H as (_ & _ & H). exact (H refusing_remote_raises_Exceptions).
Defined.

(** ** The name shown is the last component of the path *)

Lemma has_slash_after (dir rest : string) :
  has_slash (dir +:+ String "/"%char rest) = true.
Proof.
  induction dir as [| c dir IH]; [reflexivity |].
  change (String c dir +:+ String "/"%char rest)
    with (String c (dir +:+ String "/"%char rest)).
  cbn [has_slash]. rewrite IH. apply orb_true_r.
Qed.

Lemma basename_join (dir fname : string) :
  has_slash fname = false ->
  basename (dir +:+ String "/"%char fname) = fname.
Proof.
  intros Hf. induction dir as [| c dir IH].
  - change ("" +:+ String "/"%char fname) with (String "/"%char fname).
    cbn [basename]. now rewrite Hf.
  - change (String c dir +:+ String "/"%char fname)
      with (String c (dir +:+ String "/"%char fname)).
    cbn [basename]. now rewrite has_slash_after.
Qed.

Lemma basename_no_slash (p : string) : has_slash (basename p) = false.
Proof.
  induction p as [| c r IH]; [reflexivity |].
  cbn [basename]. destruct (has_slash r) eqn:Hr; [exact IH |].
  destruct (Ascii.eqb c "/") eqn:Hc; [exact Hr |].
  cbn [has_slash]. now rewrite Hc, Hr.
Qed.

(** X12: the ["File: "] line of a success text never shows a directory:
    the name printed holds no slash, and for a path [dir/fname] whose
    [fname] holds no slash both senders print exactly [fname]. *)
Theorem success_text_names_last_component (arguments : gmap string pyval)
    (w : World) (dir fname : string) (content : list Byte.byte)
    (chat : pyval) (b : Bot) (msg : Message) :
  dict_get arguments "file_path" = PStr (dir +:+ String "/"%char fname) ->
  has_slash fname = false ->
  fs w !! (dir +:+ String "/"%char fname) = Some (Regular content true) ->
  destination arguments w = Some chat ->
  client w = Some b ->
  has_slash (basename (dir +:+ String "/"%char fname)) = false /\
  (bot_send_document (remote w) b chat
     {| file_name := PStr (dir +:+ String "/"%char fname);
        file_data := content |}
     (dict_get_default arguments "caption" (PStr "")) = Ok msg ->
   fst (send_document arguments w) =
     Ok [text_content
           (document_sent fname (Z.of_nat (length content)) msg)]) /\
  (bot_send_photo (remote w) b chat
     {| file_name := PStr (dir +:+ String "/"%char fname);
        file_data := content |}
     (dict_get_default arguments "caption" (PStr "")) = Ok msg ->
   fst (send_photo arguments w) = Ok [text_content (photo_sent fname msg)]).
Proof.
  intros Hp Hf Hfs Hdest Hc.
  set (p := dir +:+ String "/"%char fname) in *.
  assert (Ht : py_truthy (dict_get arguments "file_path") = true).
  { rewrite Hp. unfold p. destruct dir; reflexivity. }
  assert (Hs : stat_exists (dict_get arguments "file_path") w = Ok true).
  { rewrite Hp. now apply stat_exists_present with (node := Regular content true). }
  assert (Ho : open_rb (dict_get arguments "file_path") w =
               Ok {| file_name := PStr p; file_data := content |}).
  { rewrite Hp. now apply open_rb_regular. }
  assert (Hbase : basename p = fname) by (now apply basename_join).
  split; [apply basename_no_slash |]. split; intros Hsend.
  - rewrite send_document_sender.
    change (sender upload_document arguments w)
      with (sender (upload_with EvSendDocument bot_send_document
                      finish_document) arguments w).
    refine (sender_call_returns _ _ _ _ _ _ _ Ht Hs Hdest Hc _ _ _ Ho Hsend _).
    intros w' (_ & F & _). rewrite Hp, <- Hbase.
    apply finish_document_run with (readable := true). now rewrite F.
  - rewrite send_photo_sender.
    change (sender upload_photo arguments w)
      with (sender (upload_with EvSendPhoto bot_send_photo finish_photo)
              arguments w).
    refine (sender_call_returns _ _ _ _ _ _ _ Ht Hs Hdest Hc _ _ _ Ho Hsend _).
    intros w' _. rewrite Hp, <- Hbase. apply finish_photo_run.
Qed.

Lemma success_text_names_last_component_witness :
  fst (send_photo
         {[ "file_path" := PStr "/tmp/report.pdf"; "chat_id" := PStr "42" ]}
         demo_world) =
    Ok [text_content (photo_sent "report.pdf" demo_message)].
Proof.
  pose proof (success_text_names_last_component
                {[ "file_path" := PStr "/tmp/report.pdf";
                   "chat_id" := PStr "42" ]} demo_world
                "/tmp" "report.pdf" [Byte.x25; Byte.x50; Byte.x44] (PStr "42")
                {| token := "123:abc"; instance := 0 |} demo_message) as H.
  specialize (H ltac:(vm_compute; reflexivity) ltac:(vm_compute; reflexivity)
                ltac:(vm_compute; reflexivity) ltac:(vm_compute; reflexivity)
                ltac:(vm_compute; reflexivity)).
  destruct H as (_ & _ & H). exact (H ltac:(vm_compute; reflexivity)).
Defined.

(** ** Every run of a sender, case by case *)

Lemma failure_text_report e :
  starts_with "Error: " (failure_text e) = true \/
  starts_with "Telegram error: " (failure_text e) = true.
Proof.
  unfold failure_text. destruct (is_TelegramError e).
  - right. apply prefix_app.
  - left. apply prefix_app.
Qed.

Lemma prefix_first_char a p b q t :
  starts_with (String a p) t = true -> starts_with (String b q) t = true ->
  a = b.
Proof.
  unfold starts_with. destruct t as [| c t]; simpl; [discriminate |].
  destruct (Ascii.ascii_dec a c) as [-> |]; [| discriminate].
  destruct (Ascii.ascii_dec b c) as [-> |]; [reflexivity | discriminate].
Qed.

Lemma quiet_not_upload (evs : list event) ev :
  forallb (fun e => negb (is_upload e)) evs = true ->
  In ev evs -> is_upload ev = false.
Proof.
  intros H Hin. rewrite forallb_forall in H. specialize (H ev Hin).
  now destruct (is_upload ev).
Qed.

Section SenderCases.
Variable ev : pyval -> FileObj -> pyval -> event.
Variable call : Remote -> Bot -> pyval -> FileObj -> pyval -> result Message.
Variable finish : pyval -> Message -> M (list TextContent).
Hypothesis finish_still : forall path message w r w',
  finish path message w = (r, w') -> w' = w.

Lemma finish_or_fail_still path message w r w' :
  try_except (finish path message) upload_failed w = (r, w') -> w' = w.
Proof.
  intros H.
  apply try_except_inv in H
    as [(a & H & _) | [(e & w1 & H & _ & H1) | (e & H & _)]].
  - exact (finish_still _ _ _ _ _ H).
  - apply finish_still in H. subst w1.
    rewrite upload_failed_run in H1. now injection H1.
  - exact (finish_still _ _ _ _ _ H).
Qed.

(** The [try] statement: it stops before the upload with an error text, or
    it opens the file, calls the remote once and closes the file. *)
Lemma upload_with_cases chat path caption w1 r w' :
  upload_with ev call finish chat path caption w1 = (r, w') ->
  exists pre : list event,
    forallb (fun e => negb (is_upload e)) pre = true /\
    ((trace w' = (trace w1 ++ pre)%list /\
      exists e, r = Ok [text_content (failure_text e)]) \/
     (exists b file,
        client w1 = Some b /\ open_rb path w1 = Ok file /\
        trace w' =
          (trace w1 ++ pre ++
             [EvOpen path; ev chat file caption; EvClose path])%list /\
        ((exists e, call (remote w1) b chat file caption = Raise e /\
                    (is_Exception e = true /\
                     r = Ok [text_content (failure_text e)] \/
                     is_Exception e = false /\ r = Raise e)) \/
         (exists message,
            call (remote w1) b chat file caption = Ok message /\
            try_except (finish path message) upload_failed w' = (r, w'))))).
Proof.
  intros H. rewrite upload_with_run in H.
  destruct (get_bot w1) as [[b | e] w2] eqn:Hb.
  - pose proof (client_of_get_bot _ _ _ Hb) as Hc.
    assert (Hpre : exists pre : list event,
              forallb (fun e => negb (is_upload e)) pre = true /\
              trace w2 = (trace w1 ++ pre)%list).
    { destruct (get_bot_trace _ _ _ Hb) as [T | (b' & _ & _ & T)].
      - exists []. split; [reflexivity | now rewrite app_nil_r].
      - exists [EvNewBot (token b')]. split; [reflexivity | exact T]. }
    destruct Hpre as (pre & Q & T).
    destruct (open_rb path w1) as [file | e] eqn:Ho.
    + cbv zeta in H.
      destruct (call (remote w1) b chat file caption) as [message | e] eqn:Hcall.
      * pose proof (finish_or_fail_still _ _ _ _ _ H) as ->.
        exists pre. split; [exact Q |]. right. exists b, file.
        split_all; try assumption; try reflexivity.
        -- simpl. rewrite T. now rewrite <- !app_assoc.
        -- right. exists message. split; [exact Hcall | exact H].
      * assert (Hr : w' =
                  record (EvClose path)
                    (record (ev chat file caption)
                       (record (EvOpen path) w2)) /\
                (is_Exception e = true /\
                 r = Ok [text_content (failure_text e)] \/
                 is_Exception e = false /\ r = Raise e)).
        { destruct (is_Exception e) eqn:He.
          - rewrite (caught_Exception _ _ He), upload_failed_run in H.
            injection H as <- <-. auto.
          - rewrite (caught_other _ _ He) in H.
            injection H as <- <-. auto. }
        destruct Hr as [-> Hr].
        exists pre. split; [exact Q |]. right. exists b, file.
        split_all; try assumption; try reflexivity.
        -- simpl. rewrite T. now rewrite <- !app_assoc.
        -- left. eauto.
    + rewrite upload_failed_run in H. injection H as <- <-.
      exists (pre ++ [EvOpen path])%list. split.
      * rewrite forallb_app, Q. reflexivity.
      * left. split; [| eauto]. simpl. rewrite T. now rewrite <- app_assoc.
  - rewrite upload_failed_run in H. injection H as <- <-.
    exists []. split; [reflexivity |]. left. split; [| eauto].
    rewrite app_nil_r.
    destruct (get_bot_trace _ _ _ Hb) as [T | (b' & Hr & _)];
      [exact T | discriminate].
Qed.

(** The sender: either no upload was attempted, and any text returned is an
    error text; or exactly one was, with the chat chosen, the file as
    opened and the caption given, between the opening and the closing of
    the file. *)
Lemma sender_cases (arguments : gmap string pyval) w r w' :
  sender (upload_with ev call finish) arguments w = (r, w') ->
  (forallb (fun e => negb (is_upload e)) (new_events w w') = true /\
   forall t, r = Ok [text_content t] ->
     starts_with "Error: " t = true \/
     starts_with "Telegram error: " t = true) \/
  (exists chat b file (pre : list event),
     destination arguments w = Some chat /\ client w = Some b /\
     open_rb (dict_get arguments "file_path") w = Ok file /\
     new_events w w' =
       (pre ++ [EvOpen (dict_get arguments "file_path");
                ev chat file (dict_get_default arguments "caption" (PStr ""));
                EvClose (dict_get arguments "file_path")])%list /\
     forallb (fun e => negb (is_upload e)) pre = true /\
     ((exists e,
         call (remote w) b chat file
           (dict_get_default arguments "caption" (PStr "")) = Raise e /\
         (is_Exception e = true /\ r = Ok [text_content (failure_text e)] \/
          is_Exception e = false /\ r = Raise e)) \/
      (exists message,
         call (remote w) b chat file
           (dict_get_default arguments "caption" (PStr "")) = Ok message /\
         try_except (finish (dict_get arguments "file_path") message)
           upload_failed w' = (r, w')))).
Proof.
  intros H.
  destruct (py_truthy (dict_get arguments "file_path")) eqn:Ht.
  2:{ rewrite (sender_no_path _ _ _ Ht) in H. injection H as <- <-.
      left. split.
      - rewrite (new_events_app w w []); [reflexivity | now rewrite app_nil_r].
      - intros t [= <-]. left. reflexivity. }
  destruct (stat_exists (dict_get arguments "file_path") w)
    as [[|] | e] eqn:Hs.
  - destruct (destination arguments w) as [chat |] eqn:Hd.
    + destruct (sender_reaches_upload (upload_with ev call finish)
                  arguments w chat Ht Hs Hd)
        as (w1 & Hrun & F & Hc & evs & T & Q & _).
      apply forallb_quiet_resolver in Q.
      rewrite Hrun in H.
      apply upload_with_cases in H
        as (pre & Qp & [(T' & e & ->) | (b & file & Hcl & Ho & T' & Hcall)]).
      * left. split.
        -- rewrite (new_events_app w w'
                      (EvExists (dict_get arguments "file_path")
                         :: evs ++ pre)).
           ++ simpl. now rewrite forallb_app, Q, Qp.
           ++ rewrite T', T. simpl. now rewrite <- !app_assoc.
        -- intros t [= <-]. apply failure_text_report.
      * right. exists chat, b, file,
          (EvExists (dict_get arguments "file_path") :: evs ++ pre)%list.
        assert (R : remote w1 = remote w)
          by (now destruct F as (_ & _ & _ & _ & R)).
        rewrite R in Hcall. split_all.
        -- reflexivity.
        -- now rewrite <- Hc.
        -- now rewrite <- (open_rb_frame _ _ _ F).
        -- apply new_events_app. rewrite T', T. simpl.
           now rewrite <- !app_assoc.
        -- simpl. now rewrite forallb_app, Q, Qp.
        -- exact Hcall.
    + unfold destination in Hd.
      destruct (py_truthy (dict_get arguments "chat_id")) eqn:Hchat;
        [discriminate |].
      destruct (resolved_identity w) as [s |] eqn:Hres; [discriminate |].
      rewrite sender_autodetect in H by assumption.
      assert (Hquiet : forall r1 w1,
                get_chat_id_from_updates
                  (record (EvExists (dict_get arguments "file_path")) w)
                  = (r1, w1) ->
                forallb (fun e => negb (is_upload e)) (new_events w w1)
                  = true).
      { intros r1 w1 Hrun.
        destruct (resolver_event_trace _ _ _ Hrun) as (_ & evs & T & Q).
        apply forallb_quiet_resolver in Q.
        rewrite (new_events_app w w1
                   (EvExists (dict_get arguments "file_path") :: evs)).
        - exact Q.
        - rewrite T. simpl. now rewrite <- app_assoc. }
      apply bind_inv in H as [(detected & w1 & Hrun & H) | (e & Hrun & ->)].
      * assert (detected = None) as ->.
        { apply resolved_identity_eq in Hrun.
          now rewrite resolved_identity_record, Hres in Hrun. }
        simpl in H. injection H as <- <-. left.
        split; [exact (Hquiet _ _ Hrun) |].
        intros t [= <-]. left. reflexivity.
      * left. split; [exact (Hquiet _ _ Hrun) |]. intros t. discriminate.
  - rewrite (sender_not_found _ _ _ Ht Hs) in H. injection H as <- <-.
    left. split.
    + now rewrite (new_events_app w _
                     [EvExists (dict_get arguments "file_path")]).
    + intros t [= <-]. left. reflexivity.
  - assert (Hraise : sender (upload_with ev call finish) arguments w =
              (Raise e, record (EvExists (dict_get arguments "file_path")) w)).
    { unfold sender. rewrite Ht. simpl.
      unfold bind at 1. now rewrite os_path_exists_run, Hs. }
    rewrite Hraise in H. injection H as <- <-. left. split.
    + now rewrite (new_events_app w _
                     [EvExists (dict_get arguments "file_path")]).
    + intros t. discriminate.
Qed.
End SenderCases.

Lemma os_path_basename_still path w r w' :
  os_path_basename path w = (r, w') -> w' = w.
Proof. destruct path; simpl; now intros [= _ <-]. Qed.

Lemma finish_document_still path message w r w' :
  finish_document path message w = (r, w') -> w' = w.
Proof.
  unfold finish_document, os_path_getsize. intros H.
  apply bind_inv in H as [(n & w1 & H1 & H2) | (e & H1 & _)].
  - apply os_path_basename_still in H1. subst w1.
    apply bind_inv in H2 as [(z & w2 & H2 & H3) | (e & H2 & _)].
    + injection H2 as _ <-. now injection H3.
    + now injection H2.
  - now apply os_path_basename_still in H1.
Qed.

Lemma finish_photo_still path message w r w' :
  finish_photo path message w = (r, w') -> w' = w.
Proof.
  unfold finish_photo. intros H.
  apply bind_inv in H as [(n & w1 & H1 & H2) | (e & H1 & _)].
  - apply os_path_basename_still in H1. subst w1. now injection H2.
  - now apply os_path_basename_still in H1.
Qed.

Section UploadEvent.
Variable ev : pyval -> FileObj -> pyval -> event.
Variable call : Remote -> Bot -> pyval -> FileObj -> pyval -> result Message.
Variable finish : pyval -> Message -> M (list TextContent).
Hypothesis finish_still : forall path message w r w',
  finish path message w = (r, w') -> w' = w.
Hypothesis ev_upload : forall c f k, is_upload (ev c f k) = true.
Hypothesis ev_inj : forall c f k c' f' k',
  ev c f k = ev c' f' k' -> c = c' /\ f = f' /\ k = k'.

(** An upload found among the events of a sender is the one upload of that
    run. *)
Lemma sender_upload_event (arguments : gmap string pyval) w r w' c f k :
  sender (upload_with ev call finish) arguments w = (r, w') ->
  In (ev c f k) (new_events w w') ->
  destination arguments w = Some c /\
  open_rb (dict_get arguments "file_path") w = Ok f /\
  k = dict_get_default arguments "caption" (PStr "") /\
  exists pre : list event,
    new_events w w' =
      (pre ++ [EvOpen (dict_get arguments "file_path"); ev c f k;
               EvClose (dict_get arguments "file_path")])%list /\
    forallb (fun e => negb (is_upload e)) pre = true.
Proof.
  intros H Hin.
  destruct (sender_cases ev call finish finish_still arguments w r w' H)
    as [(Q & _) | (chat & b & file & pre & Hd & Hc & Ho & Hnew & Qp & _)].
  - pose proof (quiet_not_upload _ _ Q Hin) as Hq.
    rewrite ev_upload in Hq. discriminate.
  - rewrite Hnew in Hin. apply in_app_or in Hin as [Hin | Hin].
    + pose proof (quiet_not_upload _ _ Qp Hin) as Hq.
      rewrite ev_upload in Hq. discriminate.
    + simpl in Hin. destruct Hin as [E | [E | [E | []]]].
      * pose proof (ev_upload c f k) as Hq. rewrite <- E in Hq. discriminate.
      * apply ev_inj in E as (E1 & E2 & E3). subst chat file.
        split_all; try assumption.
        -- now symmetry.
        -- exists pre. rewrite Hnew, E3. now split.
      * pose proof (ev_upload c f k) as Hq. rewrite <- E in Hq. discriminate.
Qed.

(** No upload of another kind is ever among them. *)
Lemma sender_no_other_upload (arguments : gmap string pyval) w r w' other :
  sender (upload_with ev call finish) arguments w = (r, w') ->
  is_upload other = true -> (forall c f k, other <> ev c f k) ->
  ~ In other (new_events w w').
Proof.
  intros H Hup Hother Hin.
  destruct (sender_cases ev call finish finish_still arguments w r w' H)
    as [(Q & _) | (chat & b & file & pre & Hd & Hc & Ho & Hnew & Qp & _)].
  - pose proof (quiet_not_upload _ _ Q Hin) as Hq. congruence.
  - rewrite Hnew in Hin. apply in_app_or in Hin as [Hin | Hin].
    + pose proof (quiet_not_upload _ _ Qp Hin) as Hq. congruence.
    + simpl in Hin. destruct Hin as [E | [E | [E | []]]].
      * rewrite <- E in Hup. discriminate.
      * exact (Hother _ _ _ (eq_sym E)).
      * rewrite <- E in Hup. discriminate.
Qed.

(** A text with a success prefix is only returned after the remote call
    returned a message. *)
Lemma sender_success_accepted (arguments : gmap string pyval) w w' t a s :
  a <> "E"%char -> a <> "T"%char ->
  sender (upload_with ev call finish) arguments w =
    (Ok [text_content t], w') ->
  starts_with (String a s) t = true ->
  exists chat b file message,
    destination arguments w = Some chat /\ client w = Some b /\
    open_rb (dict_get arguments "file_path") w = Ok file /\
    call (remote w) b chat file
      (dict_get_default arguments "caption" (PStr "")) = Ok message /\
    In (ev chat file (dict_get_default arguments "caption" (PStr "")))
       (new_events w w').
Proof.
  intros HE HT H Hpre.
  assert (Hno : forall t',
            t' = t ->
            starts_with "Error: " t' = true \/
            starts_with "Telegram error: " t' = true -> False).
  { intros t' -> [Hx | Hx].
    - apply HE. exact (prefix_first_char _ _ _ _ _ Hpre Hx).
    - apply HT. exact (prefix_first_char _ _ _ _ _ Hpre Hx). }
  destruct (sender_cases ev call finish finish_still arguments w _ w' H)
    as [(_ & Htext)
       | (chat & b & file & pre & Hd & Hc & Ho & Hnew & Qp & Hcall)].
  - exfalso. exact (Hno t eq_refl (Htext t eq_refl)).
  - destruct Hcall as [(e & _ & [[_ Hr] | [_ Hr]]) | (message & Hcall & _)].
    + exfalso. injection Hr as Hr.
      exact (Hno _ (eq_sym Hr) (failure_text_report e)).
    + discriminate.
    + exists chat, b, file, message. split_all; try assumption.
      rewrite Hnew. apply in_or_app. right. simpl. auto.
Qed.
End UploadEvent.

(** ** What is uploaded, and when a success can be read *)

(** X6: an upload among the events of a sender is the only one of its run:
    it goes to the chat given or resolved, carries the file as [open]
    returned it for [file_path] and the caption given (or the empty one),
    comes right after the opening of that file and right before its
    closing; and [send_document] never uploads a photo, nor [send_photo] a
    document. *)
Theorem uploads_carry_the_file (arguments : gmap string pyval) (w : World)
    (c : pyval) (f : FileObj) (k : pyval) :
  (In (EvSendDocument c f k)
      (new_events w (snd (send_document arguments w))) ->
   destination arguments w = Some c /\
   open_rb (dict_get arguments "file_path") w = Ok f /\
   k = dict_get_default arguments "caption" (PStr "") /\
   exists pre : list event,
     new_events w (snd (send_document arguments w)) =
       (pre ++ [EvOpen (dict_get arguments "file_path");
                EvSendDocument c f k;
                EvClose (dict_get arguments "file_path")])%list /\
     forallb (fun e => negb (is_upload e)) pre = true) /\
  (In (EvSendPhoto c f k)
      (new_events w (snd (send_photo arguments w))) ->
   destination arguments w = Some c /\
   open_rb (dict_get arguments "file_path") w = Ok f /\
   k = dict_get_default arguments "caption" (PStr "") /\
   exists pre : list event,
     new_events w (snd (send_photo arguments w)) =
       (pre ++ [EvOpen (dict_get arguments "file_path");
                EvSendPhoto c f k;
                EvClose (dict_get arguments "file_path")])%list /\
     forallb (fun e => negb (is_upload e)) pre = true) /\
  ~ In (EvSendPhoto c f k) (new_events w (snd (send_document arguments w))) /\
  ~ In (EvSendDocument c f k) (new_events w (snd (send_photo arguments w))).
Proof.
  assert (Id : forall c f k c' f' k',
            EvSendDocument c f k = EvSendDocument c' f' k' ->
            c = c' /\ f = f' /\ k = k').
  { intros ? ? ? ? ? ? [= -> -> ->]. auto. }
  assert (Ip : forall c f k c' f' k',
            EvSendPhoto c f k = EvSendPhoto c' f' k' ->
            c = c' /\ f = f' /\ k = k').
  { intros ? ? ? ? ? ? [= -> -> ->]. auto. }
  destruct (send_document arguments w) as [rd wd] eqn:Ed.
  destruct (send_photo arguments w) as [rp wp] eqn:Ep.
  rewrite send_document_sender in Ed. rewrite send_photo_sender in Ep.
  change (sender upload_document arguments w)
    with (sender (upload_with EvSendDocument bot_send_document
                    finish_document) arguments w) in Ed.
  change (sender upload_photo arguments w)
    with (sender (upload_with EvSendPhoto bot_send_photo finish_photo)
            arguments w) in Ep.
  simpl. split_all.
  - intros Hin.
    exact (sender_upload_event EvSendDocument bot_send_document
             finish_document finish_document_still (fun _ _ _ => eq_refl) Id
             arguments w rd wd c f k Ed Hin).
  - intros Hin.
    exact (sender_upload_event EvSendPhoto bot_send_photo finish_photo
             finish_photo_still (fun _ _ _ => eq_refl) Ip
             arguments w rp wp c f k Ep Hin).
  - apply (sender_no_other_upload EvSendDocument bot_send_document
             finish_document finish_document_still arguments w rd wd);
      [exact Ed | reflexivity | discriminate].
  - apply (sender_no_other_upload EvSendPhoto bot_send_photo finish_photo
             finish_photo_still arguments w rp wp);
      [exact Ep | reflexivity | discriminate].
Qed.

Lemma uploads_carry_the_file_witness :
  destination
    {[ "file_path" := PStr "/tmp/report.pdf"; "chat_id" := PStr "42" ]}
    demo_world = Some (PStr "42") /\
  open_rb
    (dict_get
       {[ "file_path" := PStr "/tmp/report.pdf"; "chat_id" := PStr "42" ]}
       "file_path") demo_world =
    Ok {| file_name := PStr "/tmp/report.pdf";
          file_data := [Byte.x25; Byte.x50; Byte.x44] |}.
Proof.
  pose proof (uploads_carry_the_file
                {[ "file_path" := PStr "/tmp/report.pdf";
                   "chat_id" := PStr "42" ]} demo_world (PStr "42")
                {| file_name := PStr "/tmp/report.pdf";
                   file_data := [Byte.x25; Byte.x50; Byte.x44] |}
                (PStr "")) as (Hdoc & _).
  specialize (Hdoc ltac:(vm_compute; do 3 right; left; reflexivity)).
  destruct Hdoc as (Hd & Ho & _). split; [exact Hd | exact Ho].
Defined.

(** X8: a text that starts with the success line is only ever returned
    after the remote accepted the upload: if [send_document] returns a text
    starting with its success line (or [send_photo] one starting with its
    own), then a chat was given or resolved, a client was available, the
    file was opened, the awaited Bot method returned a message for them, and
    that upload is among the events of the call. *)
Theorem success_means_accepted (arguments : gmap string pyval) (w : World)
    (t : string) :
  (fst (send_document arguments w) = Ok [text_content t] ->
   starts_with "Document sent successfully!" t = true ->
   exists chat b file message,
     destination arguments w = Some chat /\ client w = Some b /\
     open_rb (dict_get arguments "file_path") w = Ok file /\
     bot_send_document (remote w) b chat file
       (dict_get_default arguments "caption" (PStr "")) = Ok message /\
     In (EvSendDocument chat file
           (dict_get_default arguments "caption" (PStr "")))
        (new_events w (snd (send_document arguments w)))) /\
  (fst (send_photo arguments w) = Ok [text_content t] ->
   starts_with "Photo sent successfully!" t = true ->
   exists chat b file message,
     destination arguments w = Some chat /\ client w = Some b /\
     open_rb (dict_get arguments "file_path") w = Ok file /\
     bot_send_photo (remote w) b chat file
       (dict_get_default arguments "caption" (PStr "")) = Ok message /\
     In (EvSendPhoto chat file
           (dict_get_default arguments "caption" (PStr "")))
        (new_events w (snd (send_photo arguments w)))).
Proof.
  destruct (send_document arguments w) as [rd wd] eqn:Ed.
  destruct (send_photo arguments w) as [rp wp] eqn:Ep.
  rewrite send_document_sender in Ed. rewrite send_photo_sender in Ep.
  change (sender upload_document arguments w)
    with (sender (upload_with EvSendDocument bot_send_document
                    finish_document) arguments w) in Ed.
  change (sender upload_photo arguments w)
    with (sender (upload_with EvSendPhoto bot_send_photo finish_photo)
            arguments w) in Ep.
  simpl. split; intros -> Hpre.
  - refine (sender_success_accepted EvSendDocument bot_send_document
              finish_document finish_document_still arguments w wd t
              "D"%char "ocument sent successfully!" _ _ Ed Hpre);
      discriminate.
  - refine (sender_success_accepted EvSendPhoto bot_send_photo
              finish_photo finish_photo_still arguments w wp t
              "P"%char "hoto sent successfully!" _ _ Ep Hpre);
      discriminate.
Qed.

Lemma success_means_accepted_witness :
  exists chat b file message,
    destination {[ "file_path" := PStr "/tmp/report.pdf" ]} demo_world
      = Some chat /\
    client demo_world = Some b /\
    open_rb (dict_get {[ "file_path" := PStr "/tmp/report.pdf" ]} "file_path")
      demo_world = Ok file /\
    bot_send_document (remote demo_world) b chat file
      (dict_get_default {[ "file_path" := PStr "/tmp/report.pdf" ]}
         "caption" (PStr "")) = Ok message /\
    In (EvSendDocument chat file
          (dict_get_default {[ "file_path" := PStr "/tmp/report.pdf" ]}
             "caption" (PStr "")))
       (new_events demo_world
          (snd (send_document {[ "file_path" := PStr "/tmp/report.pdf" ]}
                  demo_world))).
Proof.
  pose proof (success_means_accepted
                {[ "file_path" := PStr "/tmp/report.pdf" ]} demo_world
                (document_sent "report.pdf" 3 demo_message)) as (Hdoc & _).
  exact (Hdoc ltac:(vm_compute; reflexivity) ltac:(vm_compute; reflexivity)).
Defined.
